(* Shallow embedding of the MCP session client (MCPClient) and of the
   streaming decoder of AIClient, src/src/AIClient.js. *)

From stdpp Require Import base gmap strings list pretty.
From Stdlib Require Import ZArith String Ascii Lia Sorted.

Set Warnings "-register-all".
Open Scope string_scope.
Open Scope list_scope.

(* ===================================================================== *)
(** * JSON values, as produced by JSON.parse                             *)
(* ===================================================================== *)

Module Json.

(** A value returned by [JSON.parse].  Numbers are integers here; an object
    keeps its fields in source order (duplicate keys: the last one wins,
    as in [JSON.parse]). *)
Inductive json : Type :=
| JNull
| JBool (b : bool)
| JNum (z : Z)
| JStr (s : string)
| JArr (l : list json)
| JObj (fs : list (string * json)).

(** Nested induction principle. *)
Section json_ind2.
Variable P : json -> Prop.
Hypothesis hNull : P JNull.
Hypothesis hBool : forall b, P (JBool b).
Hypothesis hNum : forall z, P (JNum z).
Hypothesis hStr : forall s, P (JStr s).
Hypothesis hArr : forall l, Forall P l -> P (JArr l).
Hypothesis hObj : forall fs, Forall (fun kv => P (snd kv)) fs -> P (JObj fs).

Fixpoint json_ind2 (j : json) : P j :=
  match j with
  | JNull => hNull
  | JBool b => hBool b
  | JNum z => hNum z
  | JStr s => hStr s
  | JArr l =>
      hArr l ((fix go (l : list json) : Forall P l :=
                 match l with
                 | [] => List.Forall_nil _
                 | x :: l' => List.Forall_cons _ _ _ (json_ind2 x) (go l')
                 end) l)
  | JObj fs =>
      hObj fs ((fix go (fs : list (string * json))
                  : Forall (fun kv => P (snd kv)) fs :=
                 match fs with
                 | [] => List.Forall_nil _
                 | kv :: fs' => List.Forall_cons _ _ _ (json_ind2 (snd kv)) (go fs')
                 end) fs)
  end.
End json_ind2.

Fixpoint json_eqb (a b : json) : bool :=
  match a, b with
  | JNull, JNull => true
  | JBool x, JBool y => Bool.eqb x y
  | JNum x, JNum y => Z.eqb x y
  | JStr x, JStr y => String.eqb x y
  | JArr xs, JArr ys =>
      (fix go (xs ys : list json) : bool :=
         match xs, ys with
         | [], [] => true
         | x :: xs', y :: ys' => json_eqb x y && go xs' ys'
         | _, _ => false
         end) xs ys
  | JObj xs, JObj ys =>
      (fix go (xs ys : list (string * json)) : bool :=
         match xs, ys with
         | [], [] => true
         | (k, x) :: xs', (k', y) :: ys' =>
             String.eqb k k' && json_eqb x y && go xs' ys'
         | _, _ => false
         end) xs ys
  | _, _ => false
  end.

Lemma json_eqb_eq (a b : json) : json_eqb a b = true <-> a = b.
Proof.
  revert b; induction a as [| x | x | x | xs IH | xs IH] using json_ind2;
    intros [| y | y | y | ys | ys]; simpl;
    try (split; [discriminate | congruence]).
  - tauto.
  - rewrite Bool.eqb_true_iff; split; congruence.
  - rewrite Z.eqb_eq; split; congruence.
  - rewrite String.eqb_eq; split; congruence.
  - revert ys; induction IH as [| x xs Hx _ IHxs]; intros [| y ys]; simpl;
      try (split; [discriminate | congruence]); [tauto |].
    rewrite andb_true_iff, Hx, IHxs. split; [intros [-> Hl]; congruence |].
    intros H; injection H; intros; subst; auto.
  - revert ys; induction IH as [| [k x] xs Hx _ IHxs]; intros [| [k' y] ys]; simpl;
      try (split; [discriminate | congruence]); [tauto |].
    simpl in Hx. rewrite !andb_true_iff, String.eqb_eq, Hx, IHxs.
    split; [intros [[-> ->] Hl]; congruence |].
    intros H; injection H; intros; subst; auto.
Qed.

#[global] Instance json_eq_dec : EqDecision json.
Proof.
  intros a b. destruct (json_eqb a b) eqn:E.
  - left. by apply json_eqb_eq.
  - right. intros H. apply json_eqb_eq in H. congruence.
Defined.

(** JavaScript truthiness ([if (v)], [v || d]). *)
Definition truthy (v : json) : bool :=
  match v with
  | JNull => false
  | JBool b => b
  | JNum z => negb (Z.eqb z 0)
  | JStr s => negb (String.eqb s "")
  | JArr _ | JObj _ => true
  end.

(** [undefined] is [None]. *)
Definition truthy_opt (v : option json) : bool :=
  match v with Some v => truthy v | None => false end.

Fixpoint obj_get (fs : list (string * json)) (k : string) : option json :=
  match fs with
  | [] => None
  | (k', v) :: fs' =>
      match obj_get fs' k with
      | Some w => Some w
      | None => if String.eqb k k' then Some v else None
      end
  end.

(** Property read [v.k] on a non-null value: [None] is [undefined]
    (strings and arrays have no JSON-named properties apart from indices). *)
Definition get (v : json) (k : string) : option json :=
  match v with JObj fs => obj_get fs k | _ => None end.

(** Optional chaining [v?.k]. *)
Definition oget (v : option json) (k : string) : option json :=
  match v with Some v => get v k | None => None end.

(** Optional index [v?.[0]]: first array element, first character of a
    string. *)
Definition oidx0 (v : option json) : option json :=
  match v with
  | Some (JArr (x :: _)) => Some x
  | Some (JStr (String c _)) => Some (JStr (String c EmptyString))
  | Some (JObj fs) => obj_get fs "0"
  | _ => None
  end.

(** The empty object [{}]. *)
Definition jempty : json := JObj [].

End Json.
Import Json.

(* ===================================================================== *)
(** * JavaScript Map, as an insertion-ordered association list            *)
(* ===================================================================== *)

Module JsMap.
Section JsMap.
Context {K V : Type} `{EqDecision K}.

Definition t := list (K * V).

Fixpoint get (m : t) (k : K) : option V :=
  match m with
  | [] => None
  | (k', v) :: m' => if decide (k = k') then Some v else get m' k
  end.

(** [m.set(k, v)]: an existing key keeps its position. *)
Fixpoint set (m : t) (k : K) (v : V) : t :=
  match m with
  | [] => [(k, v)]
  | (k', v') :: m' =>
      if decide (k = k') then (k', v) :: m' else (k', v') :: set m' k v
  end.

(** [m.clear()]. *)
Definition clear (m : t) : t := [].

Lemma get_set (m : t) (k k' : K) (v : V) :
  get (set m k v) k' = if decide (k' = k) then Some v else get m k'.
Proof.
  induction m as [| [k1 v1] m IH]; simpl.
  - done.
  - destruct (decide (k = k1)) as [-> |]; simpl.
    + destruct (decide (k' = k1)); done.
    + rewrite IH. destruct (decide (k' = k1)), (decide (k' = k)); subst; done.
Qed.
End JsMap.
End JsMap.
Arguments JsMap.t : clear implicits.

(** A settled future: resolved with a value, or rejected with an [Error]
    whose message is given. *)
Inductive outcome : Type :=
| Resolved (v : json)
| Rejected (msg : string).

(** [for (const x of v)]: arrays yield their elements, strings their
    characters; any other value is not iterable ([None], a TypeError). *)
Definition js_iter (v : json) : option (list json) :=
  match v with
  | JArr l => Some l
  | JStr s => Some (map (fun c => JStr (String c EmptyString)) (list_ascii_of_string s))
  | _ => None
  end.

(* ===================================================================== *)
(** * Capability caches: MCPClient.listTools / listResources / listPrompts *)
(* ===================================================================== *)

Module Registry.

Inductive category := Tools | Resources | Prompts.

(** Field of the list response holding the collection. *)
Definition cat_field (c : category) : string :=
  match c with Tools => "tools" | Resources => "resources" | Prompts => "prompts" end.

(** Key of a descriptor: [tool.name], [resource.uri], [prompt.name]. *)
Definition cat_key (c : category) : string :=
  match c with Tools => "name" | Resources => "uri" | Prompts => "name" end.

Definition cat_label (c : category) : string :=
  match c with Tools => "tools" | Resources => "resources" | Prompts => "prompts" end.

(** A cache: a JS Map from the key value ([undefined] is [None]) to the
    descriptor. *)
Abbreviation cache := (JsMap.t (option json) json).

(** [for (const d of xs) { this.tools.set(d.name, d); }]: reading [d.name]
    on [null] throws, leaving the entries set so far; the boolean tells
    whether the loop ran to its end. *)
Fixpoint fill (kf : string) (xs : list json) (m : cache) : cache * bool :=
  match xs with
  | [] => (m, true)
  | JNull :: _ => (m, false)
  | d :: xs' => fill kf xs' (JsMap.set m (get d kf) d)
  end.

(** The part of [listTools] after [await this.sendRequest("tools/list")]:
    [o] is how that request settled. *)
Definition list_complete (c : category) (o : outcome) (m : cache) : cache * outcome :=
  let fail msg := Rejected ("Failed to list " ++ cat_label c ++ ": " ++ msg)%string in
  match o with
  | Rejected msg => (m, fail msg)
  | Resolved response =>
      let items := match get response (cat_field c) with
                   | Some v => if truthy v then v else JArr []
                   | None => JArr []
                   end in
      let m0 := JsMap.clear m in
      match js_iter items with
      | None => (m0, fail "items is not iterable")
      | Some xs =>
          match fill (cat_key c) xs m0 with
          | (m1, true) => (m1, Resolved items)
          | (m1, false) => (m1, fail "Cannot read properties of null")
          end
      end
  end.

(** Descriptors of a completed list call ([] when it was rejected). *)
Definition listed (o : outcome) : list json :=
  match o with
  | Resolved v => match js_iter v with Some xs => xs | None => [] end
  | Rejected _ => []
  end.

(** [{ ...d, serverName }] *)
Definition with_server (sn : string) (d : json) : json :=
  let idx {A} (f : A -> json) (l : list A) :=
    imap (fun i x => (pretty i, f x)) l in
  match d with
  | JObj fs => JObj (fs ++ [("serverName", JStr sn)])
  | JArr l => JObj (idx id l ++ [("serverName", JStr sn)])
  | JStr s => JObj (idx (fun c => JStr (String c EmptyString)) (list_ascii_of_string s)
                    ++ [("serverName", JStr sn)])
  | _ => JObj [("serverName", JStr sn)]
  end.

(** AIClient._refreshMcpTools / _refreshMcpResources / _refreshMcpPrompts
    after [await mcpClient.listTools()] settled with [o]: every listed
    descriptor is set in the facade map, nothing is removed; a rejection
    (or a throw inside the loop) is caught and logged. *)
Fixpoint refresh_loop (kf sn : string) (xs : list json) (m : cache) : cache :=
  match xs with
  | [] => m
  | JNull :: _ => m
  | d :: xs' => refresh_loop kf sn xs' (JsMap.set m (get d kf) (with_server sn d))
  end.

Definition refresh (c : category) (sn : string) (o : outcome) (m : cache) : cache :=
  refresh_loop (cat_key c) sn (listed o) m.

End Registry.

(* ===================================================================== *)
(** * The session: MCPClient                                             *)
(* ===================================================================== *)

Module Session.
Local Open Scope Z_scope.

(** Events emitted through EventEmitter. *)
Inductive event :=
| EvConnected
| EvDisconnected
| EvError (msg : string)
| EvReconnecting (n : Z)
| EvResourceUpdated (params : option json)
| EvResourcesChanged (params : option json)
| EvToolsChanged (params : option json)
| EvPromptsChanged (params : option json)
| EvNotification (msg : json).

(** What a step makes observable. *)
Inductive output :=
| OEmit (e : event)
| OSettle (id : Z) (o : outcome)   (* the future of request [id] is resolved/rejected *)
| OSend (msg : json)               (* written to the transport *)
| OThrow (msg : string).           (* the API call itself rejects *)

(** Callback of a live [setTimeout]. *)
Inductive timer_cb :=
| TTimeout (id : Z)     (* the timeout of sendRequest for [id] *)
| TReconnect.           (* the delayed [this.connect()] of _handleReconnect *)

(** Who awaits the connect() in progress. *)
Inductive origin := FromUser | FromReconnect.

(** The [readyState] of the websocket object: CONNECTING until its 'open'
    event, OPEN, then CLOSING/CLOSED once it reports an error or closes
    (the two behave alike for [send]).  The stdio and sse transports never
    read it. *)
Inductive ready_state := RConnecting | ROpen | RClosed.

Record session := mkSession {
  transport : string;
  timeout : Z;
  reconnectDelay : Z;
  maxReconnectAttempts : Z;
  connection : option nat;         (* handle of the transport object *)
  isConnected : bool;
  requestId : Z;
  pendingRequests : gmap Z nat;    (* id -> its timeoutId *)
  reconnectAttempts : Z;
  shouldReconnect : bool;
  (* runtime around the object *)
  timers : gmap nat (Z * timer_cb);  (* live timers: deadline, callback *)
  next_timer : nat;
  next_conn : nat;
  connecting : option origin;      (* a connect() awaiting its transport *)
  now : Z;
  readyState : ready_state;        (* of the transport object [connection] *)
  transport_error : option string  (* what creating the transport object throws *)
}.

(** [config.x || default] on a numeric option. *)
Definition or_default (v : option Z) (d : Z) : Z :=
  match v with Some z => if Z.eqb z 0 then d else z | None => d end.

(** [new MCPClient(config)].  [url_error] is what creating the transport
    object in [_connectX] throws for [config.serverUrl], if anything: this is
    fixed by the configuration and the installed packages ([new WebSocket]
    on an invalid URL, [serverUrl.split] on a missing stdio command, a
    missing [eventsource] package for sse). *)
Definition create_with (cfg_transport : option string) (url_error : option string)
    (cfg_timeout cfg_delay cfg_max : option Z) : session :=
  {| transport := match cfg_transport with
                  | Some t => if String.eqb t "" then "stdio" else t
                  | None => "stdio" end;
     timeout := or_default cfg_timeout 30000;
     reconnectDelay := or_default cfg_delay 5000;
     maxReconnectAttempts := or_default cfg_max 5;
     connection := None; isConnected := false; requestId := 0;
     pendingRequests := ∅; reconnectAttempts := 0; shouldReconnect := true;
     timers := ∅; next_timer := 0; next_conn := 0; connecting := None; now := 0;
     readyState := RClosed; transport_error := url_error |}.

(** A client whose [serverUrl] its transport accepts. *)
Definition create (cfg_transport : option string)
    (cfg_timeout cfg_delay cfg_max : option Z) : session :=
  create_with cfg_transport None cfg_timeout cfg_delay cfg_max.

(** Node's setTimeout clamps a delay outside [1, 2^31-1] to 1. *)
Definition eff_delay (d : Z) : Z :=
  if (d <? 1) || (2147483647 <? d) then 1 else d.

(** Field updates [this.f = v]. *)
Definition set_connection (s : session) (v : option nat) : session :=
  {| transport := transport s; timeout := timeout s; reconnectDelay := reconnectDelay s; maxReconnectAttempts := maxReconnectAttempts s; connection := v; isConnected := isConnected s; requestId := requestId s; pendingRequests := pendingRequests s; reconnectAttempts := reconnectAttempts s; shouldReconnect := shouldReconnect s; timers := timers s; next_timer := next_timer s; next_conn := next_conn s; connecting := connecting s; now := now s; readyState := readyState s; transport_error := transport_error s |}.
Definition set_isConnected (s : session) (v : bool) : session :=
  {| transport := transport s; timeout := timeout s; reconnectDelay := reconnectDelay s; maxReconnectAttempts := maxReconnectAttempts s; connection := connection s; isConnected := v; requestId := requestId s; pendingRequests := pendingRequests s; reconnectAttempts := reconnectAttempts s; shouldReconnect := shouldReconnect s; timers := timers s; next_timer := next_timer s; next_conn := next_conn s; connecting := connecting s; now := now s; readyState := readyState s; transport_error := transport_error s |}.
Definition set_requestId (s : session) (v : Z) : session :=
  {| transport := transport s; timeout := timeout s; reconnectDelay := reconnectDelay s; maxReconnectAttempts := maxReconnectAttempts s; connection := connection s; isConnected := isConnected s; requestId := v; pendingRequests := pendingRequests s; reconnectAttempts := reconnectAttempts s; shouldReconnect := shouldReconnect s; timers := timers s; next_timer := next_timer s; next_conn := next_conn s; connecting := connecting s; now := now s; readyState := readyState s; transport_error := transport_error s |}.
Definition set_pendingRequests (s : session) (v : gmap Z nat) : session :=
  {| transport := transport s; timeout := timeout s; reconnectDelay := reconnectDelay s; maxReconnectAttempts := maxReconnectAttempts s; connection := connection s; isConnected := isConnected s; requestId := requestId s; pendingRequests := v; reconnectAttempts := reconnectAttempts s; shouldReconnect := shouldReconnect s; timers := timers s; next_timer := next_timer s; next_conn := next_conn s; connecting := connecting s; now := now s; readyState := readyState s; transport_error := transport_error s |}.
Definition set_reconnectAttempts (s : session) (v : Z) : session :=
  {| transport := transport s; timeout := timeout s; reconnectDelay := reconnectDelay s; maxReconnectAttempts := maxReconnectAttempts s; connection := connection s; isConnected := isConnected s; requestId := requestId s; pendingRequests := pendingRequests s; reconnectAttempts := v; shouldReconnect := shouldReconnect s; timers := timers s; next_timer := next_timer s; next_conn := next_conn s; connecting := connecting s; now := now s; readyState := readyState s; transport_error := transport_error s |}.
Definition set_shouldReconnect (s : session) (v : bool) : session :=
  {| transport := transport s; timeout := timeout s; reconnectDelay := reconnectDelay s; maxReconnectAttempts := maxReconnectAttempts s; connection := connection s; isConnected := isConnected s; requestId := requestId s; pendingRequests := pendingRequests s; reconnectAttempts := reconnectAttempts s; shouldReconnect := v; timers := timers s; next_timer := next_timer s; next_conn := next_conn s; connecting := connecting s; now := now s; readyState := readyState s; transport_error := transport_error s |}.
Definition set_timers (s : session) (v : gmap nat (Z * timer_cb)) : session :=
  {| transport := transport s; timeout := timeout s; reconnectDelay := reconnectDelay s; maxReconnectAttempts := maxReconnectAttempts s; connection := connection s; isConnected := isConnected s; requestId := requestId s; pendingRequests := pendingRequests s; reconnectAttempts := reconnectAttempts s; shouldReconnect := shouldReconnect s; timers := v; next_timer := next_timer s; next_conn := next_conn s; connecting := connecting s; now := now s; readyState := readyState s; transport_error := transport_error s |}.
Definition set_next_timer (s : session) (v : nat) : session :=
  {| transport := transport s; timeout := timeout s; reconnectDelay := reconnectDelay s; maxReconnectAttempts := maxReconnectAttempts s; connection := connection s; isConnected := isConnected s; requestId := requestId s; pendingRequests := pendingRequests s; reconnectAttempts := reconnectAttempts s; shouldReconnect := shouldReconnect s; timers := timers s; next_timer := v; next_conn := next_conn s; connecting := connecting s; now := now s; readyState := readyState s; transport_error := transport_error s |}.
Definition set_next_conn (s : session) (v : nat) : session :=
  {| transport := transport s; timeout := timeout s; reconnectDelay := reconnectDelay s; maxReconnectAttempts := maxReconnectAttempts s; connection := connection s; isConnected := isConnected s; requestId := requestId s; pendingRequests := pendingRequests s; reconnectAttempts := reconnectAttempts s; shouldReconnect := shouldReconnect s; timers := timers s; next_timer := next_timer s; next_conn := v; connecting := connecting s; now := now s; readyState := readyState s; transport_error := transport_error s |}.
Definition set_connecting (s : session) (v : option origin) : session :=
  {| transport := transport s; timeout := timeout s; reconnectDelay := reconnectDelay s; maxReconnectAttempts := maxReconnectAttempts s; connection := connection s; isConnected := isConnected s; requestId := requestId s; pendingRequests := pendingRequests s; reconnectAttempts := reconnectAttempts s; shouldReconnect := shouldReconnect s; timers := timers s; next_timer := next_timer s; next_conn := next_conn s; connecting := v; now := now s; readyState := readyState s; transport_error := transport_error s |}.
Definition set_now (s : session) (v : Z) : session :=
  {| transport := transport s; timeout := timeout s; reconnectDelay := reconnectDelay s; maxReconnectAttempts := maxReconnectAttempts s; connection := connection s; isConnected := isConnected s; requestId := requestId s; pendingRequests := pendingRequests s; reconnectAttempts := reconnectAttempts s; shouldReconnect := shouldReconnect s; timers := timers s; next_timer := next_timer s; next_conn := next_conn s; connecting := connecting s; now := v; readyState := readyState s; transport_error := transport_error s |}.
Definition set_readyState (s : session) (v : ready_state) : session :=
  {| transport := transport s; timeout := timeout s; reconnectDelay := reconnectDelay s; maxReconnectAttempts := maxReconnectAttempts s; connection := connection s; isConnected := isConnected s; requestId := requestId s; pendingRequests := pendingRequests s; reconnectAttempts := reconnectAttempts s; shouldReconnect := shouldReconnect s; timers := timers s; next_timer := next_timer s; next_conn := next_conn s; connecting := connecting s; now := now s; readyState := v; transport_error := transport_error s |}.

(** [setTimeout(cb, d)]: returns the new timer's id. *)
Definition set_timeout (s : session) (d : Z) (cb : timer_cb) : session * nat :=
  let t := next_timer s in
  (set_next_timer (set_timers s (<[t := (now s + eff_delay d, cb)]> (timers s))) (S t), t).

(** [clearTimeout(t)]. *)
Definition clear_timeout (s : session) (t : nat) : session :=
  set_timers s (delete t (timers s)).
(** [String(v)], also the message of [new Error(v)] and a template
    literal's [${v}]; [None] when it throws a TypeError.  An object prints
    as "[object Object]" unless it has an own [toString] property, which
    JSON.parse makes a non-callable value, so that the conversion finds no
    usable [toString] or [valueOf] and throws; an array joins its elements
    with commas ([null] as the empty string), throwing when one does.
    Numbers print as their decimal digits, as JavaScript does for integers
    of magnitude at most 2^53 (see [nums_safe]). *)
Fixpoint js_to_string (v : json) : option string :=
  match v with
  | JNull => Some "null"
  | JBool b => Some (if b then "true" else "false")
  | JNum z => Some (pretty z)
  | JStr s => Some s
  | JArr l =>
      (fix go (l : list json) : option (list string) :=
         match l with
         | [] => Some []
         | x :: l' =>
             match (match x with JNull => Some "" | _ => js_to_string x end), go l' with
             | Some a, Some r => Some (a :: r)
             | _, _ => None
             end
         end) l ≫= fun xs => Some (String.concat "," xs)
  | JObj fs => if existsb (fun kv => String.eqb kv.1 "toString") fs then None
               else Some "[object Object]"
  end.

(** The message of that TypeError. *)
Definition to_primitive_error : string := "Cannot convert object to primitive value".

(** The values whose numbers are integers of magnitude at most 2^53: where
    [JNum z] is the number JSON.parse yields for the digits of [z] and
    prints back as them (a larger integer is rounded, and from 1e21 on it
    prints with an exponent). *)
Fixpoint nums_safe (v : json) : bool :=
  match v with
  | JNum z => Z.abs z <=? 2 ^ 53
  | JArr l => forallb nums_safe l
  | JObj fs => forallb (fun kv => nums_safe kv.2) fs
  | _ => true
  end.

Definition sse_send_error : string :=
  "SSE transport does not support sending messages. Use WebSocket or stdio for bidirectional communication.".

Inductive send_result := Sent | NotSent | Threw (msg : string).

(** [_sendMessage]: websocket and stdio write through [this.connection]
    (a TypeError when it is null), sse throws, another transport has no case.
    The websocket's [send] throws while the socket is CONNECTING and, once
    it is CLOSING or CLOSED, drops the data without throwing. *)
Definition send_message (s : session) : send_result :=
  if String.eqb (transport s) "websocket" then
    match connection s with
    | Some _ => match readyState s with
                | RConnecting => Threw "WebSocket is not open: readyState 0 (CONNECTING)"
                | ROpen => Sent
                | RClosed => NotSent
                end
    | None => Threw "Cannot read properties of null (reading 'send')"
    end
  else if String.eqb (transport s) "stdio" then
    match connection s with
    | Some _ => Sent
    | None => Threw "Cannot read properties of null (reading 'stdin')"
    end
  else if String.eqb (transport s) "sse" then Threw sse_send_error
  else NotSent.

Definition request_msg (id : Z) (m : string) (params : json) : json :=
  JObj [("jsonrpc", JStr "2.0"); ("id", JNum id); ("method", JStr m); ("params", params)].

Definition notification_msg (m : string) (params : json) : json :=
  JObj [("jsonrpc", JStr "2.0"); ("method", JStr m); ("params", params)].

(** [const id = ++this.requestId], then, in the Promise executor, the
    timeout timer and the pending entry. *)
Definition register_request (s : session) : session * Z * nat :=
  let id := requestId s + 1 in
  let '(s1, t) := set_timeout (set_requestId s id) (timeout s) (TTimeout id) in
  (set_pendingRequests s1 (<[id := t]> (pendingRequests s1)), id, t).

(** [sendRequest(method, params)]: the id of the new future, if one was
    created.  The Promise executor sets the timer and the entry before
    sending, so a throwing send rejects the future but keeps both. *)
Definition send_request (s : session) (m : string) (params : json)
    : session * list output * option Z :=
  if negb (isConnected s) then (s, [OThrow "Not connected to MCP server"], None)
  else
    let '(s2, id, _) := register_request s in
    match send_message s2 with
    | Sent => (s2, [OSend (request_msg id m params)], Some id)
    | NotSent => (s2, [], Some id)
    | Threw e => (s2, [OSettle id (Rejected e)], Some id)
    end.

(** [sendNotification(method, params)]: synchronous, so a throwing send
    throws to the caller. *)
Definition send_notification (s : session) (m : string) (params : json)
    : session * list output :=
  if negb (isConnected s) then (s, [OThrow "Not connected to MCP server"])
  else match send_message s with
       | Sent => (s, [OSend (notification_msg m params)])
       | NotSent => (s, [])
       | Threw e => (s, [OThrow e])
       end.

(** [disconnect()].  Closing the socket or killing the process makes the
    transport deliver its close/exit event later (input [IClose]). *)
Definition disconnect (s : session) : session * list output :=
  let s1 := set_isConnected (set_shouldReconnect s false) false in
  let s2 := match connection s1 with Some _ => set_connection s1 None | None => s1 end in
  let rejects := map (fun p => OSettle p.1 (Rejected "Connection closed"))
                     (map_to_list (pendingRequests s2)) in
  (set_pendingRequests s2 ∅, rejects ++ [OEmit EvDisconnected]).

(** [_handleReconnect()]. *)
Definition handle_reconnect (s : session) : session * list output :=
  if negb (shouldReconnect s) || (maxReconnectAttempts s <=? reconnectAttempts s) then (s, [])
  else
    let n := reconnectAttempts s + 1 in
    let s1 := set_reconnectAttempts s n in
    let '(s2, _) := set_timeout s1 (reconnectDelay s1) TReconnect in
    (s2, [OEmit (EvReconnecting n)]).

(** A rejected connect(): the caller sees the rejection, or the reconnect
    timer's catch emits an error. *)
Definition connect_failed (s : session) (o : origin) (e : string) : list output :=
  match o with
  | FromUser => [OThrow e]
  | FromReconnect =>
      [OEmit (EvError ("Reconnection attempt " ++ pretty (reconnectAttempts s) ++ " failed: " ++ e)%string)]
  end.

Definition known_transport (t : string) : bool :=
  String.eqb t "sse" || String.eqb t "websocket" || String.eqb t "stdio".

(** [connect()] up to [await this._connectX()]: the transport object is
    created and stored in [this.connection] at once, CONNECTING; when
    creating it throws, the promise of [_connectX] rejects with nothing
    changed, and connect() emits 'error' and rethrows. *)
Definition connect (s : session) (o : origin) : session * list output :=
  if known_transport (transport s) then
    match transport_error s with
    | None =>
        let c := next_conn s in
        (set_readyState (set_connecting (set_connection (set_next_conn s (S c)) (Some c)) (Some o))
           RConnecting, [])
    | Some e => (s, OEmit (EvError e) :: connect_failed s o e)
    end
  else
    let e := ("Unsupported transport: " ++ transport s)%string in
    (s, OEmit (EvError e) :: connect_failed s o e).

Definition init_params : json :=
  JObj [("protocolVersion", JStr "2024-11-05");
        ("capabilities", JObj [("tools", jempty); ("resources", jempty); ("prompts", jempty)]);
        ("clientInfo", JObj [("name", JStr "ai-client"); ("version", JStr "2.0.0")])].

(** The transport opened ('open', 'spawn', onopen): the rest of connect()
    up to the first await of [_initialize()]. *)
Definition on_open (s : session) : session * list output :=
  match connecting s with
  | None => (s, [])
  | Some _ =>
      let s1 := set_reconnectAttempts
                  (set_isConnected (set_connecting (set_readyState s ROpen) None) true) 0 in
      let '(s2, outs, _) := send_request s1 "initialize" init_params in
      (s2, OEmit EvConnected :: outs)
  end.

(** The transport's 'error' event (onerror for sse); a websocket is
    CLOSING from then on. *)
Definition on_error (s : session) (msg : string) : session * list output :=
  if String.eqb (transport s) "sse" then
    let '(s1, outs) := handle_reconnect s in (s1, OEmit (EvError msg) :: outs)
  else
    let s0 := set_readyState s RClosed in
    match connecting s with
    | Some o => (set_connecting s0 None,
                 [OEmit (EvError msg); OEmit (EvError msg)] ++ connect_failed s o msg)
    | None => (s0, [OEmit (EvError msg)])
    end.

Definition code_string (code : option Z) : string :=
  match code with Some z => pretty z | None => "null" end.

(** The websocket 'close' event or the stdio process 'exit' event.  The
    socket is CLOSED from then on; [readyState] is left as it was, since
    with [isConnected] false nothing sends before the next 'open' sets it. *)
Definition on_close (s : session) (code : option Z) : session * list output :=
  if String.eqb (transport s) "sse" then (s, [])
  else
    let s1 := set_isConnected s false in
    let errs := if String.eqb (transport s) "stdio" && negb (bool_decide (code = Some 0))
                then [OEmit (EvError ("Server exited with code " ++ code_string code)%string)]
                else [] in
    let '(s2, outs) := handle_reconnect s1 in
    (s2, [OEmit EvDisconnected] ++ errs ++ outs).
(** A background [this.listX().catch(() => {})]: only the request it
    issues is visible here (a not-connected throw is swallowed). *)
Definition background_list (s : session) (m : string) : session * list output :=
  match send_request s m jempty with
  | (s', outs, Some _) => (s', outs)
  | (s', _, None) => (s', [])
  end.

(** [_handleNotification(notification)]. *)
Definition handle_notification (s : session) (n : json) : session * list output :=
  let params := get n "params" in
  match get n "method" with
  | Some (JStr m) =>
      if String.eqb m "notifications/resources/updated" then
        (s, [OEmit (EvResourceUpdated params)])
      else if String.eqb m "notifications/resources/list_changed" then
        let '(s1, outs) := background_list s "resources/list" in
        (s1, OEmit (EvResourcesChanged params) :: outs)
      else if String.eqb m "notifications/tools/list_changed" then
        let '(s1, outs) := background_list s "tools/list" in
        (s1, OEmit (EvToolsChanged params) :: outs)
      else if String.eqb m "notifications/prompts/list_changed" then
        let '(s1, outs) := background_list s "prompts/list" in
        (s1, OEmit (EvPromptsChanged params) :: outs)
      else (s, [OEmit (EvNotification n)])
  | _ => (s, [OEmit (EvNotification n)])
  end.

(** The message of [new Error(message.error.message || "Unknown error")];
    [None] when converting it to a string throws. *)
Definition error_text (err : json) : option string :=
  match get err "message" with
  | Some v => if truthy v then js_to_string v else Some "Unknown error"
  | None => Some "Unknown error"
  end.

(** How a response settles its request; [None] when building the Error
    throws. *)
Definition response_outcome (msg : json) : option outcome :=
  match get msg "error" with
  | Some e => if truthy e then option_map Rejected (error_text e) else
                match get msg "result" with
                | Some r => Some (Resolved (if truthy r then r else jempty))
                | None => Some (Resolved jempty)
                end
  | None => match get msg "result" with
            | Some r => Some (Resolved (if truthy r then r else jempty))
            | None => Some (Resolved jempty)
            end
  end.

(** [pendingRequests.has(message.id)]: Map keys are the numeric ids. *)
Definition pending_hit (s : session) (idv : option json) : option (Z * nat) :=
  match idv with
  | Some (JNum n) => match pendingRequests s !! n with
                     | Some t => Some (n, t)
                     | None => None
                     end
  | _ => None
  end.

(** [_handleMessage(message)]: the state and outputs it leaves, and the
    message of the error it throws, if it does: reading [.id] of [null],
    or building the Error of a response, after its entry was deleted and
    its timer cleared. *)
Definition handle_message (s : session) (msg : json) : session * list output * option string :=
  match msg with
  | JNull => (s, [], Some "Cannot read properties of null (reading 'id')")
  | _ =>
      let idv := get msg "id" in
      if truthy_opt idv then
        match pending_hit s idv with
        | Some (n, t) =>
            let s1 := clear_timeout (set_pendingRequests s (delete n (pendingRequests s))) t in
            match response_outcome msg with
            | Some o => (s1, [OSettle n o], None)
            | None => (s1, [], Some to_primitive_error)
            end
        | None => (s, [], None)
        end
      else let '(s1, outs) := handle_notification s msg in (s1, outs, None)
  end.

(** A timer callback runs. *)
Definition run_timer (s : session) (cb : timer_cb) : session * list output :=
  match cb with
  | TTimeout id =>
      (set_pendingRequests s (delete id (pendingRequests s)),
       [OSettle id (Rejected "Request timeout")])
  | TReconnect => connect s FromReconnect
  end.

(** The event loop fires timer [t] once its deadline is reached. *)
Definition fire (s : session) (t : nat) : session * list output :=
  match timers s !! t with
  | Some (dl, cb) => if dl <=? now s then run_timer (set_timers s (delete t (timers s))) cb
                     else (s, [])
  | None => (s, [])
  end.

(** What can happen next: an API call, a transport event, a decoded
    incoming message, the clock, a timer. *)
Inductive input :=
| IConnect
| IDisconnect
| ISendRequest (m : string) (params : json)
| ISendNotification (m : string) (params : json)
| IOpen
| IError (msg : string)
| IClose (code : option Z)
| IMessage (msg : json)
| IAdvance (d : Z)
| IFire (t : nat).

Definition parse_error_prefix (s : session) : string :=
  if String.eqb (transport s) "sse" then "Failed to parse SSE message: "
  else "Failed to parse message: ".

Definition step (s : session) (i : input) : session * list output :=
  match i with
  | IConnect => connect s FromUser
  | IDisconnect => disconnect s
  | ISendRequest m p => let '(s1, outs, _) := send_request s m p in (s1, outs)
  | ISendNotification m p => send_notification s m p
  | IOpen => on_open s
  | IError msg => on_error s msg
  | IClose code => on_close s code
  | IMessage msg =>
      (* the transport's message handler catches a throw of _handleMessage *)
      let '(s1, outs, err) := handle_message s msg in
      (s1, outs ++ match err with
                   | Some e => [OEmit (EvError (parse_error_prefix s ++ e)%string)]
                   | None => []
                   end)
  | IAdvance d => if 0 <=? d then (set_now s (now s + d), []) else (s, [])
  | IFire t => fire s t
  end.

Fixpoint run (s : session) (is : list input) : session * list output :=
  match is with
  | [] => (s, [])
  | i :: is' =>
      let '(s1, o1) := step s i in
      let '(s2, o2) := run s1 is' in
      (s2, o1 ++ o2)
  end.

End Session.

(* ===================================================================== *)
(** * AIClient's stream decoding and MCPClient's stdio line loop         *)
(* ===================================================================== *)

Module Decoder.

(** JSON.parse on the JSON this development feeds it: [null], booleans,
    integers, strings without escapes, arrays and objects, with JSON
    whitespace.  [None] is a throw; a fraction, an exponent or an escape is
    outside this model and also gives [None]. *)
Definition json_ws (c : ascii) : bool :=
  existsb (Nat.eqb (nat_of_ascii c)) [9; 10; 13; 32]%nat.

Fixpoint skip_ws (cs : list ascii) : list ascii :=
  match cs with
  | c :: r => if json_ws c then skip_ws r else cs
  | [] => []
  end.

Fixpoint strip (w cs : list ascii) : option (list ascii) :=
  match w, cs with
  | [], _ => Some cs
  | a :: w', c :: cs' => if Ascii.eqb a c then strip w' cs' else None
  | _, [] => None
  end.

Definition digit (c : ascii) : option Z :=
  let n := nat_of_ascii c in
  if (48 <=? n)%nat && (n <=? 57)%nat then Some (Z.of_nat (n - 48)) else None.

Fixpoint digits (acc : Z) (cs : list ascii) : Z * list ascii :=
  match cs with
  | c :: r => match digit c with Some d => digits (acc * 10 + d)%Z r | None => (acc, cs) end
  | [] => (acc, [])
  end.

Definition parse_int (cs : list ascii) : option (Z * list ascii) :=
  match cs with
  | c :: r =>
      match digit c with
      | Some d =>
          let '(z, r') := digits d r in
          match r' with
          | c' :: _ =>
              if Ascii.eqb c' "."%char || Ascii.eqb c' "e"%char || Ascii.eqb c' "E"%char
              then None else Some (z, r')
          | [] => Some (z, r')
          end
      | None => None
      end
  | [] => None
  end.

Fixpoint str_body (cs : list ascii) : option (string * list ascii) :=
  match cs with
  | [] => None
  | c :: r =>
      if Ascii.eqb c "034"%char then Some (EmptyString, r)
      else if Ascii.eqb c "092"%char then None
      else match str_body r with
           | Some (s, r') => Some (String c s, r')
           | None => None
           end
  end.

Fixpoint parse_value (n : nat) (cs : list ascii) {struct n} : option (json * list ascii) :=
  match n with
  | O => None
  | S n' =>
      match skip_ws cs with
      | [] => None
      | c :: r =>
          if Ascii.eqb c "{"%char then
            match skip_ws r with
            | c' :: r' =>
                if Ascii.eqb c' "}"%char then Some (JObj [], r')
                else match parse_members n' r with
                     | Some (fs, r2) => Some (JObj fs, r2)
                     | None => None
                     end
            | [] => None
            end
          else if Ascii.eqb c "["%char then
            match skip_ws r with
            | c' :: r' =>
                if Ascii.eqb c' "]"%char then Some (JArr [], r')
                else match parse_elems n' r with
                     | Some (l, r2) => Some (JArr l, r2)
                     | None => None
                     end
            | [] => None
            end
          else if Ascii.eqb c "034"%char then
            match str_body r with Some (s, r') => Some (JStr s, r') | None => None end
          else if Ascii.eqb c "-"%char then
            match parse_int r with Some (z, r') => Some (JNum (- z)%Z, r') | None => None end
          else
            match strip (list_ascii_of_string "null") (c :: r) with
            | Some r' => Some (JNull, r')
            | None =>
                match strip (list_ascii_of_string "true") (c :: r) with
                | Some r' => Some (JBool true, r')
                | None =>
                    match strip (list_ascii_of_string "false") (c :: r) with
                    | Some r' => Some (JBool false, r')
                    | None =>
                        match parse_int (c :: r) with
                        | Some (z, r') => Some (JNum z, r')
                        | None => None
                        end
                    end
                end
            end
      end
  end
with parse_elems (n : nat) (cs : list ascii) {struct n} : option (list json * list ascii) :=
  match n with
  | O => None
  | S n' =>
      match parse_value n' cs with
      | Some (v, r) =>
          match skip_ws r with
          | c :: r' =>
              if Ascii.eqb c ","%char then
                match parse_elems n' r' with
                | Some (l, r2) => Some (v :: l, r2)
                | None => None
                end
              else if Ascii.eqb c "]"%char then Some ([v], r')
              else None
          | [] => None
          end
      | None => None
      end
  end
with parse_members (n : nat) (cs : list ascii) {struct n}
    : option (list (string * json) * list ascii) :=
  match n with
  | O => None
  | S n' =>
      match skip_ws cs with
      | c :: r =>
          if Ascii.eqb c "034"%char then
            match str_body r with
            | Some (k, r1) =>
                match skip_ws r1 with
                | c1 :: r2 =>
                    if Ascii.eqb c1 ":"%char then
                      match parse_value n' r2 with
                      | Some (v, r3) =>
                          match skip_ws r3 with
                          | c3 :: r4 =>
                              if Ascii.eqb c3 ","%char then
                                match parse_members n' r4 with
                                | Some (fs, r5) => Some ((k, v) :: fs, r5)
                                | None => None
                                end
                              else if Ascii.eqb c3 "}"%char then Some ([(k, v)], r4)
                              else None
                          | [] => None
                          end
                      | None => None
                      end
                    else None
                | [] => None
                end
            | None => None
            end
          else None
      | [] => None
      end
  end.

Definition json_parse (s : string) : option json :=
  let cs := list_ascii_of_string s in
  match parse_value (S (2 * List.length cs)) cs with
  | Some (v, r) => match skip_ws r with [] => Some v | _ => None end
  | None => None
  end.

(** The characters [String.prototype.trim] removes, among the code units
    below 256. *)
Definition js_ws (c : ascii) : bool :=
  existsb (Nat.eqb (nat_of_ascii c)) [9; 10; 11; 12; 13; 32; 160]%nat.

(** [!line.trim()] *)
Definition blank (line : string) : bool := forallb js_ws (list_ascii_of_string line).

(** [s.split("\n")], the current piece being [cur]. *)
Fixpoint split_acc (cur s : string) : list string :=
  match s with
  | EmptyString => [cur]
  | String c r =>
      if Ascii.eqb c "010"%char then cur :: split_acc EmptyString r
      else split_acc (cur ++ String c EmptyString)%string r
  end.

Definition split_nl (s : string) : list string := split_acc EmptyString s.

(** One 'data' event: [buffer += chunk; const lines = buffer.split("\n");
    buffer = lines.pop() || ""]: the complete lines and the new buffer. *)
Definition feed (buffer chunk : string) : list string * string :=
  let lines := split_nl (buffer ++ chunk)%string in
  (List.removelast lines, List.last lines EmptyString).

(** What the stdio stdout handler does with a line: nothing for a blank
    one, [_handleMessage(message)] for one that parses, the 'error' event
    "Failed to parse message: ..." for one that does not.  (A throw inside
    [_handleMessage] ends in the same error event; the session model has it
    under [IMessage].) *)
Inductive stdio_out := SMessage (m : json) | SParseError.

Section WithParse.
Variable parse : string -> option json.

Definition stdio_line (line : string) : list stdio_out :=
  if blank line then []
  else match parse line with
       | Some m => [SMessage m]
       | None => [SParseError]
       end.

Definition stdio_data (buffer chunk : string) : string * list stdio_out :=
  let '(lines, b) := feed buffer chunk in (b, flat_map stdio_line lines).

Fixpoint stdio_run (buffer : string) (chunks : list string) : string * list stdio_out :=
  match chunks with
  | [] => (buffer, [])
  | c :: cs =>
      let '(b1, o1) := stdio_data buffer c in
      let '(b2, o2) := stdio_run b1 cs in
      (b2, o1 ++ o2)
  end.

(** [_parseStreamChunk(line)] for [this.apiFormat = fmt]: [None] when it
    returns [null] or throws (the caller skips the line either way). *)
Definition openai_chunk (p : json) : option json :=
  match p with
  | JNull => None                       (* [parsed.choices] throws *)
  | _ =>
      let c0 := oidx0 (get p "choices") in
      let content := oget (oget c0 "delta") "content" in
      let fin := oget c0 "finish_reason" in
      Some (JObj [("response", match content with
                               | Some v => if truthy v then v else JStr ""
                               | None => JStr ""
                               end);
                  ("done", JBool (match fin with Some JNull => false | _ => true end));
                  ("_original", p)])
  end.

Definition parse_stream_chunk (fmt line : string) : option json :=
  if String.eqb fmt "openai" then
    if String.prefix "data: " line then
      let data := substring 6 (String.length line - 6) line in
      if String.eqb data "[DONE]" then Some (JObj [("done", JBool true)])
      else match parse data with
           | Some p => openai_chunk p
           | None => None
           end
    else None
  else parse line.

(** [parsedChunk.done || (this.apiFormat === "openai" &&
    parsedChunk.choices?.[0]?.finish_reason)] *)
Definition terminal (fmt : string) (pc : json) : bool :=
  truthy_opt (get pc "done") ||
  (String.eqb fmt "openai" && truthy_opt (oget (oidx0 (get pc "choices")) "finish_reason")).

(** The [for] loop of generateStream's 'data' handler: each truthy chunk
    goes to [onChunk] (assumed not to throw); after a terminal one the
    handler [return]s, leaving the remaining lines of the event. *)
Fixpoint stream_lines (fmt : string) (lines : list string) : list json :=
  match lines with
  | [] => []
  | l :: ls =>
      if blank l then stream_lines fmt ls
      else match parse_stream_chunk fmt l with
           | Some pc =>
               if truthy pc then pc :: (if terminal fmt pc then [] else stream_lines fmt ls)
               else stream_lines fmt ls
           | None => stream_lines fmt ls
           end
  end.

Definition stream_data (fmt buffer chunk : string) : string * list json :=
  let '(lines, b) := feed buffer chunk in (b, stream_lines fmt lines).

Fixpoint stream_run (fmt buffer : string) (chunks : list string) : string * list json :=
  match chunks with
  | [] => (buffer, [])
  | c :: cs =>
      let '(b1, o1) := stream_data fmt buffer c in
      let '(b2, o2) := stream_run fmt b1 cs in
      (b2, o1 ++ o2)
  end.

(** What one line gives to [onChunk] on its own. *)
Definition stream_line (fmt l : string) : list json :=
  if blank l then []
  else match parse_stream_chunk fmt l with
       | Some pc => if truthy pc then [pc] else []
       | None => []
       end.

Definition no_terminal (fmt l : string) : Prop :=
  forall pc, parse_stream_chunk fmt l = Some pc -> truthy pc = true -> terminal fmt pc = false.

End WithParse.

(** The whole input of a stream, and the lines the loops see. *)
Fixpoint join (chunks : list string) : string :=
  match chunks with [] => EmptyString | c :: cs => (c ++ join cs)%string end.

Fixpoint feed_all (buffer : string) (chunks : list string) : list string * string :=
  match chunks with
  | [] => ([], buffer)
  | c :: cs =>
      let '(ls, b1) := feed buffer c in
      let '(ls2, b2) := feed_all b1 cs in
      (ls ++ ls2, b2)
  end.

Definition nl_free (s : string) : bool :=
  negb (existsb (fun c => Ascii.eqb c "010"%char) (list_ascii_of_string s)).

End Decoder.



(* ===================================================================== *)
(** * Concrete sessions used by the examples                             *)
(* ===================================================================== *)

Module Scenarios.
Import Session.

(** [new MCPClient({transport: "websocket", serverUrl})] with defaults. *)
Definition ws0 : session := create (Some "websocket") None None None.

(** Connected; the initialize request (id 1) is in flight. *)
Definition ws_init : session := fst (run ws0 [IConnect; IOpen]).

(** Three requests in flight: initialize (1), "a" (2), "b" (3). *)
Definition ws_three : session :=
  fst (run ws_init [ISendRequest "a" jempty; ISendRequest "b" jempty]).

(** A websocket session allowing one reconnection attempt. *)
Definition ws_max1 : session := create (Some "websocket") None None (Some 1%Z).

(** An sse session as constructed. *)
Definition sse0 : session := create (Some "sse") None None None.

(** A response whose result is [false]. *)
Definition falsy_response : json := JObj [("id", JNum 1); ("result", JBool false)].

(** An error response whose error message is an object with its own
    [toString] key. *)
Definition tostring_error_response : json :=
  JObj [("id", JNum 1); ("error", JObj [("message", JObj [("toString", JNum 1)])])].

End Scenarios.

Module RegistryScenarios.
Import Registry.

(** The tools cache holding "a" and "b", a tools/list response naming "b"
    and "c", and the cache that response leaves. *)
Definition scenario_ab : cache :=
  [(Some (JStr "a"), JObj [("name", JStr "a")]); (Some (JStr "b"), JObj [("name", JStr "b")])].
Definition scenario_bc_response : json :=
  JObj [("tools", JArr [JObj [("name", JStr "b")]; JObj [("name", JStr "c")]])].
Definition scenario_bc : cache :=
  [(Some (JStr "b"), JObj [("name", JStr "b")]); (Some (JStr "c"), JObj [("name", JStr "c")])].

End RegistryScenarios.

Module DecoderScenarios.
Import Decoder.

Definition nl : string := String "010"%char EmptyString.

(** Writes a JSON text with ' in place of each double quote. *)
Fixpoint dq (s : string) : string :=
  match s with
  | EmptyString => EmptyString
  | String c r => String (if Ascii.eqb c "'"%char then "034"%char else c) (dq r)
  end.

(** The line of the claim, {"id":1,"result":{}}, cut after "resu". *)
Definition ex_line : string := dq "{'id':1,'result':{}}".
Definition ex_chunk1 : string := substring 0 13 ex_line.
Definition ex_chunk2 : string := (substring 13 (String.length ex_line - 13) ex_line ++ nl)%string.
Definition ex_msg : json := JObj [("id", JNum 1); ("result", JObj [])].

(** Shape A, {"response":"hi","done":false}. *)
Definition shapeA_line : string := dq "{'response':'hi','done':false}".
(** Shape B, data: {"choices":[{"delta":{"content":"hi"},"finish_reason":null}]}. *)
Definition shapeB_json : string :=
  dq "{'choices':[{'delta':{'content':'hi'},'finish_reason':null}]}".
Definition shapeB_frame : string := ("data: " ++ shapeB_json)%string.
Definition shapeB_value : json :=
  JObj [("choices", JArr [JObj [("delta", JObj [("content", JStr "hi")]);
                               ("finish_reason", JNull)]])].
Definition done_frame : string := "data: [DONE]".

(** A deepseek data event holding a final chunk and, after it, one more. *)
Definition final_line : string := dq "{'response':'','done':true}".
Definition late_line : string := dq "{'response':'x','done':false}".
Definition two_lines : string := (final_line ++ nl ++ late_line ++ nl)%string.
Definition final_msg : json := JObj [("response", JStr ""); ("done", JBool true)].
Definition late_msg : json := JObj [("response", JStr "x"); ("done", JBool false)].

End DecoderScenarios.

(* ===================================================================== *)
(** * What a run of the session writes                                   *)
(* ===================================================================== *)

Module Observe.
Import Session.
Local Open Scope Z_scope.

(** The messages a list of outputs writes to the transport. *)
Fixpoint sends (outs : list output) : list json :=
  match outs with
  | [] => []
  | OSend msg :: r => msg :: sends r
  | _ :: r => sends r
  end.

(** The transports whose [_sendMessage] writes. *)
Definition writes (tr : string) : bool :=
  String.eqb tr "websocket" || String.eqb tr "stdio".

(** A written message with an [id] member: a request. *)
Definition has_id (m : json) : bool :=
  match get m "id" with Some _ => true | None => false end.

(** What one step may do to the transport and the request counter: keep
    the transport, write only on a transport that writes, write nothing
    without an id but notifications, and either keep the counter and write
    no request, or hand out the next id and write at most the request
    carrying it. *)
Definition req_step (s s' : session) (outs : list output) : Prop :=
  transport s' = transport s /\
  (writes (transport s) = false -> sends outs = []) /\
  Forall (fun m => has_id m = false -> exists me p, m = notification_msg me p) (sends outs) /\
  ((requestId s' = requestId s /\ List.filter has_id (sends outs) = []) \/
   (requestId s' = requestId s + 1 /\
    (List.filter has_id (sends outs) = [] \/
     exists m p, List.filter has_id (sends outs) = [request_msg (requestId s') m p]))).

(** No transport object, no connect() in progress, not connected. *)
Definition unconnected (s : session) : Prop :=
  isConnected s = false /\ connecting s = None /\ connection s = None.

End Observe.

(* ===================================================================== *)
(** * AIClient: requests, errors, templates and the MCP facade           *)
(* ===================================================================== *)

Module AIClientModel.
Import Registry.
Local Open Scope string_scope.

(** [a || b], either side possibly [undefined] ([None]). *)
Definition js_or (a b : option json) : option json :=
  match a with Some v => if truthy v then Some v else b | None => b end.

(** [String(v)] (a template literal's [${v}]), [undefined] included;
    [None] when it throws. *)
Definition js_string_opt (v : option json) : option string :=
  match v with Some v => Session.js_to_string v | None => Some "undefined" end.

(** An object built by the code: its own properties in insertion order; a
    property may hold [undefined] ([None]). *)
Definition obj := list (string * option json).

(** [o.k]: [None] when [o] has no property [k]. *)
Fixpoint obj_lookup (o : obj) (k : string) : option (option json) :=
  match o with
  | [] => None
  | (k', v) :: o' => if String.eqb k k' then Some v else obj_lookup o' k
  end.

(** [o.k = v]: an existing property keeps its place. *)
Fixpoint obj_put (o : obj) (k : string) (v : option json) : obj :=
  match o with
  | [] => [(k, v)]
  | (k', v') :: o' => if String.eqb k k' then (k', v) :: o' else (k', v') :: obj_put o' k v
  end.

(** [{ ...base, ...options }]: [options] is a caller's object of JSON
    values, read as [JSON.parse] builds one (a repeated key: the last value
    at the first place). *)
Definition spread (base : obj) (options : list (string * json)) : obj :=
  fold_left (fun o kv => obj_put o kv.1 (Some kv.2)) options base.

(** The optional OpenAI parameters, in the order [_formatRequest] copies them. *)
Definition openai_params : list string :=
  ["temperature"; "max_tokens"; "top_p"; "frequency_penalty"; "presence_penalty"].

(** [_formatRequest(prompt, options)] with [this.apiFormat = fmt] and
    [this.model = this_model]. *)
Definition format_request (fmt : string) (this_model : option json) (prompt : string)
    (options : list (string * json)) : obj :=
  let model := js_or (obj_get options "model") this_model in
  let stream := js_or (obj_get options "stream") (Some (JBool false)) in
  if String.eqb fmt "openai" then
    fold_left (fun rd k => match obj_get options k with
                           | Some v => obj_put rd k (Some v)
                           | None => rd
                           end) openai_params
      [("model", model);
       ("messages", Some (JArr [JObj [("role", JStr "user"); ("content", JStr prompt)]]));
       ("stream", stream)]
  else spread [("model", model); ("prompt", Some (JStr prompt)); ("stream", stream)] options.

(** [{ ...options, stream: true }], the options generateStream formats. *)
Definition stream_options (options : list (string * json)) : list (string * json) :=
  options ++ [("stream", JBool true)].

(** [_extractErrorMessage(response)], [data] being [response.data]. *)
Definition extract_error (fmt : string) (data : option json) (statusText : string) : option json :=
  if String.eqb fmt "openai"
  then js_or (oget (oget data "error") "message") (Some (JStr statusText))
  else js_or (oget data "error") (Some (JStr statusText)).

(** The message of the Error [generate] throws for an HTTP error response
    with a numeric [status]; [None] when the template literal throws (a
    TypeError is thrown instead). *)
Definition api_error (fmt : string) (status : Z) (statusText : string) (data : option json)
    : option string :=
  js_string_opt (extract_error fmt data statusText) ≫= fun m =>
  Some ("API Error: " ++ pretty status ++ " - " ++ m).

(** [\w]: [A-Za-z0-9_]. *)
Definition is_word (c : ascii) : bool :=
  let n := nat_of_ascii c in
  (Nat.leb 48 n && Nat.leb n 57) || (Nat.leb 65 n && Nat.leb n 90) ||
  (Nat.leb 97 n && Nat.leb n 122) || Nat.eqb n 95.

(** The longest prefix of [\w] characters, and the rest. *)
Fixpoint word_prefix (s : string) : string * string :=
  match s with
  | EmptyString => (EmptyString, EmptyString)
  | String c r =>
      if is_word c then let '(w, r') := word_prefix r in (String c w, r')
      else (EmptyString, s)
  end.

(** A match of [/\{\{(\w+)\}\}/] at the start of [s]: the key and what
    follows the match (the greedy [\w+] cannot give back a character,
    since [}] is not one). *)
Definition placeholder (s : string) : option (string * string) :=
  match s with
  | String a (String b r) =>
      if Ascii.eqb a "{" && Ascii.eqb b "{" then
        match word_prefix r with
        | (String c w, String d (String e r')) =>
            if Ascii.eqb d "}" && Ascii.eqb e "}" then Some (String c w, r') else None
        | _ => None
        end
      else None
  | _ => None
  end.

Section Replace.
(** [variables[key]] as the string [replace] inserts, [None] when it is
    [undefined]. *)
Variable var : string -> option string.

(** [template.replace(/\{\{(\w+)\}\}/g, ...)] from the current position:
    a match is replaced and the search goes on after it; otherwise one
    character is kept. *)
Fixpoint replace_go (fuel : nat) (s : string) : string :=
  match fuel with
  | O => s
  | S f =>
      match placeholder s with
      | Some (k, r) =>
          (match var k with Some v => v | None => "{{" ++ k ++ "}}" end) ++ replace_go f r
      | None =>
          match s with
          | EmptyString => EmptyString
          | String c r => String c (replace_go f r)
          end
      end
  end.

(** [replaceTemplateVariables(template, variables)]. *)
Definition replace_template_variables (template : string) : string :=
  replace_go (String.length template) template.

End Replace.

(** A template read as literal text and placeholders. *)
Inductive segment := Lit (t : string) | Hole (k : string).

Definition seg_text (x : segment) : string :=
  match x with Lit t => t | Hole k => "{{" ++ k ++ "}}" end.

(** Literal text holds no [{]; a placeholder's key is a nonempty word. *)
Definition seg_ok (x : segment) : bool :=
  match x with
  | Lit t => negb (existsb (fun c => Ascii.eqb c "{") (list_ascii_of_string t))
  | Hole k => negb (String.eqb k "") && forallb is_word (list_ascii_of_string k)
  end.

Definition seg_out (var : string -> option string) (x : segment) : string :=
  match x with
  | Lit t => t
  | Hole k => match var k with Some v => v | None => "{{" ++ k ++ "}}" end
  end.

(** [String.prototype.trim] on code units below 256. *)
Fixpoint drop_ws (l : list ascii) : list ascii :=
  match l with
  | c :: r => if Decoder.js_ws c then drop_ws r else l
  | [] => []
  end.

Definition trim (s : string) : string :=
  string_of_list_ascii (rev (drop_ws (rev (drop_ws (list_ascii_of_string s))))).

(** [s.startsWith]-style search: does [pat] occur in [s]
    ([s.includes(pat)])? *)
Fixpoint includes (s pat : string) : bool :=
  String.prefix pat s || match s with EmptyString => false | String _ r => includes r pat end.

(** [s.endsWith(suf)]. *)
Definition ends_with (suf s : string) : bool :=
  Nat.leb (String.length suf) (String.length s) &&
  String.eqb (substring (String.length s - String.length suf) (String.length suf) s) suf.

(** [s.replace(pat, "")] with a string pattern: the first occurrence only. *)
Fixpoint replace_first (pat s : string) : string :=
  if String.prefix pat s then substring (String.length pat) (String.length s - String.length pat) s
  else match s with EmptyString => EmptyString | String c r => String c (replace_first pat r) end.

(** The [prompts] directory: [None] when it does not exist, else its
    files by name. *)
Definition dir := option (JsMap.t string string).

(** A template name that [path.join] keeps as one file name of
    [prompts]: no [/] and no NUL. *)
Definition safe_name (name : string) : bool :=
  forallb (fun c => negb (Ascii.eqb c "/") && negb (Ascii.eqb c "000"))
          (list_ascii_of_string name).

Definition template_file (name : string) : string := name ++ ".txt".

Inductive res (A : Type) : Type := Ok (a : A) | Err (msg : string).
Arguments Ok {A} a.
Arguments Err {A} msg.

(** [loadPromptTemplate(name)]. *)
Definition load_prompt_template (d : dir) (name : string) : res string :=
  match d ≫= fun files => JsMap.get files (template_file name) with
  | Some content => Ok (trim content)
  | None => Err ("Prompt template '" ++ name ++ "' not found. Create a file at prompts/"
                 ++ name ++ ".txt")
  end.

(** [savePromptTemplate(name, content)]: [mkdir -p prompts], then the
    trimmed content is written. *)
Definition save_prompt_template (d : dir) (name content : string) : dir :=
  Some (JsMap.set (default [] d) (template_file name) (trim content)).

(** [listPromptTemplates()]. *)
Definition list_prompt_templates (d : dir) : list string :=
  match d with
  | None => []
  | Some files => map (replace_first ".txt") (List.filter (ends_with ".txt") (map fst files))
  end.

(** [String.prototype.toLowerCase] on code units below 256. *)
Definition lower (c : ascii) : ascii :=
  let n := nat_of_ascii c in
  if (Nat.leb 65 n && Nat.leb n 90) || (Nat.leb 192 n && Nat.leb n 222 && negb (Nat.eqb n 215))
  then ascii_of_nat (n + 32) else c.

Definition to_lower (s : string) : string :=
  string_of_list_ascii (map lower (list_ascii_of_string s)).

(** [toolNames.filter((toolName) => lp.includes(toolName.toLowerCase()))]
    with [lp = prompt.toLowerCase()]: a name that is not a string throws. *)
Fixpoint mentioned (lp : string) (names : list (option json)) : option (list string) :=
  match names with
  | [] => Some []
  | Some (JStr n) :: ns =>
      match mentioned lp ns with
      | Some ms => Some (if includes lp (to_lower n) then n :: ms else ms)
      | None => None
      end
  | _ :: _ => None
  end.

(** [${tool.description || "No description"}] *)
Definition tool_desc (tool : json) : option string :=
  js_string_opt (js_or (get tool "description") (Some (JStr "No description"))).

(** [`- ${tool.name}: ${...}`] for [tool = this.mcpTools.get(toolName)];
    [None] when it throws. *)
Definition tool_line (tool : option json) : option string :=
  match tool with
  | None | Some JNull => None
  | Some t =>
      js_string_opt (get t "name") ≫= fun n =>
      tool_desc t ≫= fun d => Some ("- " ++ n ++ ": " ++ d)
  end.

Definition lf : string := String "010"%char EmptyString.

(** The enhanced prompt of generateWithMcp. *)
Definition enhance (prompt : string) (lines : list string) : string :=
  prompt ++ lf ++ lf ++ "Available tools:" ++ lf ++ String.concat lf lines ++ lf ++ lf ++
  "Note: You can suggest using these tools if relevant to the user's request.".

(** [generateWithMcp(prompt)] up to [this.generate(p)]: the prompt [p] it
    generates from, [None] when it throws first. *)
Definition generate_with_mcp (mcpEnabled : bool) (tools : cache) (prompt : string) : option string :=
  if negb mcpEnabled || Nat.eqb (List.length tools) 0 then Some prompt
  else
    match mentioned (to_lower prompt) (map (fun kv => get kv.2 "name") tools) with
    | None => None
    | Some [] => Some prompt
    | Some ms =>
        match mapM (fun n => tool_line (JsMap.get tools (Some (JStr n)))) ms with
        | Some lines => Some (enhance prompt lines)
        | None => None
        end
    end.


Definition cat_word (c : category) : string :=
  match c with Tools => "tool" | Resources => "resource" | Prompts => "prompt" end.

(** [callMcpTool] / [readMcpResource] / [getMcpPrompt] up to the call on
    the client: the client used, or the error thrown. [serverName] is the
    optional argument ([None] or [null] when not given). *)
Definition call_route {C : Type} (c : category) (clients : JsMap.t (option json) C)
    (m : cache) (key : string) (serverName : option json) : res C :=
  match JsMap.get m (Some (JStr key)) with
  | Some d =>
      if truthy d then
        let clientName := js_or serverName (get d "serverName") in
        match JsMap.get clients clientName with
        | Some cl => Ok cl
        | None =>
            match js_string_opt clientName with
            | Some cn => Err ("MCP server '" ++ cn ++ "' not connected")
            | None => Err Session.to_primitive_error
            end
        end
      else Err ("MCP " ++ cat_word c ++ " '" ++ key ++ "' not found")
  | None => Err ("MCP " ++ cat_word c ++ " '" ++ key ++ "' not found")
  end.

(** One round of initializeMcp's loop whose [connect()] succeeded, for a
    server config named [name] with [serverUrl = url]: the client is kept
    under [name || serverUrl], then its tools are refreshed under
    [serverName = name]. *)
Definition init_server {C : Type} (clients : JsMap.t (option json) C) (tools : cache)
    (name : string) (url : option json) (cl : C) (o : outcome)
    : JsMap.t (option json) C * cache :=
  (JsMap.set clients (js_or (Some (JStr name)) url) cl, refresh Tools name o tools).

End AIClientModel.


(* ===================================================================== *)
(** * Lemmas on the caches                                               *)
(* ===================================================================== *)

Module RegistryFacts.
Import Registry.

Lemma fill_cons (kf : string) (d : json) (xs : list json) (m : cache) :
  d <> JNull -> fill kf (d :: xs) m = fill kf xs (JsMap.set m (get d kf) d).
Proof. destruct d; done. Qed.

Lemma fill_spec (kf : string) (xs : list json) (m m' : cache) :
  fill kf xs m = (m', true) ->
  (forall k d, JsMap.get m' k = Some d ->
     JsMap.get m k = Some d \/ (In d xs /\ get d kf = k)) /\
  (forall k, (exists d, In d xs /\ get d kf = k) \/ is_Some (JsMap.get m k) ->
     is_Some (JsMap.get m' k)).
Proof.
  revert m. induction xs as [| d xs IH]; intros m Hf.
  - simpl in Hf. injection Hf as <-. split; [by left |].
    intros k [[d [[] _]] | H]; done.
  - destruct (decide (d = JNull)) as [-> | Hd]; [discriminate |].
    rewrite fill_cons in Hf by done.
    destruct (IH _ Hf) as [H1 H2]. split.
    + intros k d' Hk. destruct (H1 k d' Hk) as [Hs | [Hin Hkey]].
      * rewrite JsMap.get_set in Hs.
        destruct (decide (k = get d kf)) as [-> |].
        -- injection Hs as <-. right. split; [left |]; done.
        -- by left.
      * right. split; [right |]; done.
    + intros k Hk. apply H2. destruct Hk as [[d' [[<- | Hin] Hkey]] | Hs].
      * right. rewrite JsMap.get_set, decide_True by done. done.
      * left. by exists d'.
      * right. rewrite JsMap.get_set. by case_decide.
Qed.

Lemma refresh_loop_frame (kf sn : string) (xs : list json) (m : cache) (k : option json) :
  JsMap.get (refresh_loop kf sn xs m) k = JsMap.get m k \/
  exists d, In d xs /\ get d kf = k /\
            JsMap.get (refresh_loop kf sn xs m) k = Some (with_server sn d).
Proof.
  revert m. induction xs as [| d xs IH]; intros m; [by left |].
  destruct (decide (d = JNull)) as [-> | Hd]; [by left |].
  assert (Hc : refresh_loop kf sn (d :: xs) m
               = refresh_loop kf sn xs (JsMap.set m (get d kf) (with_server sn d)))
    by (destruct d; done).
  rewrite Hc. destruct (IH (JsMap.set m (get d kf) (with_server sn d)))
    as [He | [d' [Hin [Hkey Hv]]]].
  - rewrite He, JsMap.get_set. case_decide as Hk.
    + right. exists d. subst. split; [left |]; done.
    + by left.
  - right. exists d'. split; [right |]; done.
Qed.

End RegistryFacts.

(* ===================================================================== *)
(** * Claims about the caches                                           *)
(* ===================================================================== *)

Module RegistryClaims.
Import Registry RegistryFacts RegistryScenarios.

(** C2: after a successful [listTools] / [listResources] / [listPrompts]
    the per-category cache holds exactly the listed descriptors, keyed by
    name (uri): every cached entry is a listed descriptor under its own key,
    every listed key is cached, and nothing of the previous cache survives. *)
Theorem list_replaces_cache (c : category) (o : outcome) (m m' : cache) (v : json)
  (H : list_complete c o m = (m', Resolved v)) :
  exists xs, js_iter v = Some xs /\
    forall k,
      (forall d, JsMap.get m' k = Some d -> In d xs /\ get d (cat_key c) = k) /\
      ((exists d, In d xs /\ get d (cat_key c) = k) -> is_Some (JsMap.get m' k)).
Proof.
  destruct o as [response | msg]; simpl in H; [| discriminate].
  set (items := match get response (cat_field c) with
                | Some v => if truthy v then v else JArr []
                | None => JArr [] end) in H.
  destruct (js_iter items) as [xs |] eqn:Ei; [| discriminate].
  destruct (fill (cat_key c) xs (JsMap.clear m)) as [m1 [|]] eqn:Ef; [| discriminate].
  injection H as <- <-. exists xs. split; [done |].
  destruct (fill_spec _ _ _ _ Ef) as [H1 H2]. intros k. split.
  - intros d Hd. destruct (H1 k d Hd) as [Hc | Hl]; [discriminate | done].
  - intros Hex. apply H2. by left.
Qed.

Example list_scenario_bc :
  list_complete Tools (Resolved scenario_bc_response) scenario_ab
  = (scenario_bc, Resolved (JArr [JObj [("name", JStr "b")]; JObj [("name", JStr "c")]])).
Proof. reflexivity. Qed.

Lemma list_replaces_cache_witness :
  list_complete Tools (Resolved scenario_bc_response) scenario_ab
    = (scenario_bc, Resolved (JArr [JObj [("name", JStr "b")]; JObj [("name", JStr "c")]])) /\
  exists xs, js_iter (JArr [JObj [("name", JStr "b")]; JObj [("name", JStr "c")]]) = Some xs /\
    forall k,
      (forall d, JsMap.get scenario_bc k = Some d -> In d xs /\ get d (cat_key Tools) = k) /\
      ((exists d, In d xs /\ get d (cat_key Tools) = k) -> is_Some (JsMap.get scenario_bc k)).
Proof.
  split; [reflexivity |].
  apply (list_replaces_cache Tools (Resolved scenario_bc_response) scenario_ab).
  reflexivity.
Defined.

(** C10: a facade refresh ([_refreshMcpTools], [_refreshMcpResources],
    [_refreshMcpPrompts]) only sets keys of listed descriptors: an entry
    whose key is absent from the new list keeps its value, and no entry is
    ever removed. *)
Theorem facade_refresh_keeps_stale (c : category) (sn : string) (o : outcome)
    (m : cache) (k : option json) :
  ((forall d, In d (listed o) -> get d (cat_key c) <> k) ->
     JsMap.get (refresh c sn o m) k = JsMap.get m k) /\
  (is_Some (JsMap.get m k) -> is_Some (JsMap.get (refresh c sn o m) k)).
Proof.
  unfold refresh.
  destruct (refresh_loop_frame (cat_key c) sn (listed o) m k) as [He | [d [Hin [Hkey Hv]]]].
  - split; [done | by rewrite He].
  - split.
    + intros Hn. exfalso. exact (Hn d Hin Hkey).
    + intros _. rewrite Hv. by eexists.
Qed.

Example facade_refresh_scenario :
  refresh Tools "srv" (Resolved (JArr [JObj [("name", JStr "b")]; JObj [("name", JStr "c")]]))
    [(Some (JStr "a"), JObj [("name", JStr "a"); ("serverName", JStr "srv")])]
  = [(Some (JStr "a"), JObj [("name", JStr "a"); ("serverName", JStr "srv")]);
     (Some (JStr "b"), JObj [("name", JStr "b"); ("serverName", JStr "srv")]);
     (Some (JStr "c"), JObj [("name", JStr "c"); ("serverName", JStr "srv")])].
Proof. reflexivity. Qed.

End RegistryClaims.


(* ===================================================================== *)
(** * The line splitting of the decoders                                 *)
(* ===================================================================== *)

Module DecoderFacts.
Import Decoder.

Lemma string_app_cons c (a b : string) : (String c a ++ b)%string = String c (a ++ b)%string.
Proof. reflexivity. Qed.

Lemma string_app_assoc (a b c : string) : (a ++ (b ++ c))%string = ((a ++ b) ++ c)%string.
Proof. induction a as [|x a IH]; [reflexivity | exact (f_equal (String x) IH)]. Qed.

Lemma string_app_nil_r (a : string) : (a ++ EmptyString)%string = a.
Proof. induction a as [|x a IH]; [reflexivity | exact (f_equal (String x) IH)]. Qed.

Lemma last_cons_ne {A} (x : A) (l : list A) d : l <> [] -> List.last (x :: l) d = List.last l d.
Proof. destruct l; [done | reflexivity]. Qed.

Lemma last_app_ne {A} (l1 l2 : list A) d : l2 <> [] -> List.last (l1 ++ l2) d = List.last l2 d.
Proof.
  intros Hne. destruct (exists_last Hne) as (l' & a & ->).
  rewrite app_assoc, !List.last_last. reflexivity.
Qed.

Lemma split_acc_nonempty cur s : split_acc cur s <> [].
Proof.
  revert cur; induction s as [|c r IH]; intros cur; simpl; [discriminate|].
  destruct (Ascii.eqb c "010"%char); [discriminate | apply IH].
Qed.

(** Splitting a concatenation: the last piece of the first part is where
    the second part goes on. *)
Lemma split_acc_app cur a b :
  split_acc cur (a ++ b) =
  List.removelast (split_acc cur a) ++ split_acc (List.last (split_acc cur a) EmptyString) b.
Proof.
  revert cur; induction a as [|c r IH]; intros cur; [reflexivity|].
  rewrite string_app_cons; simpl.
  destruct (Ascii.eqb c "010"%char); [|apply IH].
  rewrite IH. pose proof (split_acc_nonempty EmptyString r) as Hne.
  destruct (split_acc EmptyString r) as [|y ys]; [done | reflexivity].
Qed.

Lemma split_acc_free cur s : nl_free s = true -> split_acc cur s = [(cur ++ s)%string].
Proof.
  revert cur; induction s as [|c r IH]; intros cur Hf; simpl.
  - by rewrite string_app_nil_r.
  - unfold nl_free in Hf; simpl in Hf.
    destruct (Ascii.eqb c "010"%char); [discriminate|].
    rewrite IH by exact Hf. rewrite <- string_app_assoc. reflexivity.
Qed.

Lemma nl_free_app a b : nl_free (a ++ b) = nl_free a && nl_free b.
Proof.
  unfold nl_free. induction a as [|c r IH]; [reflexivity|].
  rewrite string_app_cons; simpl.
  destruct (Ascii.eqb c "010"%char); simpl; [done | exact IH].
Qed.

Lemma last_split_free cur s :
  nl_free cur = true -> nl_free (List.last (split_acc cur s) EmptyString) = true.
Proof.
  revert cur; induction s as [|c r IH]; intros cur Hc; simpl; [done|].
  destruct (Ascii.eqb c "010"%char) eqn:E.
  - rewrite last_cons_ne by apply split_acc_nonempty. apply IH. reflexivity.
  - apply IH. rewrite nl_free_app, Hc. unfold nl_free; simpl. rewrite E. reflexivity.
Qed.

Lemma feed_free b c : nl_free b = true ->
  feed b c = (List.removelast (split_acc b c), List.last (split_acc b c) EmptyString).
Proof.
  intros Hb. unfold feed, split_nl. rewrite split_acc_app, (split_acc_free _ _ Hb). reflexivity.
Qed.

(** The lines the data handlers see over a whole stream are the complete
    lines of the concatenated input, and the buffer its last piece. *)
Lemma feed_all_spec b chunks : nl_free b = true ->
  feed_all b chunks =
  (List.removelast (split_acc b (join chunks)), List.last (split_acc b (join chunks)) EmptyString).
Proof.
  revert b; induction chunks as [|c cs IH]; intros b Hb; [reflexivity|].
  cbn [feed_all join]. rewrite (feed_free b c Hb). cbv beta iota.
  rewrite (IH _ (last_split_free b c Hb)), split_acc_app.
  rewrite List.removelast_app, last_app_ne by apply split_acc_nonempty. reflexivity.
Qed.

Lemma stdio_run_feed parse b chunks :
  stdio_run parse b chunks =
  ((feed_all b chunks).2, flat_map (stdio_line parse) (feed_all b chunks).1).
Proof.
  revert b; induction chunks as [|c cs IH]; intros b; [reflexivity|].
  cbn [stdio_run feed_all]. unfold stdio_data.
  destruct (feed b c) as [ls b1]. cbv beta iota.
  rewrite IH. destruct (feed_all b1 cs) as [ls2 b2]. cbn [fst snd].
  by rewrite flat_map_app.
Qed.

Lemma stream_lines_flat parse fmt ls :
  Forall (no_terminal parse fmt) ls ->
  stream_lines parse fmt ls = flat_map (stream_line parse fmt) ls.
Proof.
  induction 1 as [|l ls Hl _ IH]; [reflexivity|].
  cbn [stream_lines flat_map]. unfold stream_line.
  destruct (blank l); [exact IH|].
  destruct (parse_stream_chunk parse fmt l) as [pc|] eqn:E; [|exact IH].
  destruct (truthy pc) eqn:T; [|exact IH].
  rewrite (Hl pc E T). simpl. by rewrite IH.
Qed.

Lemma stream_run_feed parse fmt b chunks :
  Forall (no_terminal parse fmt) (feed_all b chunks).1 ->
  stream_run parse fmt b chunks =
  ((feed_all b chunks).2, flat_map (stream_line parse fmt) (feed_all b chunks).1).
Proof.
  revert b; induction chunks as [|c cs IH]; intros b; [reflexivity|].
  cbn [stream_run feed_all]. unfold stream_data.
  destruct (feed b c) as [ls b1]. cbv beta iota.
  specialize (IH b1). revert IH. destruct (feed_all b1 cs) as [ls2 b2]. cbn [fst snd].
  intros IH Hf. apply Forall_app in Hf as [Hf1 Hf2].
  rewrite (IH Hf2), flat_map_app, (stream_lines_flat _ _ _ Hf1). reflexivity.
Qed.

Lemma stream_run_buffer parse fmt b chunks :
  (stream_run parse fmt b chunks).1 = (feed_all b chunks).2.
Proof.
  revert b; induction chunks as [|c cs IH]; intros b; [reflexivity|].
  cbn [stream_run feed_all]. unfold stream_data.
  destruct (feed b c) as [ls b1]. cbv beta iota.
  specialize (IH b1). revert IH. destruct (stream_run parse fmt b1 cs) as [b2 o2].
  destruct (feed_all b1 cs) as [ls2 b3]. cbn [fst snd]. done.
Qed.

Lemma stream_lines_terminal parse fmt pre l post pc :
  Forall (no_terminal parse fmt) pre -> blank l = false ->
  parse_stream_chunk parse fmt l = Some pc -> truthy pc = true -> terminal fmt pc = true ->
  stream_lines parse fmt (pre ++ l :: post) = flat_map (stream_line parse fmt) pre ++ [pc].
Proof.
  intros Hpre Hb Hp Ht Htm. induction Hpre as [|l0 pre Hl0 _ IH].
  - cbn [app stream_lines flat_map]. rewrite Hb, Hp, Ht, Htm. reflexivity.
  - cbn [app stream_lines flat_map]. unfold stream_line.
    destruct (blank l0); [exact IH|].
    destruct (parse_stream_chunk parse fmt l0) as [pc0|] eqn:E; [|exact IH].
    destruct (truthy pc0) eqn:T; [|exact IH].
    rewrite (Hl0 pc0 E T). simpl. by rewrite IH.
Qed.

End DecoderFacts.

(* ===================================================================== *)
(** * Session invariants                                                 *)
(* ===================================================================== *)

Module SessionFacts.
Import Session.
Local Open Scope Z_scope.

(** The bookkeeping every reachable session satisfies: ids are positive and
    at most the last one handed out, every pending entry owns a live
    timeout timer for its id, timer ids are below the next one. *)
Definition inv (s : session) : Prop :=
  0 <= requestId s /\
  (forall k t, pendingRequests s !! k = Some t ->
     0 < k <= requestId s /\ exists dl, timers s !! t = Some (dl, TTimeout k)) /\
  (forall t x, timers s !! t = Some x -> (t < next_timer s)%nat) /\
  (forall t dl k, timers s !! t = Some (dl, TTimeout k) -> 0 < k <= requestId s).

(** A session some client reaches: any configuration (including one whose
    transport cannot be created), any run of inputs. *)
Definition reachable (s : session) : Prop :=
  exists t e to d mx is, s = fst (run (create_with t e to d mx) is).

(** Fields that request bookkeeping never touches. *)
Definition same_ctl (s s' : session) : Prop :=
  transport s' = transport s /\ timeout s' = timeout s /\
  reconnectDelay s' = reconnectDelay s /\
  maxReconnectAttempts s' = maxReconnectAttempts s /\
  connection s' = connection s /\ isConnected s' = isConnected s /\
  reconnectAttempts s' = reconnectAttempts s /\
  shouldReconnect s' = shouldReconnect s /\ next_conn s' = next_conn s /\
  connecting s' = connecting s /\ now s' = now s /\
  readyState s' = readyState s /\ transport_error s' = transport_error s.

Lemma same_ctl_refl (s : session) : same_ctl s s.
Proof. repeat split. Qed.

Lemma same_ctl_trans (s1 s2 s3 : session) :
  same_ctl s1 s2 -> same_ctl s2 s3 -> same_ctl s1 s3.
Proof. unfold same_ctl. intros; intuition congruence. Qed.

Lemma inv_ext (s s' : session) :
  requestId s' = requestId s -> pendingRequests s' = pendingRequests s ->
  timers s' = timers s -> next_timer s' = next_timer s -> inv s -> inv s'.
Proof. unfold inv. intros -> -> -> ->. done. Qed.

Lemma set_timeout_spec (s : session) (d : Z) (cb : timer_cb) (s' : session) (t : nat) :
  set_timeout s d cb = (s', t) ->
  t = next_timer s /\ timers s' = <[t := (now s + eff_delay d, cb)]> (timers s) /\
  next_timer s' = S t /\ requestId s' = requestId s /\
  pendingRequests s' = pendingRequests s /\ same_ctl s s'.
Proof. destruct s; intros H; injection H as <- <-; repeat split. Qed.

Lemma register_request_spec (s s' : session) (id : Z) (t : nat) :
  register_request s = (s', id, t) ->
  id = requestId s + 1 /\ t = next_timer s /\ requestId s' = id /\
  pendingRequests s' = <[id := t]> (pendingRequests s) /\
  timers s' = <[t := (now s + eff_delay (timeout s), TTimeout id)]> (timers s) /\
  next_timer s' = S t /\ same_ctl s s'.
Proof. destruct s; intros H; injection H as <- <- <-; repeat split. Qed.

Lemma inv_set_timeout_reconnect (s s' : session) (d : Z) (t : nat) :
  inv s -> set_timeout s d TReconnect = (s', t) -> inv s'.
Proof.
  intros (H0 & H1 & H2 & H3) Hs.
  destruct (set_timeout_spec _ _ _ _ _ Hs) as (-> & Ht & Hn & Hr & Hp & _).
  unfold inv. rewrite Ht, Hn, Hr, Hp. split; [done |]. split; [| split].
  - intros k t' Hk. destruct (H1 k t' Hk) as [Hb [dl Hdl]]. split; [done |].
    exists dl. rewrite lookup_insert_ne; [done |].
    intros Heq. subst t'. specialize (H2 _ _ Hdl). lia.
  - intros t' x Hx. rewrite lookup_insert in Hx. case_decide; [subst; lia |].
    specialize (H2 _ _ Hx). lia.
  - intros t' dl k Hx. rewrite lookup_insert in Hx. case_decide; [congruence |].
    eauto.
Qed.

Lemma inv_register (s s' : session) (id : Z) (t : nat) :
  inv s -> register_request s = (s', id, t) -> inv s'.
Proof.
  intros (H0 & H1 & H2 & H3) Hr.
  destruct (register_request_spec _ _ _ _ Hr) as (-> & -> & Hid & Hp & Ht & Hn & _).
  unfold inv. rewrite Hid, Hp, Ht, Hn. split; [lia |]. split; [| split].
  - intros k t' Hk. rewrite lookup_insert in Hk. case_decide as Hkid.
    + injection Hk as <-. subst. split; [lia |]. eexists. apply lookup_insert_eq.
    + destruct (H1 k t' Hk) as [Hb [dl Hdl]]. split; [lia |].
      exists dl. rewrite lookup_insert_ne; [done |].
      intros Heq. subst t'. specialize (H2 _ _ Hdl). lia.
  - intros t' x Hx. rewrite lookup_insert in Hx. case_decide; [subst; lia |].
    specialize (H2 _ _ Hx). lia.
  - intros t' dl k Hx. rewrite lookup_insert in Hx. case_decide.
    + injection Hx as _ <-. lia.
    + specialize (H3 _ _ _ Hx). lia.
Qed.

Ltac inv_frame s := apply (inv_ext s); [reflexivity | reflexivity | reflexivity | reflexivity | assumption].

Lemma send_request_cases (s : session) (m : string) (p : json) :
  (isConnected s = false /\ send_request s m p = (s, [OThrow "Not connected to MCP server"], None)) \/
  (isConnected s = true /\ exists s' id t, register_request s = (s', id, t) /\
     send_request s m p =
       (s', match send_message s' with
            | Sent => [OSend (request_msg id m p)]
            | NotSent => []
            | Threw e => [OSettle id (Rejected e)]
            end, Some id)).
Proof.
  unfold send_request. destruct (isConnected s) eqn:Hc; [right | left; done].
  destruct (register_request s) as [[s2 id] t] eqn:E. split; [done |].
  exists s2, id, t. split; [done |]. destruct (send_message s2); done.
Qed.

Lemma inv_send_request (s : session) (m : string) (p : json) :
  inv s -> inv (send_request s m p).1.1.
Proof.
  intros Hi. destruct (send_request_cases s m p) as [[_ ->] | [_ (s' & id & t & Hr & ->)]];
    [done | exact (inv_register _ _ _ _ Hi Hr)].
Qed.

Lemma inv_handle_reconnect (s : session) : inv s -> inv (handle_reconnect s).1.
Proof.
  intros Hi. unfold handle_reconnect.
  destruct (negb (shouldReconnect s) || (maxReconnectAttempts s <=? reconnectAttempts s)); [done |].
  destruct (set_timeout _ _ TReconnect) as [s2 t] eqn:E. simpl.
  eapply inv_set_timeout_reconnect; [| exact E]. inv_frame s.
Qed.

Lemma inv_connect (s : session) (o : origin) : inv s -> inv (connect s o).1.
Proof.
  intros Hi. unfold connect.
  destruct (known_transport _); [destruct (transport_error s); [done | inv_frame s] | done].
Qed.

Lemma inv_disconnect (s : session) : inv s -> inv (disconnect s).1.
Proof.
  intros (H0 & H1 & H2 & H3). unfold disconnect.
  destruct (connection _); simpl; unfold inv; simpl;
    (split; [done | split; [intros k t Hk; by rewrite lookup_empty in Hk | done]]).
Qed.

Lemma inv_on_open (s : session) : inv s -> inv (on_open s).1.
Proof.
  intros Hi. unfold on_open. destruct (connecting s); [| done].
  set (s1 := set_reconnectAttempts _ _).
  assert (H1 : inv s1) by inv_frame s.
  pose proof (inv_send_request s1 "initialize" init_params H1) as H.
  destruct (send_request s1 "initialize" init_params) as [[s2 outs] o0]. exact H.
Qed.

Lemma inv_on_error (s : session) (msg : string) : inv s -> inv (on_error s msg).1.
Proof.
  intros Hi. unfold on_error. destruct (String.eqb _ _).
  - pose proof (inv_handle_reconnect s Hi) as H.
    destruct (handle_reconnect s). exact H.
  - destruct (connecting s); [inv_frame s | done].
Qed.

Lemma inv_on_close (s : session) (code : option Z) : inv s -> inv (on_close s code).1.
Proof.
  intros Hi. unfold on_close. destruct (String.eqb _ _); [done |].
  assert (H1 : inv (set_isConnected s false)) by inv_frame s.
  pose proof (inv_handle_reconnect _ H1) as H.
  destruct (handle_reconnect (set_isConnected s false)). exact H.
Qed.

Lemma inv_background_list (s : session) (m : string) : inv s -> inv (background_list s m).1.
Proof.
  intros Hi. unfold background_list. pose proof (inv_send_request s m jempty Hi) as H.
  destruct (send_request s m jempty) as [[s' outs] [id |]]; exact H.
Qed.

Lemma inv_handle_notification (s : session) (n : json) :
  inv s -> inv (handle_notification s n).1.
Proof.
  intros Hi. unfold handle_notification.
  destruct (get n "method") as [[| | | m | |] |]; try done.
  repeat match goal with
  | |- context [if String.eqb ?a ?b then _ else _] => destruct (String.eqb a b)
  end; try done;
  match goal with
  | |- context [background_list s ?m] =>
      pose proof (inv_background_list s m Hi) as H; destruct (background_list s m); exact H
  end.
Qed.

(** Removing a pending entry together with its timer. *)
Lemma inv_settle (s : session) (n : Z) (t : nat) :
  inv s -> pendingRequests s !! n = Some t ->
  inv (clear_timeout (set_pendingRequests s (delete n (pendingRequests s))) t).
Proof.
  intros (H0 & H1 & H2 & H3) Hn. destruct (H1 n t Hn) as [_ [dln Hdln]].
  unfold inv; simpl. split; [done |]. split; [| split].
  - intros k t' Hk. rewrite lookup_delete in Hk. case_decide as Hkn; [done |].
    destruct (H1 k t' Hk) as [Hb [dl Hdl]]. split; [done |]. exists dl.
    rewrite lookup_delete_ne; [done |]. intros Heq. subst t'. congruence.
  - intros t' x Hx. rewrite lookup_delete in Hx. case_decide; [done |]. eauto.
  - intros t' dl k Hx. rewrite lookup_delete in Hx. case_decide; [done |]. eauto.
Qed.

Lemma inv_handle_message (s : session) (msg : json) :
  inv s -> inv (handle_message s msg).1.1.
Proof.
  intros Hi. unfold handle_message.
  pose proof (inv_handle_notification s msg Hi) as H.
  destruct msg; try done;
  (destruct (truthy_opt _);
   [ destruct (pending_hit _ _) as [[n t] |] eqn:Hh;
     [ assert (Hs : inv (clear_timeout (set_pendingRequests s (delete n (pendingRequests s))) t))
         by (apply inv_settle; [done |]; unfold pending_hit in Hh; repeat case_match; congruence);
       destruct (response_outcome _); exact Hs
     | done ]
   | destruct (handle_notification _ _); exact H ]).
Qed.

Lemma inv_fire (s : session) (t : nat) : inv s -> inv (fire s t).1.
Proof.
  intros Hi. unfold fire. destruct (timers s !! t) as [[dl cb] |] eqn:Ht; [| done].
  destruct (dl <=? now s); [| done].
  destruct Hi as (H0 & H1 & H2 & H3). destruct cb as [id |]; simpl.
  - unfold inv; simpl. split; [done |]. split; [| split].
    + intros k t' Hk. rewrite lookup_delete in Hk. case_decide as Hkid; [done |].
      destruct (H1 k t' Hk) as [Hb [dl' Hdl]]. split; [done |]. exists dl'.
      rewrite lookup_delete_ne; [done |]. intros Heq. subst t'. congruence.
    + intros t' x Hx. rewrite lookup_delete in Hx. case_decide; [done |]. eauto.
    + intros t' dl' k Hx. rewrite lookup_delete in Hx. case_decide; [done |]. eauto.
  - apply inv_connect. unfold inv; simpl. split; [done |]. split; [| split].
    + intros k t' Hk. destruct (H1 k t' Hk) as [Hb [dl' Hdl]]. split; [done |].
      exists dl'. rewrite lookup_delete_ne; [done |]. intros Heq. subst t'. congruence.
    + intros t' x Hx. rewrite lookup_delete in Hx. case_decide; [done |]. eauto.
    + intros t' dl' k Hx. rewrite lookup_delete in Hx. case_decide; [done |]. eauto.
Qed.

Lemma inv_step (s : session) (i : input) : inv s -> inv (step s i).1.
Proof.
  intros Hi. destruct i as [| | m p | m p | | msg | code | msg | d | t]; simpl.
  - by apply inv_connect.
  - by apply inv_disconnect.
  - pose proof (inv_send_request s m p Hi) as H.
    destruct (send_request s m p) as [[s' outs] o]. exact H.
  - unfold send_notification. destruct (isConnected s); [destruct (send_message s) |]; done.
  - by apply inv_on_open.
  - by apply inv_on_error.
  - by apply inv_on_close.
  - pose proof (inv_handle_message s msg Hi) as H.
    destruct (handle_message s msg) as [[s1 outs] err]. exact H.
  - destruct (0 <=? d); [inv_frame s | done].
  - by apply inv_fire.
Qed.

Lemma run_cons (s : session) (i : input) (is : list input) :
  run s (i :: is) = ((run (step s i).1 is).1, (step s i).2 ++ (run (step s i).1 is).2).
Proof. simpl. destruct (step s i) as [s1 o1]. simpl. destruct (run s1 is). done. Qed.

Lemma inv_run (s : session) (is : list input) : inv s -> inv (run s is).1.
Proof.
  revert s. induction is as [| i is IH]; intros s Hi; [done |].
  rewrite run_cons. apply IH. by apply inv_step.
Qed.

Lemma inv_create t e to d mx : inv (create_with t e to d mx).
Proof.
  unfold inv; simpl. split; [lia |]. split; [| split].
  - intros k t' Hk. by rewrite lookup_empty in Hk.
  - intros t' x Hx. by rewrite lookup_empty in Hx.
  - intros t' dl k Hx. by rewrite lookup_empty in Hx.
Qed.

Lemma reachable_inv (s : session) : reachable s -> inv s.
Proof. intros (t & e & to & d & mx & is & ->). apply inv_run, inv_create. Qed.

End SessionFacts.

Module SessionRouting.
Import Session SessionFacts.
Local Open Scope Z_scope.

Lemma send_request_frame (s : session) (m : string) (p : json) :
  inv s ->
  forall k t, pendingRequests s !! k = Some t ->
    pendingRequests (send_request s m p).1.1 !! k = Some t /\
    timers (send_request s m p).1.1 !! t = timers s !! t /\
    forall o, ~ In (OSettle k o) (send_request s m p).1.2.
Proof.
  intros Hi k t Hk. pose proof Hi as (H0 & H1 & H2 & H3).
  destruct (H1 k t Hk) as [Hb [dl Hdl]].
  destruct (send_request_cases s m p) as [[_ ->] | [_ (s' & id & t' & Hr & ->)]].
  - simpl. split; [done | split; [done |]]. intros o [H | []]. discriminate.
  - destruct (register_request_spec _ _ _ _ Hr) as (-> & -> & _ & Hp & Ht & _).
    simpl. rewrite Hp, Ht. split; [| split].
    + rewrite lookup_insert_ne; [done | lia].
    + rewrite lookup_insert_ne; [done |]. intros Heq. specialize (H2 _ _ Hdl). lia.
    + intros o Hin. destruct (send_message s'); simpl in Hin;
        [destruct Hin as [Hin | []]; discriminate | done |].
      destruct Hin as [Hin | []]. injection Hin as Heq _. lia.
Qed.

Lemma handle_notification_frame (s : session) (n : json) :
  inv s ->
  forall k t, pendingRequests s !! k = Some t ->
    pendingRequests (handle_notification s n).1 !! k = Some t /\
    timers (handle_notification s n).1 !! t = timers s !! t /\
    forall o, ~ In (OSettle k o) (handle_notification s n).2.
Proof.
  intros Hi k t Hk.
  assert (Hb : forall m, pendingRequests (background_list s m).1 !! k = Some t /\
                         timers (background_list s m).1 !! t = timers s !! t /\
                         forall o, ~ In (OSettle k o) (background_list s m).2).
  { intros m. unfold background_list.
    destruct (send_request_frame s m jempty Hi k t Hk) as (Hp & Ht & Ho).
    destruct (send_request s m jempty) as [[s' outs] [id |]]; simpl in *.
    - done.
    - split; [done | split; [done | intros o []]]. }
  unfold handle_notification.
  destruct (get n "method") as [[| | | m | |] |];
    try (simpl; split; [done | split; [done |]]; intros o [H | []]; discriminate).
  repeat match goal with
  | |- context [if String.eqb ?a ?b then _ else _] => destruct (String.eqb a b)
  end;
  try (simpl; split; [done | split; [done |]]; intros o [H | []]; discriminate);
  match goal with
  | |- context [background_list s ?m] =>
      destruct (Hb m) as (Hp & Ht & Ho); destruct (background_list s m) as [s1 outs];
      simpl in *; split; [done | split; [done |]];
      intros o [H | H]; [discriminate | exact (Ho o H)]
  end.
Qed.

Lemma handle_message_nonnull (s : session) (msg : json) :
  msg <> JNull ->
  handle_message s msg =
    if truthy_opt (get msg "id") then
      match pending_hit s (get msg "id") with
      | Some (n, t) =>
          let s1 := clear_timeout (set_pendingRequests s (delete n (pendingRequests s))) t in
          match response_outcome msg with
          | Some o => (s1, [OSettle n o], None)
          | None => (s1, [], Some to_primitive_error)
          end
      | None => (s, [], None)
      end
    else let '(s1, outs) := handle_notification s msg in (s1, outs, None).
Proof. intros H. unfold handle_message. destruct msg; done. Qed.

End SessionRouting.

Module SessionControl.
Import Session SessionFacts.
Local Open Scope Z_scope.

Lemma same_ctl_send_request (s : session) (m : string) (p : json) :
  same_ctl s (send_request s m p).1.1.
Proof.
  destruct (send_request_cases s m p) as [[_ ->] | [_ (s' & id & t & Hr & ->)]].
  - apply same_ctl_refl.
  - by destruct (register_request_spec _ _ _ _ Hr) as (_ & _ & _ & _ & _ & _ & H).
Qed.

Lemma same_ctl_handle_notification (s : session) (n : json) :
  same_ctl s (handle_notification s n).1.
Proof.
  assert (Hb : forall m, same_ctl s (background_list s m).1).
  { intros m. unfold background_list. pose proof (same_ctl_send_request s m jempty) as H.
    destruct (send_request s m jempty) as [[s' outs] [id |]]; exact H. }
  unfold handle_notification.
  destruct (get n "method") as [[| | | m | |] |]; try apply same_ctl_refl.
  repeat match goal with
  | |- context [if String.eqb ?a ?b then _ else _] => destruct (String.eqb a b)
  end; try apply same_ctl_refl;
  match goal with
  | |- context [background_list s ?m] =>
      pose proof (Hb m) as H; destruct (background_list s m); exact H
  end.
Qed.

Lemma same_ctl_handle_message (s : session) (msg : json) :
  same_ctl s (handle_message s msg).1.1.
Proof.
  unfold handle_message. pose proof (same_ctl_handle_notification s msg) as H.
  destruct msg; try apply same_ctl_refl;
  (destruct (truthy_opt _);
   [ destruct (pending_hit _ _) as [[n t] |];
     [destruct (response_outcome _); destruct s; repeat split | apply same_ctl_refl]
   | destruct (handle_notification _ _); exact H ]).
Qed.

Lemma handle_reconnect_spec (s : session) :
  (handle_reconnect s = (s, []) /\
     (shouldReconnect s = false \/ maxReconnectAttempts s <= reconnectAttempts s)) \/
  (shouldReconnect s = true /\ reconnectAttempts s < maxReconnectAttempts s /\
   exists s' t, set_timeout (set_reconnectAttempts s (reconnectAttempts s + 1))
                  (reconnectDelay s) TReconnect = (s', t) /\
   handle_reconnect s = (s', [OEmit (EvReconnecting (reconnectAttempts s + 1))])).
Proof.
  unfold handle_reconnect.
  destruct (shouldReconnect s) eqn:Hs; simpl; [| left; split; [done | by left]].
  destruct (maxReconnectAttempts s <=? reconnectAttempts s) eqn:Hm.
  - left. split; [done | right; by apply Z.leb_le].
  - right. apply Z.leb_gt in Hm. split; [done | split; [done |]].
    set (st := set_timeout (set_reconnectAttempts s (reconnectAttempts s + 1))
                 (reconnectDelay s) TReconnect).
    exists st.1, st.2. split; [by destruct st | reflexivity].
Qed.

End SessionControl.

Module RequestTimeout.
Import Session SessionFacts SessionRouting SessionControl.
Local Open Scope Z_scope.

(** An input that neither answers request [id] nor calls [disconnect()]. *)
Definition quiet_input (id : Z) (i : input) : Prop :=
  match i with
  | IDisconnect => False
  | IMessage msg => get msg "id" <> Some (JNum id)
  | _ => True
  end.

Section Track.
Variable id : Z.
Variable t : nat.
Variable dl : Z.

(** Request [id] is pending with its timeout timer [t], due at [dl]. *)
Definition armed (s : session) : Prop :=
  pendingRequests s !! id = Some t /\ timers s !! t = Some (dl, TTimeout id).

(** Request [id] and its timer are gone. *)
Definition spent (s : session) : Prop :=
  pendingRequests s !! id = None /\ timers s !! t = None.

(** [id] and [t] were handed out already. *)
Definition fresh (s : session) : Prop :=
  id <= requestId s /\ (t < next_timer s)%nat.

Definition tracked (s : session) : Prop :=
  inv s /\ 0 < id <= requestId s /\ (t < next_timer s)%nat /\
  (forall t' dl', timers s !! t' = Some (dl', TTimeout id) -> t' = t) /\
  (armed s \/ spent s).

(** A transition that leaves request [id] and timer [t] alone. *)
Definition frame (s s' : session) : Prop :=
  requestId s <= requestId s' /\ (next_timer s <= next_timer s')%nat /\
  now s <= now s' /\
  pendingRequests s' !! id = pendingRequests s !! id /\
  timers s' !! t = timers s !! t /\
  (forall t' dl', timers s' !! t' = Some (dl', TTimeout id) ->
                  timers s !! t' = Some (dl', TTimeout id)).

Definition no_settle (outs : list output) : Prop :=
  forall o, ~ In (OSettle id o) outs.

Lemma frame_refl (s : session) : frame s s.
Proof.
  unfold frame. split; [lia |]. split; [lia |]. split; [lia |].
  split; [done |]. split; [done |]. auto.
Qed.

Lemma frame_trans (s1 s2 s3 : session) : frame s1 s2 -> frame s2 s3 -> frame s1 s3.
Proof.
  intros (A1 & B1 & N1 & C1 & D1 & E1) (A2 & B2 & N2 & C2 & D2 & E2).
  unfold frame. split; [lia |]. split; [lia |]. split; [lia |].
  split; [congruence |]. split; [congruence |]. eauto.
Qed.

Lemma frame_ext (s s' : session) :
  requestId s' = requestId s -> pendingRequests s' = pendingRequests s ->
  timers s' = timers s -> next_timer s' = next_timer s -> now s' = now s -> frame s s'.
Proof.
  intros H1 H2 H3 H4 H5. unfold frame. rewrite H1, H2, H3, H4, H5.
  exact (frame_refl s).
Qed.

Lemma tracked_frame (s s' : session) :
  tracked s -> frame s s' -> inv s' ->
  tracked s' /\ (armed s' <-> armed s) /\ (spent s' <-> spent s).
Proof.
  intros (Hi & Hid & Ht & Hu & Has) (A & B & N & C & D & E) Hi'.
  assert (Ha : armed s' <-> armed s) by (unfold armed; rewrite C, D; done).
  assert (Hs : spent s' <-> spent s) by (unfold spent; rewrite C, D; done).
  split; [| done].
  split; [done |]. split; [lia |]. split; [lia |]. split; [| tauto].
  intros t' dl' H. exact (Hu _ _ (E _ _ H)).
Qed.

Lemma frame_register (s s' : session) (r : Z) (nt : nat) :
  fresh s -> register_request s = (s', r, nt) -> frame s s' /\ r <> id.
Proof.
  intros [Hid Ht] Hr.
  destruct (register_request_spec _ _ _ _ Hr) as (-> & -> & Hrid & Hp & Htm & Hn & Hc).
  destruct Hc as (_ & _ & _ & _ & _ & _ & _ & _ & _ & _ & Hnow & _).
  split; [| lia].
  unfold frame. rewrite Hrid, Hp, Htm, Hn.
  split; [lia |]. split; [lia |]. split; [lia |].
  split; [rewrite lookup_insert_ne; [done | lia] |].
  split; [rewrite lookup_insert_ne; [done | lia] |].
  intros t' dl' H. rewrite lookup_insert in H. case_decide; [| done].
  injection H as _ Heq. lia.
Qed.

Lemma frame_set_timeout_reconnect (s s' : session) (d : Z) (nt : nat) :
  fresh s -> set_timeout s d TReconnect = (s', nt) -> frame s s'.
Proof.
  intros [Hid Ht] Hs.
  destruct (set_timeout_spec _ _ _ _ _ Hs) as (-> & Htm & Hn & Hr & Hp & Hc).
  destruct Hc as (_ & _ & _ & _ & _ & _ & _ & _ & _ & _ & Hnow & _).
  unfold frame. rewrite Htm, Hn, Hr, Hp.
  split; [lia |]. split; [lia |]. split; [lia |]. split; [done |].
  split; [rewrite lookup_insert_ne; [done | lia] |].
  intros t' dl' H. rewrite lookup_insert in H. case_decide; [discriminate | done].
Qed.

Lemma frame_send_request (s : session) (m : string) (p : json) :
  fresh s -> frame s (send_request s m p).1.1 /\ no_settle (send_request s m p).1.2.
Proof.
  intros Hf. destruct (send_request_cases s m p) as [[_ ->] | [_ (s' & r & nt & Hr & ->)]].
  - split; [apply frame_refl |]. intros o [H | []]. discriminate.
  - destruct (frame_register _ _ _ _ Hf Hr) as [Hfr Hne]. split; [done |].
    intros o Hin. destruct (send_message s'); simpl in Hin.
    + destruct Hin as [H | []]; discriminate.
    + done.
    + destruct Hin as [H | []]. injection H as Heq _. lia.
Qed.

Lemma frame_handle_reconnect (s : session) :
  fresh s -> frame s (handle_reconnect s).1 /\ no_settle (handle_reconnect s).2.
Proof.
  intros Hf. destruct (handle_reconnect_spec s) as [[-> _] | (_ & _ & s' & nt & Hs & ->)].
  - split; [apply frame_refl | intros o []].
  - split.
    + apply frame_trans with (set_reconnectAttempts s (reconnectAttempts s + 1)).
      * apply frame_ext; reflexivity.
      * eapply frame_set_timeout_reconnect; [exact Hf | exact Hs].
    + intros o [H | []]. discriminate.
Qed.

Lemma frame_connect (s : session) (o : origin) :
  frame s (connect s o).1 /\ no_settle (connect s o).2.
Proof.
  unfold connect. destruct (known_transport _); [destruct (transport_error s) |]; simpl.
  - split; [apply frame_refl |]. intros o' H.
    destruct o; simpl in H; intuition discriminate.
  - split; [apply frame_ext; reflexivity | intros o' []].
  - split; [apply frame_refl |]. intros o' H.
    destruct o; simpl in H; intuition discriminate.
Qed.

Lemma frame_on_open (s : session) :
  fresh s -> frame s (on_open s).1 /\ no_settle (on_open s).2.
Proof.
  intros Hf. unfold on_open. destruct (connecting s) as [og |]; [| split; [apply frame_refl | intros o []]].
  cbv zeta. set (s1 := set_reconnectAttempts _ _).
  assert (H1 : frame s s1) by (apply frame_ext; reflexivity).
  assert (Hf1 : fresh s1) by exact Hf.
  destruct (frame_send_request s1 "initialize" init_params Hf1) as [Hs Ho].
  destruct (send_request s1 "initialize" init_params) as [[s2 outs] r]. simpl in *.
  split; [exact (frame_trans _ _ _ H1 Hs) |].
  intros o [H | H]; [discriminate | exact (Ho o H)].
Qed.

Lemma frame_on_error (s : session) (msg : string) :
  fresh s -> frame s (on_error s msg).1 /\ no_settle (on_error s msg).2.
Proof.
  intros Hf. unfold on_error. destruct (String.eqb _ _).
  - destruct (frame_handle_reconnect s Hf) as [Hs Ho].
    destruct (handle_reconnect s) as [s1 outs]. simpl in *.
    split; [done |]. intros o [H | H]; [discriminate | exact (Ho o H)].
  - destruct (connecting s) as [o |]; simpl.
    + split; [apply frame_ext; reflexivity |].
      intros o' H. destruct o; simpl in H; intuition discriminate.
    + split; [apply frame_ext; reflexivity |]. intros o' H. simpl in H. intuition discriminate.
Qed.

Lemma frame_on_close (s : session) (code : option Z) :
  fresh s -> frame s (on_close s code).1 /\ no_settle (on_close s code).2.
Proof.
  intros Hf. unfold on_close.
  destruct (String.eqb _ _); [split; [apply frame_refl | intros o []] |].
  cbv zeta. set (s1 := set_isConnected s false).
  assert (H1 : frame s s1) by (apply frame_ext; reflexivity).
  assert (Hf1 : fresh s1) by exact Hf.
  destruct (frame_handle_reconnect s1 Hf1) as [Hs Ho].
  destruct (handle_reconnect s1) as [s2 outs].
  split; [exact (frame_trans _ _ _ H1 Hs) |].
  intros o H. destruct (_ && _); simpl in H.
  - destruct H as [H | [H | H]]; [discriminate | discriminate | exact (Ho o H)].
  - destruct H as [H | H]; [discriminate | exact (Ho o H)].
Qed.

Lemma frame_background_list (s : session) (m : string) :
  fresh s -> frame s (background_list s m).1 /\ no_settle (background_list s m).2.
Proof.
  intros Hf. unfold background_list. destruct (frame_send_request s m jempty Hf) as [Hs Ho].
  destruct (send_request s m jempty) as [[s' outs] [r |]]; simpl in *; [done |].
  split; [done | intros o []].
Qed.

Lemma frame_handle_notification (s : session) (n : json) :
  fresh s -> frame s (handle_notification s n).1 /\ no_settle (handle_notification s n).2.
Proof.
  intros Hf. unfold handle_notification.
  destruct (get n "method") as [[| | | m | |] |];
    try (split; [apply frame_refl | intros o H; simpl in H; intuition discriminate]).
  repeat match goal with
  | |- context [if String.eqb ?a ?b then _ else _] => destruct (String.eqb a b)
  end;
  try (split; [apply frame_refl | intros o H; simpl in H; intuition discriminate]);
  match goal with
  | |- context [background_list s ?m] =>
      destruct (frame_background_list s m Hf) as [Hs Ho];
      destruct (background_list s m) as [s1 outs]; simpl in *;
      split; [done | intros o [H | H]; [discriminate | exact (Ho o H)]]
  end.
Qed.

Lemma frame_handle_message (s : session) (msg : json) :
  tracked s -> get msg "id" <> Some (JNum id) ->
  frame s (handle_message s msg).1.1 /\ no_settle (handle_message s msg).1.2.
Proof.
  intros (Hi & Hid & Ht & Hu & Has) Hne.
  assert (Hf : fresh s) by (split; lia).
  destruct (decide (msg = JNull)) as [-> | Hnn];
    [split; [apply frame_refl | intros o []] |].
  rewrite (handle_message_nonnull s msg Hnn).
  destruct (truthy_opt _);
    [| destruct (frame_handle_notification s msg Hf) as [Hs Ho];
       destruct (handle_notification s msg); exact (conj Hs Ho)].
  destruct (pending_hit s (get msg "id")) as [[n t'] |] eqn:Hh;
    [| split; [apply frame_refl | intros o []]].
  unfold pending_hit in Hh.
  destruct (get msg "id") as [[| | n0 | | |] |] eqn:Hg; try discriminate.
  destruct (pendingRequests s !! n0) as [t0 |] eqn:Hp; [| discriminate].
  injection Hh as <- <-.
  assert (Hn : n0 <> id) by congruence.
  destruct Hi as (_ & H1 & _ & _). destruct (H1 n0 t0 Hp) as [_ [dl0 Hdl0]].
  assert (Htt : t0 <> t).
  { intros ->. destruct Has as [[_ Ha] | [_ Hs]]; congruence. }
  assert (Hfr : frame s (clear_timeout (set_pendingRequests s (delete n0 (pendingRequests s))) t0)).
  { unfold frame; simpl. split; [lia |]. split; [lia |]. split; [lia |].
    split; [rewrite lookup_delete_ne; [done | congruence] |].
    split; [rewrite lookup_delete_ne; [done | congruence] |].
    intros t' dl' H. rewrite lookup_delete in H. case_decide; [discriminate | done]. }
  cbv zeta. destruct (response_outcome msg) as [oc |]; (split; [exact Hfr |]).
  - intros o [H | []]. injection H as Heq _. congruence.
  - intros o [].
Qed.

(** Firing a timer leaves request [id] alone, unless it is the timer [t]
    of [id] itself, due, which rejects [id] with "Request timeout". *)
Lemma fire_track (s : session) (t' : nat) :
  tracked s ->
  (frame s (fire s t').1 /\ no_settle (fire s t').2) \/
  (armed s /\ t' = t /\ dl <= now s /\
   fire s t' = (set_pendingRequests (set_timers s (delete t (timers s)))
                  (delete id (pendingRequests s)),
                [OSettle id (Rejected "Request timeout")])).
Proof.
  intros (Hi & Hid & Ht & Hu & Has). unfold fire.
  destruct (timers s !! t') as [[dl' cb] |] eqn:Ht';
    [| left; split; [apply frame_refl | intros o []]].
  destruct (dl' <=? now s) eqn:Hle; [| left; split; [apply frame_refl | intros o []]].
  assert (Hne : t' <> t -> timers s !! t' <> timers s !! t -> True) by done.
  destruct cb as [k |]; simpl.
  - destruct (decide (k = id)) as [-> | Hk].
    + right. pose proof (Hu _ _ Ht') as ->.
      destruct Has as [Ha | [_ Hs]]; [| congruence].
      destruct Ha as [Hp Ha]. rewrite Ha in Ht'. injection Ht' as <-.
      split; [split; done |]. split; [done |]. split; [by apply Z.leb_le |]. reflexivity.
    + left. assert (Htt : t' <> t).
      { intros ->. destruct Has as [[_ Ha] | [_ Hs]]; congruence. }
      split.
      * unfold frame; simpl. split; [lia |]. split; [lia |]. split; [lia |].
        split; [rewrite lookup_delete_ne; [done | congruence] |].
        split; [rewrite lookup_delete_ne; [done | congruence] |].
        intros t2 dl2 H. rewrite lookup_delete in H. case_decide; [discriminate | done].
      * intros o [H | []]. injection H as Heq _. congruence.
  - left. assert (Htt : t' <> t).
    { intros ->. destruct Has as [[_ Ha] | [_ Hs]]; congruence. }
    destruct (frame_connect (set_timers s (delete t' (timers s))) FromReconnect) as [Hc Ho].
    split; [| exact Ho].
    apply frame_trans with (set_timers s (delete t' (timers s))); [| exact Hc].
    unfold frame; simpl. split; [lia |]. split; [lia |]. split; [lia |]. split; [done |].
    split; [rewrite lookup_delete_ne; [done | congruence] |].
    intros t2 dl2 H. rewrite lookup_delete in H. case_decide; [discriminate | done].
Qed.

Lemma step_track (s : session) (i : input) :
  tracked s -> quiet_input id i ->
  tracked (step s i).1 /\
  ((frame s (step s i).1 /\ no_settle (step s i).2) \/
   (armed s /\ spent (step s i).1 /\ dl <= now s /\ now (step s i).1 = now s /\
    (step s i).2 = [OSettle id (Rejected "Request timeout")])).
Proof.
  intros Htr Hq.
  assert (Hi' : inv (step s i).1) by (apply inv_step; apply Htr).
  assert (Hf : fresh s) by (destruct Htr as (_ & ? & ? & _); split; lia).
  assert (Hfr : (frame s (step s i).1 /\ no_settle (step s i).2) \/
     (armed s /\ t = t /\ dl <= now s /\
      step s i = (set_pendingRequests (set_timers s (delete t (timers s)))
                    (delete id (pendingRequests s)),
                  [OSettle id (Rejected "Request timeout")]))).
  { destruct i as [| | m p | m p | | msg | code | msg | d | t']; simpl in Hq |- *.
    - left. apply frame_connect.
    - done.
    - left. destruct (frame_send_request s m p Hf) as [H1 H2].
      destruct (send_request s m p) as [[s' outs] r]. done.
    - left. unfold send_notification.
      destruct (isConnected s); [destruct (send_message s) |];
        (split; [apply frame_refl | intros o H; simpl in H; intuition discriminate]).
    - left. by apply frame_on_open.
    - left. by apply frame_on_error.
    - left. by apply frame_on_close.
    - left. destruct (frame_handle_message s msg Htr Hq) as [H1 H2].
      destruct (handle_message s msg) as [[s1 outs] err]. simpl in *.
      split; [exact H1 |]. intros o Hin. apply in_app_iff in Hin.
      destruct Hin as [Hin | Hin]; [exact (H2 o Hin) |].
      destruct err; simpl in Hin; intuition discriminate.
    - left. destruct (0 <=? d) eqn:Hd.
      + split; [| intros o []]. apply Z.leb_le in Hd.
        unfold frame; simpl. split; [lia |]. split; [lia |]. split; [lia |].
        split; [done |]. split; [done |]. auto.
      + split; [apply frame_refl | intros o []].
    - destruct (fire_track s t' Htr) as [H | (Ha & -> & Hle & Heq)]; [by left | by right]. }
  destruct Hfr as [[Hfr Hno] | (Ha & _ & Hle & Heq)].
  - split; [exact (proj1 (tracked_frame _ _ Htr Hfr Hi')) | left; done].
  - rewrite Heq in Hi' |- *. simpl.
    assert (Hs : spent (set_pendingRequests (set_timers s (delete t (timers s)))
                          (delete id (pendingRequests s)))).
    { split; simpl; apply lookup_delete_eq. }
    destruct Htr as (_ & Hid & Ht & Hu & _).
    split; [| right; done].
    split; [done |]. simpl. split; [lia |]. split; [lia |]. split; [| by right].
    intros t' dl' H. rewrite lookup_delete in H. case_decide; [discriminate | eauto].
Qed.

Lemma run_track (s : session) (is : list input) :
  tracked s -> Forall (quiet_input id) is ->
  tracked (run s is).1 /\ now s <= now (run s is).1 /\
  (spent s -> spent (run s is).1 /\ no_settle (run s is).2) /\
  (armed s -> (armed (run s is).1 /\ no_settle (run s is).2) \/
     (spent (run s is).1 /\ dl <= now (run s is).1 /\
      In (OSettle id (Rejected "Request timeout")) (run s is).2 /\
      forall o, In (OSettle id o) (run s is).2 -> o = Rejected "Request timeout")).
Proof.
  assert (Hex : forall x, armed x -> spent x -> False).
  { intros x [Hp _] [Hp' _]. congruence. }
  revert s. induction is as [| i is IH]; intros s Htr Hq.
  - simpl. split; [done |]. split; [lia |].
    split; [intros Hs; split; [done | intros o []] |].
    intros Ha. left. split; [done | intros o []].
  - inversion Hq as [| ? ? Hqi Hqs]; subst.
    rewrite run_cons.
    destruct (step_track s i Htr Hqi) as [Htr1 Hst].
    destruct (IH _ Htr1 Hqs) as (Htr2 & Hnow & Hsp & Har).
    set (s1 := (step s i).1) in *. set (o1 := (step s i).2) in *.
    set (r := run s1 is) in *. cbn [fst snd].
    destruct Hst as [[Hfr Hno] | (Ha & Hs1 & Hle & Hn1 & Ho1)].
    + destruct (tracked_frame _ _ Htr Hfr (proj1 Htr1)) as (_ & Harm & Hspe).
      destruct Hfr as (_ & _ & Hnf & _).
      split; [done |]. split; [lia |]. split.
      * intros Hs. destruct (Hsp (proj2 Hspe Hs)) as [Hs2 Hno2]. split; [done |].
        intros o Hin. apply in_app_iff in Hin.
        destruct Hin as [Hin | Hin]; [exact (Hno o Hin) | exact (Hno2 o Hin)].
      * intros Ha. destruct (Har (proj2 Harm Ha)) as [[Ha2 Hno2] | (Hs2 & Hle2 & Hin2 & Hall2)].
        -- left. split; [done |]. intros o Hin. apply in_app_iff in Hin.
           destruct Hin as [Hin | Hin]; [exact (Hno o Hin) | exact (Hno2 o Hin)].
        -- right. split; [done |]. split; [done |].
           split; [apply in_app_iff; by right |].
           intros o Hin. apply in_app_iff in Hin.
           destruct Hin as [Hin | Hin]; [destruct (Hno o Hin) | exact (Hall2 o Hin)].
    + destruct (Hsp Hs1) as [Hs2 Hno2].
      split; [done |]. split; [lia |]. split.
      * intros Hs. exfalso. exact (Hex s Ha Hs).
      * intros _. right. split; [done |]. split; [lia |]. split.
        -- rewrite Ho1. apply in_app_iff. left. by left.
        -- intros o Hin. apply in_app_iff in Hin. destruct Hin as [Hin | Hin].
           ++ rewrite Ho1 in Hin. destruct Hin as [Hin | []]. by injection Hin.
           ++ destruct (Hno2 o Hin).
Qed.

End Track.
End RequestTimeout.

Module ReconnectFacts.
Import Session SessionFacts SessionRouting SessionControl.
Local Open Scope Z_scope.

(** The number of [reconnecting] events among some outputs. *)
Fixpoint reconnecting_count (outs : list output) : nat :=
  match outs with
  | [] => 0
  | OEmit (EvReconnecting _) :: r => S (reconnecting_count r)
  | _ :: r => reconnecting_count r
  end.

Definition is_open (i : input) : bool := match i with IOpen => true | _ => false end.
Definition is_disconnect (i : input) : bool :=
  match i with IDisconnect => true | _ => false end.

(** The reconnection fields are untouched. *)
Definition ctl3 (s s' : session) : Prop :=
  maxReconnectAttempts s' = maxReconnectAttempts s /\
  shouldReconnect s' = shouldReconnect s /\ reconnectAttempts s' = reconnectAttempts s.

(** A transition that counts its reconnection, if any, in the counter and
    never turns [shouldReconnect] back on. *)
Definition rstep (s s' : session) (outs : list output) : Prop :=
  maxReconnectAttempts s' = maxReconnectAttempts s /\
  (shouldReconnect s' = true -> shouldReconnect s = true) /\
  reconnectAttempts s' = reconnectAttempts s + Z.of_nat (reconnecting_count outs) /\
  (reconnecting_count outs = 0%nat \/
   (reconnecting_count outs = 1%nat /\ shouldReconnect s = true /\
    reconnectAttempts s < maxReconnectAttempts s)).

Lemma reconnecting_count_app (a b : list output) :
  reconnecting_count (a ++ b) = (reconnecting_count a + reconnecting_count b)%nat.
Proof.
  induction a as [| o a IH]; [done |].
  destruct o as [e | | |]; try destruct e; simpl; rewrite IH; reflexivity.
Qed.

Lemma same_ctl_ctl3 (s s' : session) : same_ctl s s' -> ctl3 s s'.
Proof. intros (_ & _ & _ & H1 & _ & _ & H2 & H3 & _). done. Qed.

Lemma rstep_ctl (s s' : session) (outs : list output) :
  ctl3 s s' -> reconnecting_count outs = 0%nat -> rstep s s' outs.
Proof.
  intros (H1 & H2 & H3) H0. unfold rstep. rewrite H0, H1, H2, H3.
  split; [done |]. split; [done |]. split; [lia | by left].
Qed.

Lemma rstep_pre (s s1 s' : session) (pre outs : list output) :
  ctl3 s s1 -> reconnecting_count pre = 0%nat -> rstep s1 s' outs ->
  rstep s s' (pre ++ outs).
Proof.
  intros (H1 & H2 & H3) H0 (A & B & C & D). unfold rstep.
  rewrite reconnecting_count_app, H0. simpl.
  rewrite <- H1, <- H2, <- H3. done.
Qed.

Lemma rc_send_request (s : session) (m : string) (p : json) :
  reconnecting_count (send_request s m p).1.2 = 0%nat.
Proof.
  destruct (send_request_cases s m p) as [[_ ->] | [_ (s' & r & nt & Hr & ->)]]; [done |].
  simpl. by destruct (send_message s').
Qed.

Lemma rstep_send_request (s : session) (m : string) (p : json) :
  rstep s (send_request s m p).1.1 (send_request s m p).1.2.
Proof. apply rstep_ctl; [apply same_ctl_ctl3, same_ctl_send_request | apply rc_send_request]. Qed.

Lemma rc_handle_notification (s : session) (n : json) :
  reconnecting_count (handle_notification s n).2 = 0%nat.
Proof.
  assert (Hb : forall m, reconnecting_count (background_list s m).2 = 0%nat).
  { intros m. unfold background_list. pose proof (rc_send_request s m jempty) as H.
    destruct (send_request s m jempty) as [[s' outs] [r |]]; done. }
  unfold handle_notification.
  destruct (get n "method") as [[| | | m | |] |]; try done.
  repeat match goal with
  | |- context [if String.eqb ?a ?b then _ else _] => destruct (String.eqb a b)
  end; try done;
  match goal with
  | |- context [background_list s ?m] =>
      pose proof (Hb m) as H; destruct (background_list s m); exact H
  end.
Qed.

Lemma rc_handle_message (s : session) (msg : json) :
  reconnecting_count (handle_message s msg).1.2 = 0%nat.
Proof.
  destruct (decide (msg = JNull)) as [-> | Hnn]; [done |].
  rewrite (handle_message_nonnull s msg Hnn).
  destruct (truthy_opt _).
  - destruct (pending_hit _ _) as [[n t] |]; [cbv zeta; destruct (response_outcome msg) |]; done.
  - pose proof (rc_handle_notification s msg) as H.
    destruct (handle_notification s msg). exact H.
Qed.

Lemma rstep_handle_reconnect (s : session) :
  rstep s (handle_reconnect s).1 (handle_reconnect s).2.
Proof.
  destruct (handle_reconnect_spec s) as [[-> _] | (Hs & Hlt & s' & t & Ht & ->)].
  - apply rstep_ctl; [repeat split | done].
  - destruct (set_timeout_spec _ _ _ _ _ Ht) as (_ & _ & _ & _ & _ & Hc).
    destruct Hc as (_ & _ & _ & H1 & _ & _ & H2 & H3 & _).
    unfold rstep; simpl. rewrite H1, H2, H3. simpl.
    split; [done |]. split; [done |]. split; [lia |]. right. done.
Qed.

Lemma rstep_connect (s : session) (o : origin) :
  rstep s (connect s o).1 (connect s o).2.
Proof.
  unfold connect. destruct (known_transport _); [destruct (transport_error s) |];
    (apply rstep_ctl; [repeat split |]); try done; destruct o; done.
Qed.

Lemma rstep_on_error (s : session) (msg : string) :
  rstep s (on_error s msg).1 (on_error s msg).2.
Proof.
  unfold on_error. destruct (String.eqb _ _).
  - pose proof (rstep_handle_reconnect s) as H. destruct (handle_reconnect s) as [s1 outs].
    exact (rstep_pre s s s1 [OEmit (EvError msg)] outs ltac:(repeat split) eq_refl H).
  - destruct (connecting s) as [o |]; (apply rstep_ctl; [repeat split |]); [| done].
    destruct o; done.
Qed.

Lemma rstep_on_close (s : session) (code : option Z) :
  rstep s (on_close s code).1 (on_close s code).2.
Proof.
  unfold on_close. destruct (String.eqb _ _); [apply rstep_ctl; [repeat split | done] |].
  cbv zeta. pose proof (rstep_handle_reconnect (set_isConnected s false)) as H.
  destruct (handle_reconnect (set_isConnected s false)) as [s1 outs]. cbn [fst snd].
  rewrite app_assoc.
  apply (rstep_pre s (set_isConnected s false)); [repeat split | | exact H].
  by destruct (_ && _).
Qed.

Lemma rc_disconnect (s : session) : reconnecting_count (disconnect s).2 = 0%nat.
Proof.
  assert (Hm : forall l : list (Z * nat),
    reconnecting_count (map (fun p => OSettle p.1 (Rejected "Connection closed")) l) = 0%nat)
    by (induction l; done).
  unfold disconnect. cbn [snd]. rewrite reconnecting_count_app, Hm. done.
Qed.

Lemma rstep_disconnect (s : session) :
  rstep s (disconnect s).1 (disconnect s).2.
Proof.
  unfold rstep. rewrite rc_disconnect.
  unfold disconnect. cbn. destruct (connection s); cbn;
    (split; [done | split; [intros Hf; discriminate Hf | split; [lia | by left]]]).
Qed.

Lemma step_rstep (s : session) (i : input) :
  is_open i = false -> rstep s (step s i).1 (step s i).2.
Proof.
  intros Hi. destruct i as [| | m p | m p | | msg | code | msg | d | t]; simpl; try discriminate.
  - apply rstep_connect.
  - apply rstep_disconnect.
  - pose proof (rstep_send_request s m p) as H.
    destruct (send_request s m p) as [[s' outs] r]. exact H.
  - unfold send_notification. destruct (isConnected s); [destruct (send_message s) |];
      (apply rstep_ctl; [repeat split | done]).
  - apply rstep_on_error.
  - apply rstep_on_close.
  - pose proof (same_ctl_handle_message s msg) as Hc. pose proof (rc_handle_message s msg) as Hr.
    destruct (handle_message s msg) as [[s1 outs] err]. simpl in *.
    apply rstep_ctl; [apply same_ctl_ctl3, Hc |].
    rewrite reconnecting_count_app, Hr. destruct err; done.
  - destruct (0 <=? d); (apply rstep_ctl; [repeat split | done]).
  - unfold fire. destruct (timers s !! t) as [[dl [k |]] |];
      [destruct (dl <=? now s) | destruct (dl <=? now s) |];
      try (apply rstep_ctl; [repeat split | done]).
    exact (rstep_connect (set_timers s (delete t (timers s))) FromReconnect).
Qed.

Lemma step_open (s : session) :
  reconnecting_count (step s IOpen).2 = 0%nat /\
  shouldReconnect (step s IOpen).1 = shouldReconnect s /\
  maxReconnectAttempts (step s IOpen).1 = maxReconnectAttempts s /\
  (connecting s <> None -> reconnectAttempts (step s IOpen).1 = 0) /\
  (connecting s = None -> step s IOpen = (s, [])).
Proof.
  simpl. unfold on_open. destruct (connecting s) as [o |]; [| done].
  cbv zeta. set (s1 := set_reconnectAttempts _ _).
  pose proof (same_ctl_send_request s1 "initialize" init_params) as Hc.
  pose proof (rc_send_request s1 "initialize" init_params) as Hr.
  destruct (send_request s1 "initialize" init_params) as [[s2 outs] r]. simpl in *.
  destruct Hc as (_ & _ & _ & H1 & _ & _ & H2 & H3 & _).
  rewrite H1, H2, H3. done.
Qed.

Lemma run_open_free (s : session) (is : list input) :
  Forall (fun i => is_open i = false) is ->
  maxReconnectAttempts (run s is).1 = maxReconnectAttempts s /\
  reconnectAttempts (run s is).1 =
    reconnectAttempts s + Z.of_nat (reconnecting_count (run s is).2) /\
  reconnectAttempts (run s is).1 <= Z.max (reconnectAttempts s) (maxReconnectAttempts s).
Proof.
  revert s. induction is as [| i is IH]; intros s Hq.
  - simpl. lia.
  - inversion Hq as [| ? ? Hqi Hqs]; subst. rewrite run_cons.
    pose proof (step_rstep s i Hqi) as (A & _ & C & D).
    destruct (IH (step s i).1 Hqs) as (Hm & Ha & Hle).
    set (s1 := (step s i).1) in *. set (o1 := (step s i).2) in *.
    cbn [fst snd]. rewrite reconnecting_count_app.
    split; [congruence |]. split; [lia |]. lia.
Qed.

Lemma run_no_reconnect (s : session) (is : list input) :
  shouldReconnect s = false ->
  shouldReconnect (run s is).1 = false /\ reconnecting_count (run s is).2 = 0%nat.
Proof.
  revert s. induction is as [| i is IH]; intros s Hs; [done |].
  rewrite run_cons.
  assert (H1 : shouldReconnect (step s i).1 = false /\ reconnecting_count (step s i).2 = 0%nat).
  { destruct (is_open i) eqn:Ho.
    - destruct i; try discriminate. destruct (step_open s) as (Hc & Hsr & _). by rewrite Hsr.
    - destruct (step_rstep s i Ho) as (_ & B & _ & D).
      split; [destruct (shouldReconnect (step s i).1); [by rewrite B in Hs | done] |].
      destruct D as [D | (_ & D & _)]; [done | congruence]. }
  destruct H1 as [H1 H2]. destruct (IH _ H1) as [H3 H4].
  cbn [fst snd]. rewrite reconnecting_count_app, H2, H4. done.
Qed.

End ReconnectFacts.

Module SessionClaims.
Import Session SessionFacts SessionRouting SessionControl RequestTimeout ReconnectFacts Scenarios.
Local Open Scope Z_scope.

(** C3 (as the code does it): for a non-null message (numbers in it at
    most 2^53 in magnitude), a truthy id matching a pending request removes
    that entry and clears its timer; then the future is settled once:
    rejected with [error.message] (or "Unknown error") when the error field
    is truthy, otherwise resolved with the result field when truthy and
    with [{}] when it is missing or falsy.  Only when converting a truthy
    [error.message] to a string throws (an object with its own [toString]
    key, possibly inside an array) is the entry dropped without settling
    its future, and the handler throws a TypeError.  A message matching no
    pending entry does not throw and settles or removes no entry that was
    pending. *)
Theorem handle_message_routing (s : session) (msg : json)
  (Hr : reachable s) (Hm : msg <> JNull) (Hs : nums_safe msg = true) :
  let '(s', outs, err) := handle_message s msg in
    (forall n t, get msg "id" = Some (JNum n) -> pendingRequests s !! n = Some t ->
       pendingRequests s' = delete n (pendingRequests s) /\
       timers s' = delete t (timers s) /\
       ((exists o, response_outcome msg = Some o /\ outs = [OSettle n o] /\ err = None) \/
        (response_outcome msg = None /\ outs = [] /\ err = Some to_primitive_error))) /\
    (pending_hit s (get msg "id") = None ->
       err = None /\
       forall k t, pendingRequests s !! k = Some t ->
         pendingRequests s' !! k = Some t /\ forall o, ~ In (OSettle k o) outs) /\
    (truthy_opt (get msg "error") = true ->
       exists e, get msg "error" = Some e /\
                 response_outcome msg = option_map Rejected (error_text e)) /\
    (truthy_opt (get msg "error") = false ->
       response_outcome msg =
         Some (Resolved (match get msg "result" with
                         | Some r => if truthy r then r else jempty
                         | None => jempty
                         end))) /\
    (response_outcome msg = None ->
       exists e v, get msg "error" = Some e /\ truthy e = true /\
                   get e "message" = Some v /\ truthy v = true /\ js_to_string v = None).
Proof.
  pose proof (reachable_inv s Hr) as Hi. pose proof Hi as (H0 & H1 & H2 & H3).
  assert (Hro : (truthy_opt (get msg "error") = true ->
       exists e, get msg "error" = Some e /\
                 response_outcome msg = option_map Rejected (error_text e)) /\
    (truthy_opt (get msg "error") = false ->
       response_outcome msg =
         Some (Resolved (match get msg "result" with
                         | Some r => if truthy r then r else jempty
                         | None => jempty
                         end))) /\
    (response_outcome msg = None ->
       exists e v, get msg "error" = Some e /\ truthy e = true /\
                   get e "message" = Some v /\ truthy v = true /\ js_to_string v = None)).
  { unfold response_outcome. destruct (get msg "error") as [e |]; simpl.
    - destruct (truthy e) eqn:Hte; split; [| split | | split]; intros Hb; try discriminate;
        try (by exists e); try (by destruct (get msg "result")).
      unfold error_text in Hb. destruct (get e "message") as [v |] eqn:Hv; [| discriminate].
      destruct (truthy v) eqn:Htv; [| discriminate].
      exists e, v. destruct (js_to_string v); [discriminate | done].
    - split; [intros Hb; discriminate | split; intros Hb; by destruct (get msg "result")]. }
  rewrite (handle_message_nonnull s msg Hm).
  destruct (truthy_opt (get msg "id")) eqn:Hid.
  - destruct (pending_hit s (get msg "id")) as [[n t] |] eqn:Hh.
    + assert (Hk : forall n' t', get msg "id" = Some (JNum n') ->
                     pendingRequests s !! n' = Some t' -> n' = n /\ t' = t).
      { intros n' t' Hn' Ht'. unfold pending_hit in Hh. rewrite Hn', Ht' in Hh.
        injection Hh as <- <-. done. }
      cbv zeta. destruct (response_outcome msg) as [o |] eqn:Ho.
      * split; [| split; [discriminate | exact Hro]].
        intros n' t' Hn' Ht'. destruct (Hk n' t' Hn' Ht') as [-> ->].
        split; [done | split; [done |]]. left. by exists o.
      * split; [| split; [discriminate | exact Hro]].
        intros n' t' Hn' Ht'. destruct (Hk n' t' Hn' Ht') as [-> ->].
        split; [done | split; [done |]]. by right.
    + split; [| split; [| exact Hro]].
      * intros n' t' Hn' Ht'. unfold pending_hit in Hh. rewrite Hn', Ht' in Hh. discriminate.
      * intros _. split; [done |]. intros k t Hk. split; [done | intros o []].
  - pose proof (handle_notification_frame s msg Hi) as Hfr.
    destruct (handle_notification s msg) as [s1 outs] eqn:En.
    split; [| split; [| exact Hro]].
    + intros n t Hn Ht. destruct (H1 n t Ht) as [Hb _].
      rewrite Hn in Hid. simpl in Hid. apply negb_false_iff, Z.eqb_eq in Hid. lia.
    + intros _. split; [done |]. intros k t Hk. destruct (Hfr k t Hk) as (Hp & _ & Ho).
      split; [done | exact Ho].
Qed.

Lemma handle_message_routing_witness :
  reachable ws_init /\ tostring_error_response <> JNull /\
  nums_safe tostring_error_response = true /\
  let '(s', outs, err) := handle_message ws_init tostring_error_response in
    (forall n t, get tostring_error_response "id" = Some (JNum n) ->
       pendingRequests ws_init !! n = Some t ->
       pendingRequests s' = delete n (pendingRequests ws_init) /\
       timers s' = delete t (timers ws_init) /\
       ((exists o, response_outcome tostring_error_response = Some o /\
                   outs = [OSettle n o] /\ err = None) \/
        (response_outcome tostring_error_response = None /\ outs = [] /\
         err = Some to_primitive_error))) /\
    (pending_hit ws_init (get tostring_error_response "id") = None ->
       err = None /\
       forall k t, pendingRequests ws_init !! k = Some t ->
         pendingRequests s' !! k = Some t /\ forall o, ~ In (OSettle k o) outs) /\
    (truthy_opt (get tostring_error_response "error") = true ->
       exists e, get tostring_error_response "error" = Some e /\
                 response_outcome tostring_error_response = option_map Rejected (error_text e)) /\
    (truthy_opt (get tostring_error_response "error") = false ->
       response_outcome tostring_error_response =
         Some (Resolved (match get tostring_error_response "result" with
                         | Some r => if truthy r then r else jempty
                         | None => jempty
                         end))) /\
    (response_outcome tostring_error_response = None ->
       exists e v, get tostring_error_response "error" = Some e /\ truthy e = true /\
                   get e "message" = Some v /\ truthy v = true /\ js_to_string v = None).
Proof.
  assert (Hr : reachable ws_init)
    by (exists (Some "websocket"), None, None, None, None, [IConnect; IOpen]; reflexivity).
  assert (Hn : tostring_error_response <> JNull) by discriminate.
  assert (Hs : nums_safe tostring_error_response = true) by reflexivity.
  split; [exact Hr | split; [exact Hn | split; [exact Hs |]]].
  exact (handle_message_routing ws_init tostring_error_response Hr Hn Hs).
Defined.

(** C3 counterexamples: the response [{"id":1,"result":false}] to the
    pending initialize request resolves its future with [{}], not with the
    result field [false]; the response
    [{"id":1,"error":{"message":{"toString":1}}}] removes the pending entry
    but settles nothing (the future never settles), and the socket's
    message handler reports the TypeError as an 'error' event. *)
Lemma handle_message_falsy_result :
  ((handle_message ws_init falsy_response).1.2 = [OSettle 1 (Resolved jempty)] /\
   (handle_message ws_init falsy_response).1.2 <> [OSettle 1 (Resolved (JBool false))]) /\
  (pendingRequests ws_init !! 1 <> None /\
   pendingRequests (step ws_init (IMessage tostring_error_response)).1 !! 1 = None /\
   (forall o, ~ In (OSettle 1 o) (step ws_init (IMessage tostring_error_response)).2) /\
   (step ws_init (IMessage tostring_error_response)).2 =
     [OEmit (EvError "Failed to parse message: Cannot convert object to primitive value")]).
Proof.
  split; [split; [vm_compute; reflexivity | vm_compute; discriminate] |].
  split; [vm_compute; discriminate |]. split; [vm_compute; reflexivity |].
  split; [| vm_compute; reflexivity].
  intros o Hin. vm_compute in Hin. destruct Hin as [H | []]. discriminate.
Qed.

(** C1 (code defect): the websocket 'close' and stdio 'exit' handlers set
    [isConnected] to false and may schedule a reconnection, but reject no
    pending request and leave the pending map as it is; only [disconnect()]
    rejects them.  With three requests in flight on a websocket session, the
    close event leaves all three pending and settles none. *)
Theorem transport_close_keeps_pending :
  (forall (s : session) (code : option Z),
     pendingRequests (on_close s code).1 = pendingRequests s /\
     forall id o, ~ In (OSettle id o) (on_close s code).2) /\
  (size (pendingRequests ws_three) = 3%nat /\
   pendingRequests (step ws_three (IClose (Some 1000))).1 = pendingRequests ws_three /\
   forall id o, ~ In (OSettle id o) (step ws_three (IClose (Some 1000))).2).
Proof.
  split.
  - intros s code. unfold on_close.
    destruct (String.eqb (transport s) "sse"); [split; [done | intros id o []] |].
    destruct (handle_reconnect_spec (set_isConnected s false))
      as [[-> _] | (_ & _ & s' & t & Ht & ->)].
    + split; [done |]. intros id o Hin.
      repeat (destruct Hin as [Hin | Hin]; [discriminate |]); simpl in Hin;
        repeat (destruct Hin as [Hin | Hin]; [discriminate |]); try done.
      destruct (String.eqb (transport s) "stdio" && _); simpl in Hin;
        repeat (destruct Hin as [Hin | Hin]; [discriminate |]); done.
    + destruct (set_timeout_spec _ _ _ _ _ Ht) as (_ & _ & _ & _ & Hp & _).
      split; [done |]. intros id o Hin. simpl in Hin.
      destruct (String.eqb (transport s) "stdio" && _); simpl in Hin;
        repeat (destruct Hin as [Hin | Hin]; [discriminate |]); done.
  - split; [vm_compute; reflexivity |]. split; [vm_compute; reflexivity |].
    intros id o Hin. vm_compute in Hin.
    repeat (destruct Hin as [Hin | Hin]; [discriminate |]). done.
Qed.

(** C8 (code defect): [disconnect()] rejects and clears every pending entry
    but never calls [clearTimeout]: every timeout timer stays live.  On the
    websocket session with three requests in flight, the pending map is
    empty afterwards while the three timeout timers remain. *)
Theorem disconnect_keeps_timers :
  (forall s : session,
     pendingRequests (disconnect s).1 = ∅ /\ timers (disconnect s).1 = timers s) /\
  (pendingRequests (disconnect ws_three).1 = ∅ /\
   timers (disconnect ws_three).1 !! 0%nat = Some (30000, TTimeout 1) /\
   timers (disconnect ws_three).1 !! 1%nat = Some (30000, TTimeout 2) /\
   timers (disconnect ws_three).1 !! 2%nat = Some (30000, TTimeout 3)).
Proof.
  split.
  - intros s. unfold disconnect. destruct (connection _); done.
  - vm_compute. repeat split.
Qed.

(** C9 counterexample: right after [connect()] creates the websocket (before
    it opens) the handle is set while [isConnected] is false; the same holds
    after the socket's close event. *)
Lemma connected_flag_not_handle :
  (isConnected (step ws0 IConnect).1 = false /\ connection (step ws0 IConnect).1 = Some 0%nat) /\
  (isConnected (step ws_init (IClose (Some 1000))).1 = false /\
   connection (step ws_init (IClose (Some 1000))).1 = Some 0%nat).
Proof. vm_compute. repeat split. Qed.

(** C9 (as the code does it): only [disconnect()] sets the connection handle
    to null, and it sets [isConnected] to false in the same call; [connect()]
    stores a fresh handle without touching [isConnected] when the transport
    object can be created, and changes nothing when creating it throws (an
    invalid websocket URL, a stdio client without a server command, sse
    without the eventsource package); [isConnected] becomes true only when
    the transport opens, while a connect() is under way; the websocket close
    and stdio exit handlers set [isConnected] to false and keep the
    handle. *)
Theorem connection_flag_updates (s : session) (i : input) :
  (connection (step s i).1 = None ->
     connection s = None \/ (i = IDisconnect /\ isConnected (step s i).1 = false)) /\
  (i = IDisconnect -> connection (step s i).1 = None /\ isConnected (step s i).1 = false) /\
  (i = IConnect -> known_transport (transport s) = true -> transport_error s = None ->
     connection (step s i).1 = Some (next_conn s) /\ isConnected (step s i).1 = isConnected s) /\
  (forall e, i = IConnect -> transport_error s = Some e -> (step s i).1 = s) /\
  (isConnected s = false -> isConnected (step s i).1 = true ->
     i = IOpen /\ connecting s <> None) /\
  (forall code, i = IClose code -> transport s <> "sse" ->
     isConnected (step s i).1 = false /\ connection (step s i).1 = connection s).
Proof.
  assert (Hhr : forall s0, connection (handle_reconnect s0).1 = connection s0 /\
                           isConnected (handle_reconnect s0).1 = isConnected s0).
  { intros s0. destruct (handle_reconnect_spec s0) as [[-> _] | (_ & _ & s' & t & Ht & ->)];
      [done |].
    destruct (set_timeout_spec _ _ _ _ _ Ht) as (_ & _ & _ & _ & _ & Hc).
    destruct Hc as (_ & _ & _ & _ & Hc1 & Hc2 & _). simpl. rewrite Hc1, Hc2. done. }
  assert (Hclose : forall code, transport s <> "sse" ->
            isConnected (on_close s code).1 = false /\ connection (on_close s code).1 = connection s).
  { intros code Hn. unfold on_close. apply String.eqb_neq in Hn. rewrite Hn.
    destruct (Hhr (set_isConnected s false)) as [Hc Hi].
    destruct (handle_reconnect (set_isConnected s false)). simpl in *. done. }
  assert (Hconn : forall s0 o, (connection (connect s0 o).1 = connection s0 \/
                                exists c, connection (connect s0 o).1 = Some c) /\
                               isConnected (connect s0 o).1 = isConnected s0).
  { intros s0 o. unfold connect.
    destruct (known_transport _); [destruct (transport_error s0) |];
      (split; [first [left; reflexivity | right; eexists; reflexivity] | reflexivity]). }
  assert (Hdisc : connection (disconnect s).1 = None /\ isConnected (disconnect s).1 = false).
  { unfold disconnect. cbn. destruct (connection s) eqn:E; cbn; auto. }
  assert (Hnotif : forall m p, (send_notification s m p).1 = s).
  { intros m p. unfold send_notification.
    destruct (isConnected s); [destruct (send_message s) |]; done. }
  split; [| split; [| split; [| split; [| split]]]].
  - destruct i as [| | m p | m p | | msg | code | msg | d | t]; simpl; intros Hn.
    + destruct (proj1 (Hconn s FromUser)) as [H | [c H]]; [left; congruence | congruence].
    + right. split; [done |]. exact (proj2 Hdisc).
    + left. pose proof (same_ctl_send_request s m p) as H.
      destruct (send_request s m p) as [[s' outs] o]. destruct H as (_ & _ & _ & _ & H & _).
      simpl in *. congruence.
    + left. rewrite Hnotif in Hn. exact Hn.
    + left. unfold on_open in Hn. destruct (connecting s); [| done].
      set (s1 := set_reconnectAttempts _ _) in Hn.
      pose proof (same_ctl_send_request s1 "initialize" init_params) as H.
      destruct (send_request s1 "initialize" init_params) as [[s' outs] o'].
      destruct H as (_ & _ & _ & _ & H & _). simpl in *. congruence.
    + left. unfold on_error in Hn. destruct (String.eqb _ _).
      * destruct (Hhr s) as [H _]. destruct (handle_reconnect s). simpl in *. congruence.
      * destruct (connecting s); done.
    + left. unfold on_close in Hn. destruct (String.eqb _ _); [done |].
      destruct (Hhr (set_isConnected s false)) as [H _].
      destruct (handle_reconnect (set_isConnected s false)). simpl in *. congruence.
    + left. pose proof (same_ctl_handle_message s msg) as (_ & _ & _ & _ & H & _).
      destruct (handle_message s msg) as [[s1 outs] err]. simpl in *. congruence.
    + left. destruct (0 <=? d); done.
    + left. unfold fire in Hn. destruct (timers s !! t) as [[dl [id |]] |]; [| | done];
        destruct (dl <=? now s); try done.
      simpl in Hn. destruct (proj1 (Hconn (set_timers s (delete t (timers s))) FromReconnect))
        as [H | [c H]]; [| congruence].
      rewrite H in Hn. exact Hn.
  - intros ->. exact Hdisc.
  - intros -> Hk He. simpl. unfold connect. rewrite Hk, He. done.
  - intros e -> He. simpl. unfold connect. rewrite He. by destruct (known_transport _).
  - intros Hf Ht. destruct i as [| | m p | m p | | msg | code | msg | d | t]; simpl in Ht.
    + rewrite (proj2 (Hconn s FromUser)) in Ht. congruence.
    + revert Ht. unfold disconnect. destruct (connection s); simpl; discriminate.
    + pose proof (same_ctl_send_request s m p) as H.
      destruct (send_request s m p) as [[s' outs] o]. destruct H as (_ & _ & _ & _ & _ & H & _).
      simpl in *. congruence.
    + rewrite Hnotif in Ht. congruence.
    + split; [done |]. unfold on_open in Ht. destruct (connecting s); [discriminate |].
      simpl in Ht. congruence.
    + unfold on_error in Ht. destruct (String.eqb _ _).
      * destruct (Hhr s) as [_ H]. destruct (handle_reconnect s). simpl in *. congruence.
      * destruct (connecting s); simpl in Ht; congruence.
    + unfold on_close in Ht. destruct (String.eqb _ _); [simpl in Ht; congruence |].
      destruct (Hhr (set_isConnected s false)) as [_ H].
      destruct (handle_reconnect (set_isConnected s false)). simpl in *. congruence.
    + pose proof (same_ctl_handle_message s msg) as (_ & _ & _ & _ & _ & H & _).
      destruct (handle_message s msg) as [[s1 outs] err]. simpl in *. congruence.
    + destruct (0 <=? d); simpl in Ht; congruence.
    + unfold fire in Ht. destruct (timers s !! t) as [[dl [id |]] |];
        [| | simpl in Ht; congruence];
        (destruct (dl <=? now s); [| simpl in Ht; congruence]).
      * simpl in Ht. congruence.
      * simpl in Ht. rewrite (proj2 (Hconn _ FromReconnect)) in Ht. simpl in Ht. congruence.
  - intros code -> Hn. exact (Hclose code Hn).
Qed.

(** C4 (as the code does it): a request sent while connected over stdio,
    or over a websocket whose socket is open (not a socket still CONNECTING
    after a new connect()), with a connection handle, gets the id [requestId + 1] and a timeout timer
    due at [now + timeout] (30000 when the configured timeout is 0 or
    absent).  As long as no response with that id arrives and
    [disconnect()] is not called, whatever else happens, the future is
    settled only by that timer: either the request is still pending with
    its timer, which cannot fire before the deadline and rejects the
    request with "Request timeout" and removes it once it is due, or the
    timer has fired past the deadline, the future was rejected with
    "Request timeout" and the id is no longer pending.  No other
    settlement of that id is ever emitted. *)
Theorem request_times_out (s0 : session) (m : string) (p : json) (is : list input)
  (Hr : reachable s0) (Hc : isConnected s0 = true)
  (Ht : (transport s0 = "websocket" /\ readyState s0 = ROpen) \/ transport s0 = "stdio")
  (Hn : connection s0 <> None)
  (Hq : Forall (quiet_input (requestId s0 + 1)) is) :
  (forall tr d mx, timeout (create tr None d mx) = 30000 /\
                   timeout (create tr (Some 0) d mx) = 30000) /\
  exists s1 s2 outs2,
    send_request s0 m p =
      (s1, [OSend (request_msg (requestId s0 + 1) m p)], Some (requestId s0 + 1)) /\
    run s1 is = (s2, outs2) /\
    (forall o, In (OSettle (requestId s0 + 1) o) outs2 -> o = Rejected "Request timeout") /\
    ((pendingRequests s2 !! (requestId s0 + 1) = Some (next_timer s0) /\
      timers s2 !! next_timer s0 =
        Some (now s0 + eff_delay (timeout s0), TTimeout (requestId s0 + 1)) /\
      (now s2 < now s0 + eff_delay (timeout s0) -> fire s2 (next_timer s0) = (s2, [])) /\
      (now s0 + eff_delay (timeout s0) <= now s2 ->
         (fire s2 (next_timer s0)).2 =
           [OSettle (requestId s0 + 1) (Rejected "Request timeout")] /\
         pendingRequests (fire s2 (next_timer s0)).1 !! (requestId s0 + 1) = None)) \/
     (pendingRequests s2 !! (requestId s0 + 1) = None /\
      now s0 + eff_delay (timeout s0) <= now s2 /\
      In (OSettle (requestId s0 + 1) (Rejected "Request timeout")) outs2)).
Proof.
  split; [intros; split; reflexivity |].
  pose proof (reachable_inv s0 Hr) as Hi. pose proof Hi as (H0 & H1 & H2 & H3).
  destruct (send_request_cases s0 m p) as [[Hc' _] | [_ (s1 & r & nt & Hreg & Hsend)]];
    [congruence |].
  destruct (register_request_spec _ _ _ _ Hreg) as (-> & -> & Hrid & Hp & Htm & Hn1 & Hctl).
  assert (Hsm : send_message s1 = Sent).
  { unfold send_message.
    destruct Hctl as (Htr & _ & _ & _ & Hcn & _ & _ & _ & _ & _ & _ & Hrs & _).
    rewrite Htr, Hcn, Hrs.
    destruct (connection s0) as [c |]; [| done].
    destruct Ht as [[-> ->] | ->]; reflexivity. }
  rewrite Hsm in Hsend.
  assert (Harm : armed (requestId s0 + 1) (next_timer s0) (now s0 + eff_delay (timeout s0)) s1).
  { unfold armed. rewrite Hp, Htm. split; apply lookup_insert_eq. }
  assert (Htr : tracked (requestId s0 + 1) (next_timer s0) (now s0 + eff_delay (timeout s0)) s1).
  { split; [exact (inv_register _ _ _ _ Hi Hreg) |].
    split; [rewrite Hrid; lia |]. split; [rewrite Hn1; lia |]. split; [| by left].
    intros t' dl' H. rewrite Htm, lookup_insert in H. case_decide; [congruence |].
    specialize (H3 _ _ _ H). lia. }
  pose proof (run_track _ _ _ s1 is Htr Hq) as (_ & _ & _ & Hcase).
  specialize (Hcase Harm).
  destruct (run s1 is) as [s2 outs2] eqn:Hrun. simpl in Hcase.
  exists s1, s2, outs2. split; [exact Hsend |]. split; [done |].
  destruct Hcase as [[Ha2 Hno2] | (Hs2 & Hle2 & Hin2 & Hall2)].
  - split; [intros o Hin; destruct (Hno2 o Hin) |]. left.
    destruct Ha2 as [Hp2 Ht2]. split; [done |]. split; [done |]. split.
    + intros Hlt. unfold fire. rewrite Ht2.
      destruct (Z.leb_spec (now s0 + eff_delay (timeout s0)) (now s2)); [lia | done].
    + intros Hle. unfold fire. rewrite Ht2.
      destruct (Z.leb_spec (now s0 + eff_delay (timeout s0)) (now s2)); [| lia].
      simpl. split; [done |]. apply lookup_delete_eq.
  - split; [exact Hall2 |]. right. split; [apply Hs2 |]. split; done.
Qed.

Lemma request_times_out_witness :
  reachable ws_init /\ isConnected ws_init = true /\
  ((transport ws_init = "websocket" /\ readyState ws_init = ROpen) \/
   transport ws_init = "stdio") /\
  connection ws_init <> None /\
  Forall (quiet_input (requestId ws_init + 1)) [IAdvance 30000; IFire 1%nat] /\
  ((forall tr d mx, timeout (create tr None d mx) = 30000 /\
                    timeout (create tr (Some 0) d mx) = 30000) /\
   exists s1 s2 outs2,
    send_request ws_init "a" jempty =
      (s1, [OSend (request_msg (requestId ws_init + 1) "a" jempty)],
       Some (requestId ws_init + 1)) /\
    run s1 [IAdvance 30000; IFire 1%nat] = (s2, outs2) /\
    (forall o, In (OSettle (requestId ws_init + 1) o) outs2 -> o = Rejected "Request timeout") /\
    ((pendingRequests s2 !! (requestId ws_init + 1) = Some (next_timer ws_init) /\
      timers s2 !! next_timer ws_init =
        Some (now ws_init + eff_delay (timeout ws_init), TTimeout (requestId ws_init + 1)) /\
      (now s2 < now ws_init + eff_delay (timeout ws_init) ->
         fire s2 (next_timer ws_init) = (s2, [])) /\
      (now ws_init + eff_delay (timeout ws_init) <= now s2 ->
         (fire s2 (next_timer ws_init)).2 =
           [OSettle (requestId ws_init + 1) (Rejected "Request timeout")] /\
         pendingRequests (fire s2 (next_timer ws_init)).1 !! (requestId ws_init + 1) = None)) \/
     (pendingRequests s2 !! (requestId ws_init + 1) = None /\
      now ws_init + eff_delay (timeout ws_init) <= now s2 /\
      In (OSettle (requestId ws_init + 1) (Rejected "Request timeout")) outs2))).
Proof.
  assert (Hr : reachable ws_init)
    by (exists (Some "websocket"), None, None, None, None, [IConnect; IOpen]; reflexivity).
  assert (Hc : isConnected ws_init = true) by reflexivity.
  assert (Ht : (transport ws_init = "websocket" /\ readyState ws_init = ROpen) \/
               transport ws_init = "stdio")
    by (left; split; reflexivity).
  assert (Hn : connection ws_init <> None) by (vm_compute; discriminate).
  assert (Hq : Forall (quiet_input (requestId ws_init + 1)) [IAdvance 30000; IFire 1%nat])
    by (repeat constructor).
  split; [exact Hr |]. split; [exact Hc |]. split; [exact Ht |]. split; [exact Hn |].
  split; [exact Hq |].
  exact (request_times_out ws_init "a" jempty [IAdvance 30000; IFire 1%nat] Hr Hc Ht Hn Hq).
Defined.

(** C4 counterexample: a request that never gets a response can be
    rejected at once with another error.  On the websocket session a request
    followed by [disconnect()] is rejected with "Connection closed" at time
    0; on an sse session the initialize request sent when the transport
    opens is rejected at once with the sse send error; and after a second
    connect() on an open websocket session (still connected, new socket
    CONNECTING) a request is rejected at once by the socket's [send]. *)
Lemma request_rejected_without_timeout :
  In (OSettle 2 (Rejected "Connection closed"))
     (run ws_init [ISendRequest "a" jempty; IDisconnect]).2 /\
  now (run ws_init [ISendRequest "a" jempty; IDisconnect]).1 = 0 /\
  In (OSettle 1 (Rejected sse_send_error)) (run sse0 [IConnect; IOpen]).2 /\
  In (OSettle 2 (Rejected "WebSocket is not open: readyState 0 (CONNECTING)"))
     (run ws0 [IConnect; IOpen; IConnect; ISendRequest "a" jempty]).2 /\
  now (run ws0 [IConnect; IOpen; IConnect; ISendRequest "a" jempty]).1 = 0.
Proof.
  split; [| split; [| split; [| split]]].
  - vm_compute. repeat (first [left; reflexivity | right]).
  - vm_compute. reflexivity.
  - vm_compute. repeat (first [left; reflexivity | right]).
  - vm_compute. repeat (first [left; reflexivity | right]).
  - vm_compute. reflexivity.
Qed.

(** C7 (as the code does it): [_handleReconnect] schedules nothing unless
    [shouldReconnect] is true and [reconnectAttempts < maxReconnectAttempts];
    otherwise it increments the counter, emits [reconnecting] with the new
    count and sets a timer for a retry after the fixed [reconnectDelay].  The
    websocket close and stdio exit handlers end in it.  Every input but the
    transport opening only adds its reconnections to the counter, and the
    opening of a connection resets the counter to 0; so, between two
    openings, at most [maxReconnectAttempts - reconnectAttempts]
    reconnections are scheduled.  After [disconnect()] no reconnection is
    ever scheduled again. *)
Theorem reconnect_bounded :
  (forall s : session,
     shouldReconnect s = false \/ maxReconnectAttempts s <= reconnectAttempts s ->
     handle_reconnect s = (s, [])) /\
  (forall s : session,
     shouldReconnect s = true -> reconnectAttempts s < maxReconnectAttempts s ->
     (handle_reconnect s).2 = [OEmit (EvReconnecting (reconnectAttempts s + 1))] /\
     reconnectAttempts (handle_reconnect s).1 = reconnectAttempts s + 1 /\
     timers (handle_reconnect s).1 !! next_timer s =
       Some (now s + eff_delay (reconnectDelay s), TReconnect)) /\
  (forall (s : session) (code : option Z), transport s <> "sse" ->
     (on_close s code).1 = (handle_reconnect (set_isConnected s false)).1 /\
     exists pre, (on_close s code).2 = pre ++ (handle_reconnect (set_isConnected s false)).2 /\
                 reconnecting_count pre = 0%nat) /\
  (forall (s : session) (i : input), is_open i = false ->
     reconnectAttempts (step s i).1 =
       reconnectAttempts s + Z.of_nat (reconnecting_count (step s i).2) /\
     (reconnecting_count (step s i).2 <> 0%nat ->
        reconnecting_count (step s i).2 = 1%nat /\ shouldReconnect s = true /\
        reconnectAttempts s < maxReconnectAttempts s)) /\
  (forall s : session,
     reconnecting_count (step s IOpen).2 = 0%nat /\
     (connecting s <> None -> reconnectAttempts (step s IOpen).1 = 0)) /\
  (forall (s : session) (is : list input), Forall (fun i => is_open i = false) is ->
     (reconnecting_count (run s is).2 <=
        Z.to_nat (maxReconnectAttempts s - reconnectAttempts s))%nat) /\
  (forall (s : session) (is : list input),
     shouldReconnect (run s (IDisconnect :: is)).1 = false /\
     reconnecting_count (run s (IDisconnect :: is)).2 = 0%nat).
Proof.
  split; [| split; [| split; [| split; [| split; [| split]]]]].
  - intros s H. destruct (handle_reconnect_spec s) as [[He _] | (Hs & Hlt & _)]; [done |].
    destruct H; [congruence | lia].
  - intros s Hs Hlt.
    destruct (handle_reconnect_spec s) as [[_ [H | H]] | (_ & _ & s' & t & Ht & ->)];
      [congruence | lia |].
    destruct (set_timeout_spec _ _ _ _ _ Ht) as (-> & Htm & _ & _ & _ & Hc).
    destruct Hc as (_ & _ & _ & _ & _ & _ & Ha & _).
    simpl. split; [done |]. split; [rewrite Ha; done |].
    rewrite Htm. apply lookup_insert_eq.
  - intros s code Hn. unfold on_close. apply String.eqb_neq in Hn. rewrite Hn. cbv zeta.
    destruct (handle_reconnect (set_isConnected s false)) as [s1 outs]. simpl.
    split; [done |].
    exists (OEmit EvDisconnected ::
              (if String.eqb (transport s) "stdio" && negb (bool_decide (code = Some 0))
               then [OEmit (EvError ("Server exited with code " ++ code_string code)%string)]
               else [])).
    split; [| by destruct (_ && _)].
    destruct (_ && _); reflexivity.
  - intros s i Hi. destruct (step_rstep s i Hi) as (_ & _ & C & D). split; [done |].
    intros Hc. destruct D as [D | D]; [done | exact D].
  - intros s. destruct (step_open s) as (H1 & _ & _ & H2 & _). done.
  - intros s is Hq. destruct (run_open_free s is Hq) as (_ & Ha & Hle). lia.
  - intros s is. rewrite run_cons. change (step s IDisconnect) with (disconnect s).
    assert (Hd : shouldReconnect (disconnect s).1 = false).
    { unfold disconnect. cbn. destruct (connection s); reflexivity. }
    destruct (run_no_reconnect (disconnect s).1 is Hd) as [H1 H2].
    cbn [fst snd]. rewrite reconnecting_count_app, rc_disconnect, H2. done.
Qed.

(** C7 counterexample: with [maxReconnectAttempts] 1, after the first close
    the counter is at the maximum; the scheduled retry opens a connection,
    which resets the counter, and the next close schedules a reconnection
    again: reaching the maximum does not disable reconnection for good. *)
Lemma reconnect_after_max :
  reconnectAttempts (run ws_max1 [IConnect; IOpen; IClose None]).1 = 1 /\
  maxReconnectAttempts (run ws_max1 [IConnect; IOpen; IClose None]).1 = 1 /\
  In (OEmit (EvReconnecting 1))
     (run (run ws_max1 [IConnect; IOpen; IClose None]).1
          [IAdvance 5000; IFire 1%nat; IOpen; IClose None]).2.
Proof.
  split; [vm_compute; reflexivity |]. split; [vm_compute; reflexivity |].
  vm_compute. repeat (first [left; reflexivity | right]).
Qed.

End SessionClaims.


(* ===================================================================== *)
(** * Claims on the decoders                                             *)
(* ===================================================================== *)

Module DecoderClaims.
Import Decoder DecoderScenarios DecoderFacts.

(** C5 (as the code does it): the line loops of the stdio transport and of
    generateStream split the buffered text at newlines: from an empty
    buffer, the lines they see over a stream are the complete lines of the
    concatenated input (each piece before the last newline), in order, and
    the buffer then holds the trailing partial line, whatever the lines
    decode to.  The stdio handler produces one outcome per complete line:
    nothing for a blank line, the parsed message for a line JSON.parse
    accepts, and an 'error' event for one it rejects.  generateStream hands
    each complete line to [onChunk] in the same way (a line that does not
    decode to a truthy chunk is skipped without an error) as long as no
    complete line decodes to a terminal chunk; within one 'data' event a
    terminal chunk is the last one delivered (the lines after it in that
    event are dropped), while each later event is still processed on its
    own lines.  The chunks {"id":1,"resu and lt":{}} plus a newline give
    exactly the message {id:1,result:{}} and an empty buffer, in both
    loops. *)
Theorem chunked_lines (parse : string -> option json) (fmt : string) (chunks : list string) :
  stdio_run parse EmptyString chunks =
    (List.last (split_nl (join chunks)) EmptyString,
     flat_map (stdio_line parse) (List.removelast (split_nl (join chunks)))) /\
  (Forall (no_terminal parse fmt) (List.removelast (split_nl (join chunks))) ->
   stream_run parse fmt EmptyString chunks =
    (List.last (split_nl (join chunks)) EmptyString,
     flat_map (stream_line parse fmt) (List.removelast (split_nl (join chunks))))) /\
  (stream_run parse fmt EmptyString chunks).1 = List.last (split_nl (join chunks)) EmptyString /\
  (forall b c cs,
     stream_run parse fmt b (c :: cs) =
       ((stream_run parse fmt (feed b c).2 cs).1,
        stream_lines parse fmt (feed b c).1 ++ (stream_run parse fmt (feed b c).2 cs).2)) /\
  (forall pre l post pc,
     Forall (no_terminal parse fmt) pre -> blank l = false ->
     parse_stream_chunk parse fmt l = Some pc -> truthy pc = true -> terminal fmt pc = true ->
     stream_lines parse fmt (pre ++ l :: post) = flat_map (stream_line parse fmt) pre ++ [pc]) /\
  stdio_run json_parse EmptyString [ex_chunk1; ex_chunk2] = (EmptyString, [SMessage ex_msg]) /\
  stream_run json_parse "deepseek" EmptyString [ex_chunk1; ex_chunk2] = (EmptyString, [ex_msg]).
Proof.
  pose proof (feed_all_spec EmptyString chunks eq_refl) as Hf.
  unfold split_nl in *. split_and!.
  - by rewrite stdio_run_feed, Hf.
  - intros Hn. rewrite stream_run_feed; rewrite Hf; [reflexivity | exact Hn].
  - by rewrite stream_run_buffer, Hf.
  - intros b c cs. cbn [stream_run]. unfold stream_data.
    destruct (feed b c) as [ls b1]. cbn [fst snd].
    destruct (stream_run parse fmt b1 cs). reflexivity.
  - exact (stream_lines_terminal parse fmt).
  - reflexivity.
  - reflexivity.
Qed.

(** C5, counterexample: a malformed stdio line is not skipped silently but
    raises the client's 'error' event; and in generateStream a line that
    follows a terminal chunk in the same 'data' event is dropped, while the
    same two lines arriving in two events are both delivered. *)
Lemma decoder_lines_not_silent :
  stdio_run json_parse EmptyString [("oops" ++ nl)%string] = (EmptyString, [SParseError]) /\
  stream_run json_parse "deepseek" EmptyString [two_lines] = (EmptyString, [final_msg]) /\
  stream_run json_parse "deepseek" EmptyString [(final_line ++ nl)%string; (late_line ++ nl)%string]
    = (EmptyString, [final_msg; late_msg]).
Proof. split_and!; reflexivity. Qed.

(** C6: [_parseStreamChunk] reads the [apiFormat] shape.  With "deepseek"
    the shape-A line {"response":"hi","done":false} is returned as parsed:
    response "hi", done false.  With "openai" the shape-B frame
    data: {"choices":[{"delta":{"content":"hi"},"finish_reason":null}]} is
    normalized to response "hi", done false (with the parsed frame as
    _original), for any JSON.parse that reads the frame's JSON as JSON does;
    and data: [DONE] gives {done: true}, with no response, for any
    JSON.parse.  Neither "hi" chunk ends the stream loop; the [DONE] one
    does. *)
Theorem stream_chunk_shapes :
  parse_stream_chunk json_parse "deepseek" shapeA_line =
    Some (JObj [("response", JStr "hi"); ("done", JBool false)]) /\
  (forall parse, parse shapeB_json = Some shapeB_value ->
    parse_stream_chunk parse "openai" shapeB_frame =
      Some (JObj [("response", JStr "hi"); ("done", JBool false); ("_original", shapeB_value)])) /\
  json_parse shapeB_json = Some shapeB_value /\
  (forall parse, parse_stream_chunk parse "openai" done_frame = Some (JObj [("done", JBool true)])) /\
  get (JObj [("done", JBool true)]) "response" = None /\
  terminal "deepseek" (JObj [("response", JStr "hi"); ("done", JBool false)]) = false /\
  terminal "openai"
    (JObj [("response", JStr "hi"); ("done", JBool false); ("_original", shapeB_value)]) = false /\
  terminal "openai" (JObj [("done", JBool true)]) = true.
Proof.
  split_and!; try reflexivity.
  intros parse Hp.
  assert (E : substring 6 (String.length shapeB_frame - 6) shapeB_frame = shapeB_json)
    by reflexivity.
  unfold parse_stream_chunk. rewrite E, Hp. reflexivity.
Qed.

End DecoderClaims.


(* ===================================================================== *)
(** * Request ids and writes over whole runs                             *)
(* ===================================================================== *)

Module SessionWrites.
Import Session SessionFacts SessionRouting SessionControl Observe.
Local Open Scope Z_scope.

Lemma sends_app (l1 l2 : list output) : sends (l1 ++ l2) = sends l1 ++ sends l2.
Proof. induction l1 as [| [] l1 IH]; simpl; rewrite ?IH; done. Qed.

Lemma sends_disconnect (s : session) : sends (disconnect s).2 = [].
Proof.
  unfold disconnect. cbn [snd]. generalize (map_to_list (pendingRequests
    (match connection (set_isConnected (set_shouldReconnect s false) false) with
     | Some _ => set_connection (set_isConnected (set_shouldReconnect s false) false) None
     | None => set_isConnected (set_shouldReconnect s false) false end))).
  intros l. induction l; done.
Qed.

Lemma req_step_quiet (s s' : session) (outs : list output) :
  transport s' = transport s -> requestId s' = requestId s -> sends outs = [] ->
  req_step s s' outs.
Proof.
  intros Ht Hr Hs. unfold req_step. rewrite Hs.
  split; [done | split; [done | split; [constructor | by left]]].
Qed.

Lemma req_step_nil (s s' : session) (outs : list output) :
  req_step s s' outs -> req_step s s' [].
Proof.
  intros (Ht & _ & _ & [[Hr _] | [Hr _]]);
    (split; [done | split; [done | split; [constructor |]]]); [by left | by right; split; [| left]].
Qed.

Lemma req_step_app_quiet (s s' : session) (outs extra : list output) :
  req_step s s' outs -> sends extra = [] -> req_step s s' (outs ++ extra).
Proof. intros H He. unfold req_step. rewrite sends_app, He, app_nil_r. exact H. Qed.

Lemma send_message_writes (s : session) :
  send_message s = Sent -> writes (transport s) = true.
Proof.
  unfold send_message, writes.
  destruct (String.eqb (transport s) "websocket"); [done |].
  destruct (String.eqb (transport s) "stdio"); [done |].
  destruct (String.eqb (transport s) "sse"); discriminate.
Qed.

Lemma req_step_send_request (s : session) (m : string) (p : json) :
  req_step s (send_request s m p).1.1 (send_request s m p).1.2.
Proof.
  destruct (send_request_cases s m p) as [[_ ->] | [_ (s' & id & t & Hr & ->)]];
    [by apply req_step_quiet |].
  destruct (register_request_spec _ _ _ _ Hr) as (-> & _ & Hid & _ & _ & _ & Hc).
  destruct Hc as (Ht & _). simpl.
  destruct (send_message s') eqn:E.
  - split; [exact Ht |]. split; [intros Hw; rewrite <- Ht in Hw; by rewrite send_message_writes in Hw |].
    split; [constructor; [intros Hh; discriminate Hh | constructor] |].
    right. split; [exact Hid |]. right. exists m, p. by rewrite Hid.
  - split; [exact Ht | split; [done | split; [constructor | right; split; [exact Hid | by left]]]].
  - split; [exact Ht | split; [done | split; [constructor | right; split; [exact Hid | by left]]]].
Qed.

Lemma req_step_send_notification (s : session) (m : string) (p : json) :
  req_step s (send_notification s m p).1 (send_notification s m p).2.
Proof.
  unfold send_notification. destruct (isConnected s); simpl; [| by apply req_step_quiet].
  destruct (send_message s) eqn:E; [| by apply req_step_quiet | by apply req_step_quiet].
  split; [done |]. split; [intros Hw; by rewrite send_message_writes in Hw |].
  split; [constructor; [intros _; by exists m, p | constructor] |]. by left.
Qed.

Lemma handle_reconnect_quiet (s : session) :
  transport (handle_reconnect s).1 = transport s /\
  requestId (handle_reconnect s).1 = requestId s /\ sends (handle_reconnect s).2 = [].
Proof.
  destruct (handle_reconnect_spec s) as [[-> _] | (_ & _ & s' & t & Ht & ->)]; [done |].
  destruct (set_timeout_spec _ _ _ _ _ Ht) as (_ & _ & _ & Hr & _ & Hc).
  destruct Hc as (Htr & _). split; [exact Htr | split; [exact Hr | done]].
Qed.

Lemma req_step_handle_notification (s : session) (n : json) :
  req_step s (handle_notification s n).1 (handle_notification s n).2.
Proof.
  assert (Hb : forall m, req_step s (background_list s m).1 (background_list s m).2).
  { intros m. unfold background_list. pose proof (req_step_send_request s m jempty) as H.
    destruct (send_request s m jempty) as [[s' outs] [id |]]; simpl in *;
      [exact H | exact (req_step_nil _ _ _ H)]. }
  assert (Hq : req_step s s [OEmit (EvNotification n)]) by (by apply req_step_quiet).
  unfold handle_notification.
  destruct (get n "method") as [[| | | m | |] |]; try exact Hq.
  repeat match goal with
  | |- context [if String.eqb ?a ?b then _ else _] => destruct (String.eqb a b)
  end; try (by apply req_step_quiet);
  match goal with
  | |- context [background_list s ?m] =>
      pose proof (Hb m) as H; destruct (background_list s m) as [s1 outs];
      destruct H as (H1 & H2 & H3 & H4); (split; [exact H1 | split; [exact H2 | split; [exact H3 | exact H4]]])
  end.
Qed.

Lemma req_step_handle_message (s : session) (msg : json) :
  req_step s (handle_message s msg).1.1 (handle_message s msg).1.2.
Proof.
  destruct (decide (msg = JNull)) as [-> | Hnn]; [by apply req_step_quiet |].
  rewrite (handle_message_nonnull s msg Hnn).
  destruct (truthy_opt _).
  - destruct (pending_hit _ _) as [[n t] |];
      [cbv zeta; destruct (response_outcome msg) |]; by apply req_step_quiet.
  - pose proof (req_step_handle_notification s msg) as H.
    destruct (handle_notification s msg). exact H.
Qed.

Lemma req_step_step (s : session) (i : input) : req_step s (step s i).1 (step s i).2.
Proof.
  destruct i as [| | m p | m p | | msg | code | msg | d | t]; simpl.
  - unfold connect. destruct (known_transport _); [destruct (transport_error s) |];
      by apply req_step_quiet.
  - change (req_step s (disconnect s).1 (disconnect s).2).
    apply req_step_quiet; [| | exact (sends_disconnect s)];
      unfold disconnect; simpl; repeat case_match; reflexivity.
  - pose proof (req_step_send_request s m p) as H.
    destruct (send_request s m p) as [[s' outs] o]. exact H.
  - apply req_step_send_notification.
  - unfold on_open. destruct (connecting s); [| by apply req_step_quiet].
    set (s1 := set_reconnectAttempts _ _).
    pose proof (req_step_send_request s1 "initialize" init_params) as H.
    destruct (send_request s1 "initialize" init_params) as [[s2 outs] o2].
    destruct H as (H1 & H2 & H3 & H4). split; [exact H1 |].
    split; [| split; [| exact H4]]; [exact H2 | exact H3].
  - unfold on_error. destruct (String.eqb _ _).
    + destruct (handle_reconnect_quiet s) as (H1 & H2 & H3).
      destruct (handle_reconnect s) as [s1 outs]. apply req_step_quiet; [exact H1 | exact H2 |].
      simpl. exact H3.
    + destruct (connecting s) as [[] |]; by apply req_step_quiet.
  - unfold on_close. destruct (String.eqb _ _); [by apply req_step_quiet |].
    destruct (handle_reconnect_quiet (set_isConnected s false)) as (H1 & H2 & H3).
    destruct (handle_reconnect (set_isConnected s false)) as [s1 outs].
    cbn [fst snd] in H1, H2, H3 |- *.
    apply req_step_quiet; [exact H1 | exact H2 |].
    rewrite !sends_app, H3. by destruct (_ && _).
  - pose proof (req_step_handle_message s msg) as H.
    destruct (handle_message s msg) as [[s1 outs] err]. simpl in H.
    apply req_step_app_quiet; [exact H |]. by destruct err.
  - destruct (0 <=? d); by apply req_step_quiet.
  - unfold fire. destruct (timers s !! t) as [[dl cb] |]; [| by apply req_step_quiet].
    destruct (dl <=? now s); [| by apply req_step_quiet].
    destruct cb; simpl; [by apply req_step_quiet |].
    unfold connect. destruct (known_transport _); [destruct (transport_error _) |];
      by apply req_step_quiet.
Qed.

Lemma run_transport_quiet (s : session) (is : list input) :
  transport (run s is).1 = transport s /\
  (writes (transport s) = false -> sends (run s is).2 = []).
Proof.
  revert s. induction is as [| i is IH]; intros s; [done |].
  rewrite run_cons. cbn [fst snd]. destruct (req_step_step s i) as (Ht & Hw0 & _).
  destruct (IH (step s i).1) as [IHt IHs]. rewrite Ht in IHt, IHs.
  split; [exact IHt |]. intros Hw. rewrite sends_app, (IHs Hw), (Hw0 Hw). done.
Qed.

Lemma unconnected_step (s : session) (i : input) :
  known_transport (transport s) = false -> unconnected s ->
  known_transport (transport (step s i).1) = false /\ unconnected (step s i).1.
Proof.
  intros Hk Hu. rewrite (proj1 (req_step_step s i)). split; [exact Hk |].
  destruct Hu as (Hi & Hn & Hc).
  assert (Hsse : String.eqb (transport s) "sse" = false).
  { unfold known_transport in Hk. by destruct (String.eqb (transport s) "sse"). }
  destruct i as [| | m p | m p | | msg | code | msg | d | t]; simpl.
  - unfold connect. rewrite Hk. done.
  - unfold disconnect, unconnected. simpl. rewrite Hc. done.
  - destruct (send_request_cases s m p) as [[_ ->] | [Hi' _]]; [done | congruence].
  - unfold send_notification. rewrite Hi. done.
  - unfold on_open. rewrite Hn. done.
  - unfold on_error. rewrite Hsse, Hn. unfold unconnected. simpl. done.
  - unfold on_close. rewrite Hsse.
    destruct (handle_reconnect_spec (set_isConnected s false))
      as [[-> _] | (_ & _ & s' & t & Ht & ->)]; [done |].
    destruct (set_timeout_spec _ _ _ _ _ Ht) as (_ & _ & _ & _ & _ & Hs).
    destruct Hs as (_ & _ & _ & _ & Hc' & Hi' & _ & _ & _ & Hn' & _).
    simpl in Hc', Hi', Hn' |- *. unfold unconnected. rewrite Hc', Hi', Hn'. done.
  - pose proof (same_ctl_handle_message s msg) as (_ & _ & _ & _ & Hc' & Hi' & _ & _ & _ & Hn' & _).
    destruct (handle_message s msg) as [[s1 outs] err]. simpl in *.
    unfold unconnected. rewrite Hc', Hi', Hn'. done.
  - destruct (0 <=? d); done.
  - unfold fire. destruct (timers s !! t) as [[dl cb] |]; [| done].
    destruct (dl <=? now s); [| done].
    destruct cb; simpl; [done |].
    unfold connect. simpl. rewrite Hk. done.
Qed.

Lemma unconnected_run (s : session) (is : list input) :
  known_transport (transport s) = false -> unconnected s -> unconnected (run s is).1.
Proof.
  revert s. induction is as [| i is IH]; intros s Hk Hu; [done |].
  rewrite run_cons. cbn [fst]. destruct (unconnected_step s i Hk Hu). by apply IH.
Qed.

End SessionWrites.


(* ===================================================================== *)
(** * Properties of whole MCPClient sessions                             *)
(* ===================================================================== *)

Module SessionExtras.
Import Session SessionFacts Observe SessionWrites.
Local Open Scope Z_scope.

(** X1: over any run, the requests written to the transport (the writes
    with an [id] member) carry JSON-RPC ids that strictly increase, all
    above the counter the run started from and at most the counter it ends
    with; every write without an id is a notification
    [{jsonrpc: "2.0", method, params}] written by [sendNotification]. *)
Theorem request_ids_increase (s : session) (is : list input) :
  exists l : list (Z * string * json),
    List.filter has_id (sends (run s is).2) = map (fun '(id, m, p) => request_msg id m p) l /\
    StronglySorted Z.lt (map (fun '(id, _, _) => id) l) /\
    Forall (fun '(id, _, _) => requestId s < id <= requestId (run s is).1) l /\
    Forall (fun m => has_id m = false -> exists me p, m = notification_msg me p)
      (sends (run s is).2).
Proof.
  cut (exists l : list (Z * string * json),
    List.filter has_id (sends (run s is).2) = map (fun '(id, m, p) => request_msg id m p) l /\
    StronglySorted Z.lt (map (fun '(id, _, _) => id) l) /\
    Forall (fun '(id, _, _) => requestId s < id <= requestId (run s is).1) l /\
    Forall (fun m => has_id m = false -> exists me p, m = notification_msg me p)
      (sends (run s is).2) /\
    requestId s <= requestId (run s is).1);
    [intros (l & H1 & H2 & H3 & H4 & _); exists l; done |].
  revert s. induction is as [| i is IH]; intros s.
  { exists []. simpl. repeat split; [constructor | constructor | constructor | lia]. }
  rewrite run_cons. cbn [fst snd]. destruct (req_step_step s i) as (_ & _ & Hn & Hs).
  destruct (IH (step s i).1) as (l & H1 & H2 & H3 & H4 & H5).
  rewrite sends_app, List.filter_app, H1.
  assert (Hn' : Forall (fun m => has_id m = false -> exists me p, m = notification_msg me p)
                  (sends (step s i).2 ++ sends (run (step s i).1 is).2))
    by (apply Forall_app; split; [exact Hn | exact H4]).
  destruct Hs as [[Hr ->] | [Hr [-> | (m & p & ->)]]].
  - exists l. rewrite Hr in H3, H5. split; [done | split; [done | split; [done | split; [done | lia]]]].
  - exists l. split; [done | split; [done | split; [| split; [done | lia]]]].
    eapply Forall_impl; [exact H3 |]. intros [[id m] p]. lia.
  - exists ((requestId (step s i).1, m, p) :: l). split; [| split; [| split; [| split]]].
    + done.
    + simpl. constructor; [exact H2 |].
      apply Forall_map. eapply Forall_impl; [exact H3 |]. intros [[id m'] p'] Hx. simpl. lia.
    + constructor; [lia |]. eapply Forall_impl; [exact H3 |]. intros [[id m'] p']. lia.
    + exact Hn'.
    + lia.
Qed.

Lemma request_ids_increase_witness :
  sends (run (create (Some "websocket") None None None)
           [IConnect; IOpen; ISendRequest "tools/list" jempty;
            ISendNotification "notifications/initialized" jempty; ISendRequest "ping" jempty]).2 =
  [request_msg 1 "initialize" init_params; request_msg 2 "tools/list" jempty;
   notification_msg "notifications/initialized" jempty; request_msg 3 "ping" jempty] /\
  exists l : list (Z * string * json),
    List.filter has_id
      (sends (run (create (Some "websocket") None None None)
                [IConnect; IOpen; ISendRequest "tools/list" jempty;
                 ISendNotification "notifications/initialized" jempty;
                 ISendRequest "ping" jempty]).2) =
      map (fun '(id, m, p) => request_msg id m p) l /\
    StronglySorted Z.lt (map (fun '(id, _, _) => id) l) /\
    Forall (fun '(id, _, _) =>
      requestId (create (Some "websocket") None None None) < id <=
      requestId (run (create (Some "websocket") None None None)
                   [IConnect; IOpen; ISendRequest "tools/list" jempty;
                    ISendNotification "notifications/initialized" jempty;
                    ISendRequest "ping" jempty]).1) l /\
    Forall (fun m => has_id m = false -> exists me p, m = notification_msg me p)
      (sends (run (create (Some "websocket") None None None)
                [IConnect; IOpen; ISendRequest "tools/list" jempty;
                 ISendNotification "notifications/initialized" jempty;
                 ISendRequest "ping" jempty]).2).
Proof.
  split; [reflexivity |].
  exact (request_ids_increase _ _).
Defined.

(** X2: a session whose transport is neither websocket nor stdio (an sse
    session included) never writes anything, whatever it is sent: its
    [_sendMessage] only queues or throws. *)
Theorem non_writing_transport_silent (s : session) (is : list input)
    (Hw : transport s <> "websocket") (Hs : transport s <> "stdio") :
  sends (run s is).2 = [].
Proof.
  apply (proj2 (run_transport_quiet s is)). unfold writes.
  destruct (String.eqb_spec (transport s) "websocket"); [done |].
  destruct (String.eqb_spec (transport s) "stdio"); done.
Qed.

Lemma non_writing_transport_silent_witness :
  transport (create (Some "sse") None None None) <> "websocket" /\
  transport (create (Some "sse") None None None) <> "stdio" /\
  sends (run (create (Some "sse") None None None)
           [IConnect; IOpen; ISendRequest "tools/list" jempty]).2 = [].
Proof.
  split; [discriminate | split; [discriminate |]].
  apply non_writing_transport_silent; discriminate.
Defined.

(** X3: a client configured with a transport other than sse, websocket
    and stdio never gets a transport object and never becomes connected,
    whatever happens, and writes nothing: each connect() throws
    "Unsupported transport". *)
Theorem unknown_transport_never_connects (x : string) (to d mx : option Z) (is : list input)
    (Hk : known_transport x = false) (Hx : x <> "") :
  isConnected (run (create (Some x) to d mx) is).1 = false /\
  connection (run (create (Some x) to d mx) is).1 = None /\
  sends (run (create (Some x) to d mx) is).2 = [].
Proof.
  assert (Ht : transport (create (Some x) to d mx) = x).
  { simpl. destruct (String.eqb_spec x ""); done. }
  assert (Hu : unconnected (run (create (Some x) to d mx) is).1).
  { apply unconnected_run; [by rewrite Ht | done]. }
  destruct Hu as (Hi & _ & Hc). split; [exact Hi | split; [exact Hc |]].
  apply (proj2 (run_transport_quiet _ is)). rewrite Ht. unfold writes.
  unfold known_transport in Hk.
  destruct (String.eqb x "websocket"), (String.eqb x "stdio"); simpl in Hk |- *;
    rewrite ?orb_true_r in Hk; done.
Qed.

Lemma unknown_transport_never_connects_witness :
  known_transport "tcp" = false /\ "tcp" <> "" /\
  isConnected (run (create (Some "tcp") None None None) [IConnect; IOpen; IMessage jempty]).1 = false /\
  connection (run (create (Some "tcp") None None None) [IConnect; IOpen; IMessage jempty]).1 = None /\
  sends (run (create (Some "tcp") None None None) [IConnect; IOpen; IMessage jempty]).2 = [].
Proof.
  split; [reflexivity | split; [discriminate |]].
  apply unknown_transport_never_connects; [reflexivity | discriminate].
Defined.

(** X4: in every session a client can reach, each pending request has an
    id in 1..requestId and a live timer that will time it out under its
    own id; no two pending requests share a timer. *)
Theorem pending_requests_own_timers (s : session) (Hr : reachable s) :
  (forall k t, pendingRequests s !! k = Some t ->
     0 < k <= requestId s /\ exists dl, timers s !! t = Some (dl, TTimeout k)) /\
  (forall k1 k2 t, pendingRequests s !! k1 = Some t -> pendingRequests s !! k2 = Some t ->
     k1 = k2).
Proof.
  destruct (reachable_inv s Hr) as (_ & Hp & _).
  split; [exact Hp |].
  intros k1 k2 t H1 H2.
  destruct (Hp _ _ H1) as (_ & dl1 & E1). destruct (Hp _ _ H2) as (_ & dl2 & E2).
  rewrite E1 in E2. congruence.
Qed.

Lemma pending_requests_own_timers_witness :
  reachable (run (create (Some "websocket") None None None)
               [IConnect; IOpen; ISendRequest "tools/list" jempty]).1 /\
  pendingRequests (run (create (Some "websocket") None None None)
               [IConnect; IOpen; ISendRequest "tools/list" jempty]).1 = {[1 := 0%nat; 2 := 1%nat]} /\
  ((forall k t, pendingRequests (run (create (Some "websocket") None None None)
               [IConnect; IOpen; ISendRequest "tools/list" jempty]).1 !! k = Some t ->
     0 < k <= requestId (run (create (Some "websocket") None None None)
               [IConnect; IOpen; ISendRequest "tools/list" jempty]).1 /\
     exists dl, timers (run (create (Some "websocket") None None None)
               [IConnect; IOpen; ISendRequest "tools/list" jempty]).1 !! t = Some (dl, TTimeout k)) /\
   (forall k1 k2 t,
     pendingRequests (run (create (Some "websocket") None None None)
               [IConnect; IOpen; ISendRequest "tools/list" jempty]).1 !! k1 = Some t ->
     pendingRequests (run (create (Some "websocket") None None None)
               [IConnect; IOpen; ISendRequest "tools/list" jempty]).1 !! k2 = Some t ->
     k1 = k2)).
Proof.
  assert (Hr : reachable (run (create (Some "websocket") None None None)
               [IConnect; IOpen; ISendRequest "tools/list" jempty]).1)
    by (exists (Some "websocket"), None, None, None, None,
          [IConnect; IOpen; ISendRequest "tools/list" jempty]; reflexivity).
  split; [exact Hr | split; [vm_compute; reflexivity |]].
  exact (pending_requests_own_timers _ Hr).
Defined.

End SessionExtras.


(* ===================================================================== *)
(** * Lemmas on AIClient's helpers                                       *)
(* ===================================================================== *)

Module AIClientFacts.
Import Registry AIClientModel DecoderFacts.
Local Open Scope string_scope.

Lemma obj_lookup_put (o : obj) (k k' : string) (v : option json) :
  obj_lookup (obj_put o k v) k' = if String.eqb k' k then Some v else obj_lookup o k'.
Proof.
  induction o as [| [k1 v1] o IH]; simpl; [done |].
  destruct (String.eqb_spec k k1) as [-> |]; simpl.
  - by destruct (String.eqb k' k1).
  - rewrite IH. destruct (String.eqb_spec k' k1), (String.eqb_spec k' k); subst; done.
Qed.

Lemma spread_lookup (base : obj) (options : list (string * json)) (k : string) :
  obj_lookup (spread base options) k =
  match obj_get options k with Some v => Some (Some v) | None => obj_lookup base k end.
Proof.
  unfold spread. revert base. induction options as [| [k1 v1] options IH] using rev_ind;
    intros base; [done |].
  rewrite fold_left_app. simpl. rewrite obj_lookup_put, IH.
  assert (E : forall fs, obj_get (fs ++ [(k1, v1)]) k =
                        if String.eqb k k1 then Some v1 else obj_get fs k).
  { induction fs as [| [k2 v2] fs IHf]; simpl; [by destruct (String.eqb k k1) |].
    rewrite IHf. destruct (String.eqb k k1); [done |]. done. }
  rewrite E. destruct (String.eqb k k1); done.
Qed.

Lemma obj_get_app_last (fs : list (string * json)) (k : string) (v : json) :
  obj_get (fs ++ [(k, v)]) k = Some v.
Proof.
  induction fs as [| [k2 v2] fs IH]; simpl; [by rewrite String.eqb_refl | by rewrite IH].
Qed.

Lemma placeholder_shorter (s k r : string) :
  placeholder s = Some (k, r) -> String.length r < String.length s.
Proof.
  assert (Hw : forall t w r', word_prefix t = (w, r') -> String.length r' <= String.length t).
  { induction t as [| c t IH]; simpl; intros w r' H.
    - injection H as <- <-. simpl. lia.
    - destruct (is_word c); [| injection H as <- <-; simpl; lia].
      destruct (word_prefix t) as [w1 r1] eqn:E. injection H as <- <-.
      specialize (IH _ _ eq_refl). lia. }
  destruct s as [| a [| b r0]]; simpl; try discriminate.
  destruct (Ascii.eqb a "{" && Ascii.eqb b "{"); [| discriminate].
  destruct (word_prefix r0) as [w r1] eqn:E.
  destruct w as [| c w]; [discriminate |].
  destruct r1 as [| d [| e r']]; try discriminate.
  destruct (Ascii.eqb d "}" && Ascii.eqb e "}"); [| discriminate].
  intros H. injection H as <- <-. specialize (Hw _ _ _ E). simpl in Hw. lia.
Qed.

Lemma word_prefix_word (k r : string) :
  forallb is_word (list_ascii_of_string k) = true ->
  word_prefix (k ++ String "}" r) = (k, String "}" r).
Proof.
  induction k as [| c k IH]; [reflexivity |].
  rewrite string_app_cons. simpl. intros H. apply andb_true_iff in H as [Hc Hk].
  rewrite Hc, (IH Hk). reflexivity.
Qed.

Section Fuel.
Variable var : string -> option string.

Lemma replace_go_S (f : nat) (s : string) :
  replace_go var (S f) s =
  match placeholder s with
  | Some (k, r) =>
      ((match var k with Some v => v | None => "{{" ++ k ++ "}}" end) ++ replace_go var f r)%string
  | None => match s with EmptyString => EmptyString | String c r => String c (replace_go var f r) end
  end.
Proof. reflexivity. Qed.

Lemma replace_go_fuel (f g : nat) (s : string) :
  String.length s <= f -> String.length s <= g -> replace_go var f s = replace_go var g s.
Proof.
  revert g s. induction f as [| f IH]; intros g s Hf Hg.
  - destruct s; [| simpl in Hf; lia]. destruct g; reflexivity.
  - destruct g as [| g].
    + destruct s; [reflexivity | simpl in Hg; lia].
    + cbn [replace_go]. destruct (placeholder s) as [[k r] |] eqn:E.
      * apply placeholder_shorter in E. rewrite (IH g r); [reflexivity | lia | lia].
      * destruct s as [| c r]; [reflexivity |]. simpl in Hf, Hg.
        rewrite (IH g r); [reflexivity | lia | lia].
Qed.

Lemma replace_lit_cons (c : ascii) (r : string) :
  Ascii.eqb c "{" = false ->
  replace_template_variables var (String c r) = String c (replace_template_variables var r).
Proof.
  intros Hc. unfold replace_template_variables.
  assert (Hp : placeholder (String c r) = None).
  { unfold placeholder. destruct r; [reflexivity |]. rewrite Hc. reflexivity. }
  change (String.length (String c r)) with (S (String.length r)).
  rewrite replace_go_S, Hp. reflexivity.
Qed.

Lemma replace_hole (k r : string) :
  seg_ok (Hole k) = true ->
  replace_template_variables var (String "{" (String "{" (k ++ String "}" (String "}" r)))) =
  (seg_out var (Hole k) ++ replace_template_variables var r)%string.
Proof.
  intros H. simpl in H. apply andb_true_iff in H as [Hne Hw].
  assert (Hp : placeholder (String "{" (String "{" (k ++ String "}" (String "}" r)))) = Some (k, r)).
  { unfold placeholder. cbn [Ascii.eqb Bool.eqb andb]. rewrite word_prefix_word by exact Hw.
    destruct k; [done |]. reflexivity. }
  unfold replace_template_variables.
  change (String.length (String "{" (String "{" (k ++ String "}" (String "}" r)))))
    with (S (S (String.length (k ++ String "}" (String "}" r))))).
  rewrite replace_go_S, Hp. cbv beta iota.
  f_equal. apply replace_go_fuel; [| lia].
  clear. induction k as [| c k IH]; [simpl; lia |]. rewrite string_app_cons. simpl. lia.
Qed.

Lemma replace_lit (t r : string) :
  seg_ok (Lit t) = true ->
  replace_template_variables var (t ++ r) = (t ++ replace_template_variables var r)%string.
Proof.
  induction t as [| c t IH]; [reflexivity |]. simpl. intros H.
  apply negb_true_iff, orb_false_iff in H as [Hc Ht].
  rewrite string_app_cons, replace_lit_cons by exact Hc.
  rewrite IH; [reflexivity |]. simpl. by rewrite Ht.
Qed.

End Fuel.

Lemma drop_ws_head (l : list ascii) :
  match drop_ws l with [] => True | c :: _ => Decoder.js_ws c = false end.
Proof.
  induction l as [| c l IH]; simpl; [done |].
  destruct (Decoder.js_ws c) eqn:E; [exact IH | exact E].
Qed.

Lemma drop_ws_id (l : list ascii) :
  match l with [] => True | c :: _ => Decoder.js_ws c = false end -> drop_ws l = l.
Proof. destruct l as [| c l]; simpl; [done |]. intros ->. reflexivity. Qed.

Lemma drop_ws_suffix (l : list ascii) : exists p, l = (p ++ drop_ws l)%list.
Proof.
  induction l as [| c l [p Hp]]; simpl; [by exists [] |].
  destruct (Decoder.js_ws c); [exists (c :: p); simpl; by rewrite <- Hp | by exists []].
Qed.

Lemma trim_idem (s : string) : trim (trim s) = trim s.
Proof.
  unfold trim. rewrite list_ascii_of_string_of_list_ascii.
  pose proof (drop_ws_head (list_ascii_of_string s)) as HA.
  remember (drop_ws (list_ascii_of_string s)) as A eqn:EA. clear EA.
  pose proof (drop_ws_head (rev A)) as HB.
  destruct (drop_ws_suffix (rev A)) as [p Hp].
  remember (drop_ws (rev A)) as B eqn:EB. clear EB.
  assert (HrB : drop_ws (rev B) = rev B).
  { apply drop_ws_id.
    assert (HAe : A = (rev B ++ rev p)%list) by (rewrite <- rev_app_distr, <- Hp; symmetry; apply rev_involutive).
    destruct (rev B) as [| c r]; [done |]. rewrite HAe in HA. exact HA. }
  rewrite HrB, rev_involutive, (drop_ws_id B HB). reflexivity.
Qed.

Lemma list_ascii_app (a b : string) :
  list_ascii_of_string (a ++ b) = (list_ascii_of_string a ++ list_ascii_of_string b)%list.
Proof. induction a as [| c a IH]; [reflexivity |]. rewrite string_app_cons. simpl. by rewrite IH. Qed.

Lemma string_app_inv_r (a b s : string) : (a ++ s)%string = (b ++ s)%string -> a = b.
Proof.
  intros H. apply (f_equal list_ascii_of_string) in H. rewrite !list_ascii_app in H.
  apply app_inv_tail in H.
  rewrite <- (string_of_list_ascii_of_string a), <- (string_of_list_ascii_of_string b), H.
  reflexivity.
Qed.

Lemma string_length_app (a b : string) :
  String.length (a ++ b) = String.length a + String.length b.
Proof. induction a as [| c a IH]; [reflexivity |]. rewrite string_app_cons. simpl. by rewrite IH. Qed.

Lemma substring_app_r (a b : string) (m : nat) :
  substring (String.length a) m (a ++ b) = substring 0 m b.
Proof. induction a as [| c a IH]; [reflexivity |]. rewrite string_app_cons. simpl. exact IH. Qed.

Lemma substring_full (s : string) : substring 0 (String.length s) s = s.
Proof. induction s as [| c s IH]; [reflexivity |]. simpl. by rewrite IH. Qed.

Lemma ends_with_txt (n : string) : ends_with ".txt" (n ++ ".txt") = true.
Proof.
  unfold ends_with. rewrite string_length_app.
  replace (String.length n + String.length ".txt" - String.length ".txt") with (String.length n) by lia.
  rewrite substring_app_r, andb_true_iff. split; [apply Nat.leb_le; simpl; lia | reflexivity].
Qed.

Lemma in_keys_set {V : Type} (m : JsMap.t string V) (k : string) (v : V) :
  In k (map fst (JsMap.set m k v)).
Proof.
  induction m as [| [k1 v1] m IH]; simpl; [by left |].
  destruct (decide (k = k1)) as [-> |]; simpl; [by left | by right].
Qed.

Lemma replace_first_eq (pat s : string) :
  replace_first pat s =
  if String.prefix pat s then substring (String.length pat) (String.length s - String.length pat) s
  else match s with EmptyString => EmptyString | String c r => String c (replace_first pat r) end.
Proof. destruct s; reflexivity. Qed.

Lemma prefix_cons_eqb (a b : ascii) (s1 s2 : string) :
  String.prefix (String a s1) (String b s2) = Ascii.eqb a b && String.prefix s1 s2.
Proof.
  change (String.prefix (String a s1) (String b s2))
    with (if ascii_dec a b then String.prefix s1 s2 else false).
  destruct (ascii_dec a b) as [<- | Hn]; [rewrite Ascii.eqb_refl; reflexivity |].
  apply Ascii.eqb_neq in Hn. rewrite Hn. reflexivity.
Qed.

Lemma prefix_nil (s : string) : String.prefix "" s = true.
Proof. destruct s; reflexivity. Qed.

(** ".txt" has no border: an occurrence cannot start inside a word that
    holds none and run into a following ".txt". *)
Lemma prefix_txt_straddle (c : ascii) (a s : string) :
  String.prefix ".txt" (String c a) = false ->
  String.prefix ".txt" (String c a ++ ".txt" ++ s) = false.
Proof.
  rewrite string_app_cons. intros H.
  destruct a as [| c2 [| c3 [| c4 a]]]; rewrite ?string_app_cons in *;
  rewrite ?prefix_cons_eqb in *; rewrite ?prefix_nil in *;
  repeat match goal with
  | |- context [Ascii.eqb ?x ?y] => is_var y; destruct (Ascii.eqb_spec x y) as [<- | ?]
  end; cbn [andb Ascii.eqb Bool.eqb] in *; try reflexivity; try discriminate.
Qed.

Lemma replace_first_txt (a s : string) :
  includes a ".txt" = false -> replace_first ".txt" (a ++ ".txt" ++ s) = (a ++ s)%string.
Proof.
  induction a as [| c a IH]; intros H.
  - rewrite replace_first_eq.
    change ("" ++ ".txt" ++ s)%string with (String "." (String "t" (String "x" (String "t" s)))).
    change ("" ++ s)%string with s.
    rewrite !prefix_cons_eqb, prefix_nil. cbn [andb Ascii.eqb Bool.eqb].
    cbn [String.length substring Nat.sub]. rewrite Nat.sub_0_r. apply substring_full.
  - simpl in H. apply orb_false_iff in H as [Hp Ha].
    rewrite replace_first_eq, (prefix_txt_straddle c a s Hp), string_app_cons.
    rewrite IH by exact Ha. reflexivity.
Qed.

Lemma js_get_nodup {K V : Type} `{EqDecision K} (m : JsMap.t K V) (k : K) (v : V) :
  NoDup (map fst m) -> In (k, v) m -> JsMap.get m k = Some v.
Proof.
  induction m as [| [k1 v1] m IH]; simpl; [done |].
  intros Hnd Hin. apply NoDup_cons in Hnd as [Hk1 Hnd].
  destruct Hin as [E | Hin].
  - injection E as -> ->. by rewrite decide_True.
  - rewrite decide_False; [by apply IH |].
    intros ->. apply Hk1. apply list_elem_of_In. apply (in_map fst) in Hin. exact Hin.
Qed.

Lemma mapM_map_ext {A B C : Type} (f : B -> option C) (g : A -> B) (h : A -> option C)
    (l : list A) :
  (forall x, In x l -> f (g x) = h x) -> mapM f (map g l) = mapM h l.
Proof.
  induction l as [| x l IH]; intros H; [reflexivity |].
  simpl. rewrite (H x (or_introl eq_refl)), IH; [reflexivity |].
  intros y Hy. apply H. by right.
Qed.

Definition named (kv : option json * json) : Prop :=
  exists n, kv.1 = Some (JStr n) /\ get kv.2 "name" = Some (JStr n).

(** The name of a tool whose [name] member is a string. *)
Definition str_name (tool : json) : string :=
  match get tool "name" with Some (JStr n) => n | _ => "" end.

Lemma mentioned_named (lp : string) (tools : cache) :
  Forall named tools ->
  mentioned lp (map (fun kv => get kv.2 "name") tools) =
  Some (map (fun kv => str_name kv.2)
            (List.filter (fun kv => includes lp (to_lower (str_name kv.2))) tools)).
Proof.
  induction tools as [| kv tools IH]; intros H; [reflexivity |].
  apply Forall_cons in H as [(n & _ & Hn) H].
  simpl. rewrite Hn, IH by exact H.
  assert (Hs : str_name kv.2 = n) by (unfold str_name; by rewrite Hn).
  rewrite Hs. destruct (includes lp (to_lower n)); simpl; rewrite ?Hs; reflexivity.
Qed.

Lemma mentioned_bad (lp : string) (names : list (option json)) (x : option json) :
  In x names -> (forall n, x <> Some (JStr n)) -> mentioned lp names = None.
Proof.
  induction names as [| y names IH]; intros Hin Hx; [done |].
  destruct Hin as [-> | Hin].
  - simpl. destruct x as [[| | | n | |] |]; try reflexivity. by destruct (Hx n).
  - simpl. rewrite (IH Hin Hx). destruct y as [[| | | n | |] |]; reflexivity.
Qed.

Lemma refresh_loop_last (kf sn : string) (xs : list json) (m : cache) (k : option json) :
  Forall (fun d => d <> JNull) xs -> (exists d, In d xs /\ get d kf = k) ->
  exists d, In d xs /\ get d kf = k /\
            JsMap.get (refresh_loop kf sn xs m) k = Some (with_server sn d).
Proof.
  revert m. induction xs as [| x xs IH]; intros m Hnn (d & Hd & Hk); [done |].
  apply Forall_cons in Hnn as [Hx Hnn].
  assert (Hr : refresh_loop kf sn (x :: xs) m =
               refresh_loop kf sn xs (JsMap.set m (get x kf) (with_server sn x)))
    by (destruct x; done).
  rewrite Hr.
  destruct (decide (Exists (fun d' => get d' kf = k) xs)) as [Hex | Hno].
  { apply List.Exists_exists in Hex.
    destruct (IH (JsMap.set m (get x kf) (with_server sn x)) Hnn Hex) as (d' & ? & ? & ?).
    exists d'. split; [by right | done]. }
  { destruct Hd as [<- | Hd]; [| exfalso; apply Hno, List.Exists_exists; by exists d].
    exists x. split; [by left | split; [exact Hk |]].
    destruct (RegistryFacts.refresh_loop_frame kf sn xs
                (JsMap.set m (get x kf) (with_server sn x)) k) as [-> | (d' & Hd' & Hk' & _)].
    - rewrite JsMap.get_set, decide_True by (symmetry; exact Hk). reflexivity.
    - exfalso. apply Hno, List.Exists_exists. by exists d'. }
Qed.

End AIClientFacts.

(* ===================================================================== *)
(** * Properties of AIClient                                             *)
(* ===================================================================== *)

Module AIClientExtras.
Import Registry AIClientModel DecoderFacts AIClientFacts.
Local Open Scope string_scope.

(** X5: in the OpenAI format the request body has exactly the properties
    model, messages and stream, then those of temperature, max_tokens,
    top_p, frequency_penalty and presence_penalty the caller gave, copied;
    every other option is dropped.  The model is [options.model] when
    truthy, else the client's model; stream is [options.stream] when
    truthy, else false; the prompt is sent as one user message. *)
Theorem openai_request_body (this_model : option json) (prompt : string)
    (options : list (string * json)) :
  map fst (format_request "openai" this_model prompt options) =
    (["model"; "messages"; "stream"] ++
     List.filter (fun k => match obj_get options k with Some _ => true | None => false end)
       openai_params)%list /\
  (forall k, In k openai_params ->
     obj_lookup (format_request "openai" this_model prompt options) k =
     option_map Some (obj_get options k)) /\
  obj_lookup (format_request "openai" this_model prompt options) "model" =
    Some (js_or (obj_get options "model") this_model) /\
  obj_lookup (format_request "openai" this_model prompt options) "messages" =
    Some (Some (JArr [JObj [("role", JStr "user"); ("content", JStr prompt)]])) /\
  obj_lookup (format_request "openai" this_model prompt options) "stream" =
    Some (js_or (obj_get options "stream") (Some (JBool false))).
Proof.
  unfold format_request, openai_params. cbn [String.eqb Ascii.eqb Bool.eqb fold_left List.filter].
  destruct (obj_get options "temperature") eqn:E1, (obj_get options "max_tokens") eqn:E2,
    (obj_get options "top_p") eqn:E3, (obj_get options "frequency_penalty") eqn:E4,
    (obj_get options "presence_penalty") eqn:E5;
  (split; [reflexivity |]);
  (split; [intros k Hk; repeat destruct Hk as [<- | Hk]; [..| destruct Hk];
           rewrite ?E1, ?E2, ?E3, ?E4, ?E5; reflexivity |]);
  repeat split.
Qed.

(** X6: in any other format (the DeepSeek default) the body is
    [{model, prompt, stream, ...options}]: every option the caller gives
    is sent and overrides those three, so an option named prompt replaces
    the prompt and a falsy model option is sent as it is. *)
Theorem default_request_body (fmt : string) (this_model : option json) (prompt : string)
    (options : list (string * json)) (Hf : fmt <> "openai") (k : string) :
  obj_lookup (format_request fmt this_model prompt options) k =
  match obj_get options k with
  | Some v => Some (Some v)
  | None => obj_lookup [("model", js_or (obj_get options "model") this_model);
                        ("prompt", Some (JStr prompt));
                        ("stream", js_or (obj_get options "stream") (Some (JBool false)))] k
  end.
Proof.
  unfold format_request. destruct (String.eqb_spec fmt "openai"); [done |].
  apply spread_lookup.
Qed.

Lemma default_request_body_witness :
  "deepseek" <> "openai" /\
  obj_lookup (format_request "deepseek" (Some (JStr "deepseek-r1")) "Hello"
                [("prompt", JStr "Bye"); ("model", JStr "")]) "prompt" = Some (Some (JStr "Bye")) /\
  obj_lookup (format_request "deepseek" (Some (JStr "deepseek-r1")) "Hello"
                [("prompt", JStr "Bye"); ("model", JStr "")]) "model" = Some (Some (JStr "")).
Proof.
  split; [discriminate |].
  rewrite !(default_request_body "deepseek" _ _ _ ltac:(discriminate)).
  split; reflexivity.
Defined.

(** X7: the body generateStream sends always asks for [stream: true], in
    either format and whatever the caller's options hold. *)
Theorem stream_request_streams (fmt : string) (this_model : option json) (prompt : string)
    (options : list (string * json)) :
  obj_lookup (format_request fmt this_model prompt (stream_options options)) "stream" =
  Some (Some (JBool true)).
Proof.
  unfold format_request, stream_options. rewrite (obj_get_app_last options "stream").
  destruct (String.eqb fmt "openai").
  - cbn [fold_left openai_params js_or truthy].
    destruct (obj_get (options ++ [("stream", JBool true)]) "temperature"),
      (obj_get (options ++ [("stream", JBool true)]) "max_tokens"),
      (obj_get (options ++ [("stream", JBool true)]) "top_p"),
      (obj_get (options ++ [("stream", JBool true)]) "frequency_penalty"),
      (obj_get (options ++ [("stream", JBool true)]) "presence_penalty"); reflexivity.
  - rewrite spread_lookup, obj_get_app_last. reflexivity.
Qed.

(** X8: the message of the Error [generate] throws for an HTTP error
    response is "API Error: <status> - <text>".  In the default format an
    object-valued [data.error] gives the text "[object Object]" (the
    provider's message is lost), unless it has its own [toString] key:
    then building the message throws a TypeError instead; in the OpenAI
    format a nonempty string [data.error.message] is the text; when that
    field is missing or falsy the text is the response's statusText. *)
Theorem api_error_text (status : Z) (statusText : string) :
  (forall fmt d fs, fmt <> "openai" -> get d "error" = Some (JObj fs) ->
     existsb (fun kv => String.eqb kv.1 "toString") fs = false ->
     api_error fmt status statusText (Some d) =
     Some ("API Error: " ++ pretty status ++ " - [object Object]")) /\
  (forall fmt d fs, fmt <> "openai" -> get d "error" = Some (JObj fs) ->
     existsb (fun kv => String.eqb kv.1 "toString") fs = true ->
     api_error fmt status statusText (Some d) = None) /\
  (forall d m, oget (get d "error") "message" = Some (JStr m) -> m <> "" ->
     api_error "openai" status statusText (Some d) =
     Some ("API Error: " ++ pretty status ++ " - " ++ m)) /\
  (forall fmt data,
     truthy_opt (if String.eqb fmt "openai" then oget (oget data "error") "message"
                 else oget data "error") = false ->
     api_error fmt status statusText data =
     Some ("API Error: " ++ pretty status ++ " - " ++ statusText)).
Proof.
  split; [| split; [| split]].
  - intros fmt d fs Hf He Hts. unfold api_error, extract_error.
    destruct (String.eqb_spec fmt "openai"); [done |]. cbn [oget]. rewrite He.
    cbn [js_or truthy js_string_opt Session.js_to_string]. rewrite Hts. reflexivity.
  - intros fmt d fs Hf He Hts. unfold api_error, extract_error.
    destruct (String.eqb_spec fmt "openai"); [done |]. cbn [oget]. rewrite He.
    cbn [js_or truthy js_string_opt Session.js_to_string]. rewrite Hts. reflexivity.
  - intros d m Hm Hne. unfold api_error, extract_error. cbn [String.eqb Ascii.eqb Bool.eqb oget].
    rewrite Hm. unfold js_or, truthy. apply String.eqb_neq in Hne. rewrite Hne. reflexivity.
  - intros fmt data Ht. unfold api_error, extract_error.
    destruct (String.eqb fmt "openai");
      [destruct (oget (oget data "error") "message") as [v |]
      | destruct (oget data "error") as [v |]]; simpl in Ht |- *;
      rewrite ?Ht; reflexivity.
Qed.

(** X9: [replaceTemplateVariables] replaces each [{{key}}] of a template
    (literal text without [{], keys made of [\w] characters) by
    [variables[key]] when that is defined and keeps the placeholder when
    it is not, scanning once: text inserted for a key is never searched
    for placeholders again. *)
Theorem template_placeholders (var : string -> option string) (segs : list segment)
    (Hok : forallb seg_ok segs = true) :
  replace_template_variables var (foldr String.append "" (map seg_text segs)) =
  foldr String.append "" (map (seg_out var) segs).
Proof.
  induction segs as [| x segs IH]; [reflexivity |].
  simpl in Hok. apply andb_true_iff in Hok as [Hx Hs]. simpl.
  destruct x as [t | k].
  - rewrite replace_lit by exact Hx. simpl. rewrite IH by exact Hs. reflexivity.
  - assert (E : (("{{" ++ k ++ "}}") ++ foldr String.append "" (map seg_text segs)) =
                String "{" (String "{" (k ++ String "}" (String "}"
                  (foldr String.append "" (map seg_text segs)))))).
    { change (String "{" (String "{" ((k ++ "}}") ++ foldr String.append "" (map seg_text segs))) =
              String "{" (String "{" (k ++ ("}}" ++ foldr String.append "" (map seg_text segs))))).
      rewrite string_app_assoc. reflexivity. }
    simpl seg_text. rewrite E, replace_hole by exact Hx. rewrite IH by exact Hs. reflexivity.
Qed.

Lemma template_placeholders_witness :
  forallb seg_ok [Lit "Hi "; Hole "name"; Lit ", today is "; Hole "day"] = true /\
  replace_template_variables
    (fun k => if String.eqb k "name" then Some "{{day}}" else None)
    (foldr String.append "" (map seg_text [Lit "Hi "; Hole "name"; Lit ", today is "; Hole "day"])) =
  "Hi {{day}}, today is {{day}}".
Proof.
  split; [reflexivity |].
  rewrite template_placeholders by reflexivity. reflexivity.
Defined.

(** X10: after [savePromptTemplate(name, content)] (created directory or
    not), [loadPromptTemplate(name)] returns the content trimmed (trimming
    twice changes nothing), and the other templates load as before. *)
Theorem save_then_load (d : dir) (name content : string) (Hn : safe_name name = true) :
  load_prompt_template (save_prompt_template d name content) name = Ok (trim content) /\
  (forall name', safe_name name' = true -> name' <> name ->
     load_prompt_template (save_prompt_template d name content) name' =
     load_prompt_template d name').
Proof.
  unfold load_prompt_template, save_prompt_template. cbn [mbind option_bind].
  split.
  - rewrite JsMap.get_set. rewrite decide_True by reflexivity. by rewrite trim_idem.
  - intros name' _ Hne. rewrite JsMap.get_set.
    rewrite decide_False by (intros E; apply Hne; exact (string_app_inv_r _ _ _ E)).
    destruct d; reflexivity.
Qed.

Lemma save_then_load_witness :
  safe_name "greeting" = true /\
  load_prompt_template (save_prompt_template None "greeting" "  Hello {{name}}!  ") "greeting" =
    Ok "Hello {{name}}!".
Proof.
  split; [reflexivity |].
  rewrite (proj1 (save_then_load None "greeting" "  Hello {{name}}!  " eq_refl)). reflexivity.
Defined.

(** X11: [listPromptTemplates()] after saving [name] lists the file name
    with its first ".txt" removed: [name] itself when it holds no ".txt",
    but [a ++ b ++ ".txt"] for a name [a ++ ".txt" ++ b] whose part [a]
    holds none, so such a listed name does not load the saved template. *)
Theorem list_after_save (d : dir) (name content : string) (Hn : safe_name name = true) :
  In (replace_first ".txt" (template_file name))
     (list_prompt_templates (save_prompt_template d name content)) /\
  (includes name ".txt" = false -> replace_first ".txt" (template_file name) = name) /\
  (forall a b, name = (a ++ ".txt" ++ b)%string -> includes a ".txt" = false ->
     replace_first ".txt" (template_file name) = (a ++ b ++ ".txt")%string).
Proof.
  split; [| split].
  - unfold list_prompt_templates, save_prompt_template. apply in_map.
    apply filter_In. split; [apply in_keys_set | apply ends_with_txt].
  - intros H. unfold template_file.
    rewrite <- (string_app_nil_r ".txt"), replace_first_txt by exact H.
    apply string_app_nil_r.
  - intros a b -> Ha. unfold template_file.
    rewrite <- !string_app_assoc. apply replace_first_txt, Ha.
Qed.

Lemma list_after_save_witness :
  safe_name "v1.txt.bak" = true /\
  list_prompt_templates (save_prompt_template None "v1.txt.bak" "x") = ["v1.bak.txt"] /\
  In (replace_first ".txt" (template_file "v1.txt.bak"))
     (list_prompt_templates (save_prompt_template None "v1.txt.bak" "x")).
Proof.
  split; [reflexivity | split; [reflexivity |]].
  exact (proj1 (list_after_save None "v1.txt.bak" "x" eq_refl)).
Defined.

(** X12: with MCP enabled and a nonempty tool cache whose tools are
    stored under their string names (numbers in them at most 2^53 in
    magnitude), generateWithMcp generates from the prompt unchanged when no
    tool name occurs in it (compared in lower case); otherwise from the
    prompt followed by one line "- name: description" per mentioned tool,
    in cache order, and the closing note, unless the template literal of
    one of these lines throws (then generateWithMcp throws).  The
    description is "No description" when it is missing or falsy, a
    nonempty string as it is, and throws for an object with its own
    [toString] key.  A tool named "" is mentioned by every prompt. *)
Theorem generate_with_mcp_prompt (tools : cache) (prompt : string)
    (Hne : tools <> []) (Hn : Forall named tools) (Hnd : NoDup (map fst tools))
    (Hs : Forall (fun kv => Session.nums_safe kv.2 = true) tools) :
  generate_with_mcp true tools prompt =
    match List.filter (fun kv => includes (to_lower prompt) (to_lower (str_name kv.2))) tools with
    | [] => Some prompt
    | ms => option_map (enhance prompt)
              (mapM (fun kv => tool_desc kv.2 ≫= fun d =>
                               Some ("- " ++ str_name kv.2 ++ ": " ++ d)) ms)
    end /\
  (forall t, truthy_opt (get t "description") = false -> tool_desc t = Some "No description") /\
  (forall t d, get t "description" = Some (JStr d) -> d <> "" -> tool_desc t = Some d) /\
  (forall t fs, get t "description" = Some (JObj fs) ->
     existsb (fun kv => String.eqb kv.1 "toString") fs = true -> tool_desc t = None).
Proof.
  split; [| split; [| split]].
  - unfold generate_with_mcp.
    destruct tools as [| kv0 r] eqn:Et; [done |]. rewrite <- Et in Hn, Hnd |- *.
    replace (negb true || Nat.eqb (List.length tools) 0) with false by (subst; reflexivity).
    rewrite mentioned_named by exact Hn.
    pose proof (fun x => proj1 (filter_In (fun kv => includes (to_lower prompt) (to_lower (str_name kv.2))) x tools)) as Hsub.
    destruct (List.filter _ tools) as [| kv ms] eqn:Ef; [reflexivity |].
    rewrite (mapM_map_ext (fun n => tool_line (JsMap.get tools (Some (JStr n))))
               (fun kv => str_name kv.2)
               (fun kv => tool_desc kv.2 ≫= fun d => Some ("- " ++ str_name kv.2 ++ ": " ++ d))
               (kv :: ms)).
    + by destruct (mapM _ (kv :: ms)).
    + intros x Hx. destruct (Hsub x Hx) as [Hin _].
      rewrite List.Forall_forall in Hn. destruct (Hn x Hin) as (n & Hk & Hname).
      assert (Hsn : str_name x.2 = n) by (unfold str_name; by rewrite Hname).
      rewrite Hsn, <- Hk, (js_get_nodup tools x.1 x.2 Hnd) by (destruct x; exact Hin).
      unfold tool_line. destruct x.2 as [| | | | | fs] eqn:Ex; try discriminate.
      rewrite Hname. reflexivity.
  - intros t Ht. unfold tool_desc, js_or.
    destruct (get t "description") as [v |]; [| reflexivity].
    simpl in Ht. rewrite Ht. reflexivity.
  - intros t d Hd Hne'. unfold tool_desc, js_or. rewrite Hd. simpl.
    destruct (String.eqb_spec d ""); [done | reflexivity].
  - intros t fs Hd Hts. unfold tool_desc, js_or. rewrite Hd. simpl. rewrite Hts. reflexivity.
Qed.

Lemma generate_with_mcp_prompt_witness :
  generate_with_mcp true
    [(Some (JStr "search"), JObj [("name", JStr "search"); ("description", JStr "Web search");
                                  ("serverName", JStr "web")]);
     (Some (JStr "calc"), JObj [("name", JStr "calc"); ("serverName", JStr "math")])]
    "Please SEARCH the web" =
  Some (enhance "Please SEARCH the web" ["- search: Web search"]).
Proof.
  match goal with |- generate_with_mcp true ?tools ?prompt = _ =>
    assert (Hne : tools <> []) by discriminate;
    assert (Hn : Forall named tools)
      by (constructor; [eexists; split; reflexivity |];
          constructor; [eexists; split; reflexivity |]; constructor);
    assert (Hnd : NoDup (map fst tools))
      by (apply (bool_decide_unpack _); vm_compute; reflexivity);
    assert (Hs : Forall (fun kv => Session.nums_safe kv.2 = true) tools) by (repeat constructor);
    rewrite (proj1 (generate_with_mcp_prompt tools prompt Hne Hn Hnd Hs))
  end.
  reflexivity.
Defined.

(** X13: with MCP enabled, one cached tool whose name is not a string
    (missing, a number, null, ...) makes generateWithMcp throw for every
    prompt, before anything is generated. *)
Theorem generate_with_mcp_bad_name (tools : cache) (kv : option json * json) (prompt : string)
    (Hin : In kv tools) (Hbad : forall n, get kv.2 "name" <> Some (JStr n)) :
  generate_with_mcp true tools prompt = None.
Proof.
  unfold generate_with_mcp.
  destruct tools as [| kv0 r] eqn:Et; [done |]. rewrite <- Et in Hin |- *.
  replace (negb true || Nat.eqb (List.length tools) 0) with false by (subst; reflexivity).
  rewrite (mentioned_bad _ _ (get kv.2 "name")); [reflexivity | | exact Hbad].
  apply (in_map (fun kv => get kv.2 "name")), Hin.
Qed.

Lemma generate_with_mcp_bad_name_witness :
  generate_with_mcp true
    [(Some (JStr "search"), JObj [("name", JStr "search"); ("serverName", JStr "web")]);
     (None, JObj [("title", JStr "unnamed"); ("serverName", JStr "web")])]
    "Please search the web" = None.
Proof.
  apply (generate_with_mcp_bad_name _ (None, JObj [("title", JStr "unnamed"); ("serverName", JStr "web")])).
  - right. left. reflexivity.
  - intros n. discriminate.
Defined.

(** X14: once initializeMcp has connected a server whose config name is
    [sn] and refreshed its tools, callMcpTool on one of them without a
    server name calls that server's client when [sn] is nonempty; with an
    empty name the client is kept under its serverUrl but the tools are
    tagged with serverName "", so the call fails with
    "MCP server '' not connected". *)
Theorem init_server_routes {C : Type} (clients : JsMap.t (option json) C) (tools : cache)
    (sn : string) (url : option json) (cl : C) (o : outcome) (n : string)
    (Hl : exists d, In d (listed o) /\ get d "name" = Some (JStr n))
    (Hnn : Forall (fun d => d <> JNull) (listed o)) :
  (sn <> "" ->
   call_route Tools (init_server clients tools sn url cl o).1
                    (init_server clients tools sn url cl o).2 n None = Ok cl) /\
  (sn = "" -> url <> Some (JStr "") -> JsMap.get clients (Some (JStr "")) = None ->
   call_route Tools (init_server clients tools sn url cl o).1
                    (init_server clients tools sn url cl o).2 n None =
   Err "MCP server '' not connected").
Proof.
  destruct (refresh_loop_last "name" sn (listed o) tools (Some (JStr n)) Hnn Hl)
    as (d & _ & Hd & Hget).
  destruct d as [| | | | | fs]; try discriminate.
  unfold init_server, call_route, refresh. cbn [fst snd cat_key]. rewrite Hget.
  cbn [with_server truthy get]. rewrite obj_get_app_last. cbn [js_or truthy].
  split.
  - intros Hs. apply String.eqb_neq in Hs. cbn [js_or truthy]. rewrite Hs. cbn [negb].
    rewrite JsMap.get_set, decide_True by reflexivity. reflexivity.
  - intros -> Hu Hc. cbn [js_or truthy String.eqb negb].
    rewrite JsMap.get_set, decide_False by (intros E; apply Hu; symmetry; exact E).
    rewrite Hc. reflexivity.
Qed.

Lemma init_server_routes_witness :
  call_route Tools
    (init_server (C := nat) [] [] "" (Some (JStr "ws://localhost:8080")) 7%nat
       (Resolved (JArr [JObj [("name", JStr "search")]]))).1
    (init_server (C := nat) [] [] "" (Some (JStr "ws://localhost:8080")) 7%nat
       (Resolved (JArr [JObj [("name", JStr "search")]]))).2
    "search" None = Err "MCP server '' not connected".
Proof.
  assert (Hl : exists d, In d (listed (Resolved (JArr [JObj [("name", JStr "search")]])))
                       /\ get d "name" = Some (JStr "search")).
  { exists (JObj [("name", JStr "search")]). split; [simpl; left; reflexivity | reflexivity]. }
  assert (Hnn : Forall (fun d => d <> JNull)
                  (listed (Resolved (JArr [JObj [("name", JStr "search")]])))).
  { simpl. constructor; [discriminate | constructor]. }
  refine (proj2 (init_server_routes [] [] "" (Some (JStr "ws://localhost:8080")) 7%nat
                   (Resolved (JArr [JObj [("name", JStr "search")]])) "search"
                   Hl Hnn) eq_refl _ _).
  - discriminate.
  - reflexivity.
Defined.

(** X15: in the OpenAI format every chunk [_parseStreamChunk] returns is
    truthy and has no [choices] field, so generateStream's
    [parsedChunk.choices?.[0]?.finish_reason] test never holds; the chunk
    ends the stream exactly when the line is "data: [DONE]" or the parsed
    data's first choice has a [finish_reason] that is not null (a missing
    one counts). *)
Theorem openai_chunk_terminal (parse : string -> option json) (line : string) (pc : json)
    (H : Decoder.parse_stream_chunk parse "openai" line = Some pc) :
  truthy pc = true /\ get pc "choices" = None /\
  (Decoder.terminal "openai" pc = true <->
   substring 6 (String.length line - 6) line = "[DONE]" \/
   exists p, parse (substring 6 (String.length line - 6) line) = Some p /\
             oget (oidx0 (get p "choices")) "finish_reason" <> Some JNull).
Proof.
  unfold Decoder.parse_stream_chunk in H. cbn [String.eqb Ascii.eqb Bool.eqb] in H.
  destruct (String.prefix "data: " line); [| discriminate].
  destruct (String.eqb_spec (substring 6 (String.length line - 6) line) "[DONE]") as [Ed | Ed].
  - injection H as <-. split; [reflexivity | split; [reflexivity |]].
    split; [intros _; by left | intros _; reflexivity].
  - destruct (parse (substring 6 (String.length line - 6) line)) as [p |] eqn:Ep; [| discriminate].
    unfold Decoder.openai_chunk in H.
    assert (Hp : p <> JNull) by (intros ->; discriminate).
    assert (Hpc : pc = JObj [("response", match oget (oget (oidx0 (get p "choices")) "delta") "content" with
                                          | Some v => if truthy v then v else JStr ""
                                          | None => JStr ""
                                          end);
                             ("done", JBool (match oget (oidx0 (get p "choices")) "finish_reason" with
                                             | Some JNull => false | _ => true end));
                             ("_original", p)])
      by (destruct p; [done | injection H as <-; reflexivity ..]).
    subst pc. split; [reflexivity | split; [reflexivity |]].
    unfold Decoder.terminal. cbn [get obj_get String.eqb Ascii.eqb Bool.eqb andb orb truthy_opt truthy oget oidx0].
    rewrite orb_false_r. split.
    + intros Ht. right. exists p. split; [reflexivity |].
      destruct (oget (oidx0 (get p "choices")) "finish_reason") as [[] |]; done.
    + intros [Hd | (p' & Hp' & Hf)]; [done |].
      injection Hp' as <-.
      destruct (oget (oidx0 (get p "choices")) "finish_reason") as [[] |]; done.
Qed.

Lemma openai_chunk_terminal_witness :
  Decoder.parse_stream_chunk Decoder.json_parse "openai" "data: [DONE]" =
    Some (JObj [("done", JBool true)]) /\
  Decoder.terminal "openai" (JObj [("done", JBool true)]) = true.
Proof.
  split; [reflexivity |].
  apply (openai_chunk_terminal Decoder.json_parse "data: [DONE]"); [reflexivity |].
  left. reflexivity.
Defined.

End AIClientExtras.
